(** * Anarchy GPU passthrough: transport and call proxy

    A shallow embedding of the message transport
    ([src/common/network/zmq_wrapper.cpp], [include/common/network/*.hpp])
    and of the client call proxy ([src/client/vulkan_icd.cpp]), with the
    server object that owns a transport ([src/server/gpu_server.cpp]).

    Integers of the source are [Z] with their wrap-around written out,
    byte buffers are [list byte], the per-category registries of the call
    proxy are [gmap]s keyed by the 64-bit handle value.  Everything the
    code asks of its environment (the steady clock, the outcome of a socket
    call, what the compression libraries return) is an explicit argument,
    and everything it does to its environment (callbacks, socket calls,
    sleeps) is appended to a trace kept in the state. *)

From Stdlib Require Import ZArith Lia Strings.Byte.
From Equations Require Import Equations.
From stdpp Require Import base option list gmap strings.

Local Open Scope Z_scope.

(** ** Machine integers *)

Module Int.

Definition wrap (bits n : Z) : Z := n mod 2 ^ bits.

(** [uint32_t], and [size_t]/[uint64_t] on the LP64 targets the project builds for. *)
Definition u32 : Z -> Z := wrap 32.
Definition u64 : Z -> Z := wrap 64.

(** Conversion to a signed 32-bit [int], as [static_cast<int>] does. *)
Definition s32 (n : Z) : Z := wrap 32 (n + 2 ^ 31) - 2 ^ 31.

(** [static_cast<double>] of a non-negative integer, given by the integer
    value of the resulting double: 53 significant bits, round to nearest,
    ties to even. *)
Definition to_double (n : Z) : Z :=
  if n <? 2 ^ 53 then n
  else
    let k := Z.log2 n - 52 in
    let q := n / 2 ^ k in
    let r := n mod 2 ^ k in
    let half := 2 ^ (k - 1) in
    let q' := if r <? half then q
              else if half <? r then q + 1
              else if Z.even q then q else q + 1 in
    q' * 2 ^ k.

End Int.

(** ** Wire format ([protocol.hpp]) *)

Module Protocol.

(** The enumerators of [protocol.hpp], followed by the ones
    [vulkan_icd.cpp] names. *)
Inductive MessageType : Set :=
  | CONNECT | DISCONNECT | HEARTBEAT
  | VK_CREATE_INSTANCE | VK_CREATE_DEVICE | VK_CREATE_SWAPCHAIN
  | VK_CREATE_COMMAND_POOL | VK_CREATE_COMMAND_BUFFER
  | VK_BEGIN_COMMAND_BUFFER | VK_END_COMMAND_BUFFER
  | VK_QUEUE_SUBMIT | VK_ACQUIRE_NEXT_IMAGE | VK_PRESENT
  | FRAME_DATA | FRAME_ACK | FRAME_REQUEST
  | ERROR | RESET
  | VK_DESTROY_INSTANCE | VK_DESTROY_DEVICE | VK_MAP_MEMORY.

Inductive CompressionType : Set := NONE | ZLIB | LZ4.

Global Instance CompressionType_eq_dec : EqDecision CompressionType.
Proof. solve_decision. Defined.

Record MessageHeader : Set := mkHeader {
  type : MessageType;
  size : Z;          (* uint32_t, size of the payload *)
  sequence : Z;      (* uint32_t *)
  timestamp : Z;     (* uint64_t *)
  compression : CompressionType
}.

Record Message : Set := mkMessage {
  header : MessageHeader;
  payload : list byte
}.

(** [sizeof(MessageHeader)] with the natural alignment of its fields
    (offsets 0, 4, 8, 16, 24). *)
Definition sizeof_MessageHeader : Z := 32.

Definition set_compression (c : CompressionType) (h : MessageHeader) : MessageHeader :=
  mkHeader (type h) (size h) (sequence h) (timestamp h) c.

End Protocol.

(** ** Transport ([zmq_wrapper.hpp], [zmq_wrapper.cpp]) *)

Module Zmq.
Import Int Protocol.

Inductive CompressionLevel : Set := FAST | BALANCED | MAX.
Inductive Role : Set := SERVER | CLIENT.
Inductive ConnectionState : Set := DISCONNECTED | CONNECTING | CONNECTED | RECONNECTING.

Global Instance ConnectionState_eq_dec : EqDecision ConnectionState.
Proof. solve_decision. Defined.

Definition MAX_MESSAGE_SIZE : Z := 1024 * 1024 * 100.
Definition DEFAULT_CONNECTION_TIMEOUT : Z := 5000.
Definition DEFAULT_HEARTBEAT_INTERVAL : Z := 1000.
Definition DEFAULT_MAX_RECONNECT_ATTEMPTS : Z := 5.
Definition DEFAULT_RECONNECT_DELAY : Z := 1000.

(** [std::chrono::steady_clock] counts nanoseconds. *)
Definition milliseconds (n : Z) : Z := n * 1000000.
Definition seconds (n : Z) : Z := n * 1000000000.
(** [duration_cast<microseconds>] truncates towards zero. *)
Definition to_microseconds (ticks : Z) : Z := ticks ÷ 1000.

(** *** The compression libraries

    zlib and LZ4 are outside the repository; the code is modelled over
    whatever they return.  One zlib stream run ([deflateInit]/[inflateInit],
    one call with [Z_FINISH], then the [End] call) either fails to
    initialise or comes back with a return code and the bytes it wrote at
    [next_out]; an LZ4 call comes back with its [int] and the bytes it
    wrote at [dst]. *)

Inductive ZStream : Set :=
  | InitFailed
  | Ran (stream_end : bool) (written : list byte).

Record Codecs : Type := mkCodecs {
  deflate : Z -> list byte -> Z -> ZStream;       (* level, avail_in bytes, avail_out *)
  inflate : list byte -> Z -> ZStream;            (* avail_in bytes, avail_out *)
  LZ4_compress_fast : list byte -> Z -> Z -> Z -> Z * list byte;
                                                  (* src, srcSize, dstCapacity, acceleration *)
  LZ4_decompress_safe : list byte -> Z -> Z -> Z * list byte
                                                  (* src, compressedSize, dstCapacity *)
}.

Definition LZ4_ACCELERATION_DEFAULT : Z := 1.
Definition LZ4_ACCELERATION_MAX : Z := 65537.
Definition Z_BEST_SPEED : Z := 1.
Definition Z_BEST_COMPRESSION : Z := 9.
Definition Z_DEFAULT_COMPRESSION : Z := -1.

(** *** What the transport does to the outside *)

Inductive Segment : Set :=
  | HeaderSegment (h : MessageHeader)
  | PayloadSegment (p : list byte).

Inductive SocketResult : Set :=
  | Sent                        (* the call returned a byte count *)
  | NotSent                     (* the call returned an empty result *)
  | Throws (what : string).     (* the call raised [zmq::error_t] *)

Inductive Effect : Set :=
  | ErrorCallback (error : string)
  | MessageCallback (m : Message)
  | SocketSend (seg : Segment) (sndmore : bool) (res : SocketResult)
  | SocketRecv (dontwait : bool)
  | SleepFor (ms : Z).

(** *** State of one [ZMQWrapper] *)

(** The integer fields of [CompressionStats].  Its [double] running ratio
    is written by [updateCompressionStats] and read by nothing modelled
    here; it is left out. *)
Record CompressionStats : Set := mkStats {
  messages_compressed : Z;
  messages_decompressed : Z;
  total_bytes_before : Z;
  total_bytes_after : Z;
  compression_failures : Z;
  decompression_failures : Z;
  average_compression_time : Z;        (* microseconds *)
  average_decompression_time : Z
}.

Record ZMQWrapper : Type := mkWrapper {
  role_ : Role;
  connected_ : bool;
  connection_state_ : ConnectionState;
  reconnect_attempts_ : Z;
  max_reconnect_attempts_ : Z;
  reconnect_delay_ : Z;
  messages_received_ : Z;
  last_heartbeat_ : Z;                           (* steady clock ticks *)
  max_message_size_ : Z;
  message_callback_ : bool;                      (* a callback is registered *)
  error_callback_ : bool;
  compression_type_ : CompressionType;
  compression_level_ : CompressionLevel;
  adaptive_compression_ : bool;
  compression_stats_ : CompressionStats;
  network_speed_history_ : list (Z * Z);         (* (time point, bytes) *)
  effects : list Effect                          (* oldest first *)
}.

Definition emit (e : Effect) (w : ZMQWrapper) : ZMQWrapper :=
  mkWrapper (role_ w) (connected_ w) (connection_state_ w) (reconnect_attempts_ w)
    (max_reconnect_attempts_ w) (reconnect_delay_ w) (messages_received_ w)
    (last_heartbeat_ w) (max_message_size_ w) (message_callback_ w) (error_callback_ w)
    (compression_type_ w) (compression_level_ w) (adaptive_compression_ w)
    (compression_stats_ w) (network_speed_history_ w) (effects w ++ [e]).

Definition set_history (h : list (Z * Z)) (w : ZMQWrapper) : ZMQWrapper :=
  mkWrapper (role_ w) (connected_ w) (connection_state_ w) (reconnect_attempts_ w)
    (max_reconnect_attempts_ w) (reconnect_delay_ w) (messages_received_ w)
    (last_heartbeat_ w) (max_message_size_ w) (message_callback_ w) (error_callback_ w)
    (compression_type_ w) (compression_level_ w) (adaptive_compression_ w)
    (compression_stats_ w) h (effects w).

Definition set_stats (s : CompressionStats) (w : ZMQWrapper) : ZMQWrapper :=
  mkWrapper (role_ w) (connected_ w) (connection_state_ w) (reconnect_attempts_ w)
    (max_reconnect_attempts_ w) (reconnect_delay_ w) (messages_received_ w)
    (last_heartbeat_ w) (max_message_size_ w) (message_callback_ w) (error_callback_ w)
    (compression_type_ w) (compression_level_ w) (adaptive_compression_ w)
    s (network_speed_history_ w) (effects w).

Definition set_last_heartbeat (t : Z) (w : ZMQWrapper) : ZMQWrapper :=
  mkWrapper (role_ w) (connected_ w) (connection_state_ w) (reconnect_attempts_ w)
    (max_reconnect_attempts_ w) (reconnect_delay_ w) (messages_received_ w)
    t (max_message_size_ w) (message_callback_ w) (error_callback_ w)
    (compression_type_ w) (compression_level_ w) (adaptive_compression_ w)
    (compression_stats_ w) (network_speed_history_ w) (effects w).

Definition set_messages_received (n : Z) (w : ZMQWrapper) : ZMQWrapper :=
  mkWrapper (role_ w) (connected_ w) (connection_state_ w) (reconnect_attempts_ w)
    (max_reconnect_attempts_ w) (reconnect_delay_ w) n
    (last_heartbeat_ w) (max_message_size_ w) (message_callback_ w) (error_callback_ w)
    (compression_type_ w) (compression_level_ w) (adaptive_compression_ w)
    (compression_stats_ w) (network_speed_history_ w) (effects w).

Definition set_connection (c : bool) (s : ConnectionState) (w : ZMQWrapper) : ZMQWrapper :=
  mkWrapper (role_ w) c s (reconnect_attempts_ w)
    (max_reconnect_attempts_ w) (reconnect_delay_ w) (messages_received_ w)
    (last_heartbeat_ w) (max_message_size_ w) (message_callback_ w) (error_callback_ w)
    (compression_type_ w) (compression_level_ w) (adaptive_compression_ w)
    (compression_stats_ w) (network_speed_history_ w) (effects w).

(** Readings of a trace: the messages handed to the message callback, the
    texts handed to the error callback, and the calls made on the socket. *)
Definition delivered (es : list Effect) : list Message :=
  flat_map (fun e => match e with MessageCallback m => [m] | _ => [] end) es.

Definition reported (es : list Effect) : list string :=
  flat_map (fun e => match e with ErrorCallback error => [error] | _ => [] end) es.

Definition socket_calls (es : list Effect) : list Effect :=
  flat_map (fun e => match e with
                     | SocketSend _ _ _ | SocketRecv _ => [e]
                     | _ => []
                     end) es.

(** The members that only the constructor, the setters and [stop()] write. *)
Definition settings (w : ZMQWrapper) :=
  (role_ w, connected_ w, connection_state_ w, reconnect_attempts_ w,
   max_reconnect_attempts_ w, reconnect_delay_ w, max_message_size_ w,
   message_callback_ w, error_callback_ w,
   compression_type_ w, compression_level_ w, adaptive_compression_ w).

(** *** Callbacks *)

Definition handleMessage (m : Message) (w : ZMQWrapper) : ZMQWrapper :=
  if message_callback_ w then emit (MessageCallback m) w else w.

Definition handleError (error : string) (w : ZMQWrapper) : ZMQWrapper :=
  if error_callback_ w then emit (ErrorCallback error) w else w.

Definition setMessageCallback (w : ZMQWrapper) : ZMQWrapper :=
  mkWrapper (role_ w) (connected_ w) (connection_state_ w) (reconnect_attempts_ w)
    (max_reconnect_attempts_ w) (reconnect_delay_ w) (messages_received_ w)
    (last_heartbeat_ w) (max_message_size_ w) true (error_callback_ w)
    (compression_type_ w) (compression_level_ w) (adaptive_compression_ w)
    (compression_stats_ w) (network_speed_history_ w) (effects w).

Definition setErrorCallback (w : ZMQWrapper) : ZMQWrapper :=
  mkWrapper (role_ w) (connected_ w) (connection_state_ w) (reconnect_attempts_ w)
    (max_reconnect_attempts_ w) (reconnect_delay_ w) (messages_received_ w)
    (last_heartbeat_ w) (max_message_size_ w) (message_callback_ w) true
    (compression_type_ w) (compression_level_ w) (adaptive_compression_ w)
    (compression_stats_ w) (network_speed_history_ w) (effects w).

(** *** Construction and settings *)

(** The constructor: the members as the header initialises them, then
    [CONNECTED] when the bind or connect went through and [DISCONNECTED]
    when it raised [socket_error].  No callback is registered yet. *)
Definition construct (r : Role) (now : Z) (socket_error : option string) : ZMQWrapper :=
  let w := mkWrapper r false DISCONNECTED 0 DEFAULT_MAX_RECONNECT_ATTEMPTS
             DEFAULT_RECONNECT_DELAY 0 now MAX_MESSAGE_SIZE false false
             ZLIB BALANCED false (mkStats 0 0 0 0 0 0 0 0) [] [] in
  match socket_error with
  | None => set_connection true CONNECTED w
  | Some what =>
      set_connection false DISCONNECTED
        (handleError ("Failed to initialize socket: " +:+ what) w)
  end.

Definition setCompressionType (type : CompressionType) (w : ZMQWrapper) : ZMQWrapper :=
  mkWrapper (role_ w) (connected_ w) (connection_state_ w) (reconnect_attempts_ w)
    (max_reconnect_attempts_ w) (reconnect_delay_ w) (messages_received_ w)
    (last_heartbeat_ w) (max_message_size_ w) (message_callback_ w) (error_callback_ w)
    type (compression_level_ w) (adaptive_compression_ w)
    (compression_stats_ w) (network_speed_history_ w) (effects w).

Definition setCompressionLevel (level : CompressionLevel) (w : ZMQWrapper) : ZMQWrapper :=
  mkWrapper (role_ w) (connected_ w) (connection_state_ w) (reconnect_attempts_ w)
    (max_reconnect_attempts_ w) (reconnect_delay_ w) (messages_received_ w)
    (last_heartbeat_ w) (max_message_size_ w) (message_callback_ w) (error_callback_ w)
    (compression_type_ w) level (adaptive_compression_ w)
    (compression_stats_ w) (network_speed_history_ w) (effects w).

Definition enableAdaptiveCompression (enable : bool) (w : ZMQWrapper) : ZMQWrapper :=
  mkWrapper (role_ w) (connected_ w) (connection_state_ w) (reconnect_attempts_ w)
    (max_reconnect_attempts_ w) (reconnect_delay_ w) (messages_received_ w)
    (last_heartbeat_ w) (max_message_size_ w) (message_callback_ w) (error_callback_ w)
    (compression_type_ w) (compression_level_ w) enable
    (compression_stats_ w) (network_speed_history_ w) (effects w).

(** *** Throughput estimate *)

(** The erase/remove_if idiom: the elements for which the predicate is
    false, in their order. *)
Fixpoint remove_if {A : Type} (p : A -> bool) (l : list A) : list A :=
  match l with
  | [] => []
  | x :: l' => if p x then remove_if p l' else x :: remove_if p l'
  end.

Definition cleanupOldSpeedHistory (now : Z) (w : ZMQWrapper) : ZMQWrapper :=
  let window_start := now - seconds 1 in
  set_history
    (remove_if (fun m : Z * Z => m.1 <? window_start) (network_speed_history_ w)) w.

(** Returns the [double] by its integer value, and the wrapper with its
    (mutable) history cleaned. *)
Definition getCurrentNetworkSpeed (now : Z) (w : ZMQWrapper) : Z * ZMQWrapper :=
  let w' := cleanupOldSpeedHistory now w in
  let total_bytes :=
    fold_left (fun total (entry : Z * Z) => u64 (total + entry.2))
              (network_speed_history_ w') 0 in
  (to_double total_bytes, w').

Definition updateNetworkSpeed (now bytes_sent : Z) (w : ZMQWrapper) : ZMQWrapper :=
  set_history (network_speed_history_ w ++ [(now, bytes_sent)]) w.

(** *** Compression decisions *)

Definition shouldCompressMessage (now message_size : Z) (w : ZMQWrapper)
  : bool * ZMQWrapper :=
  if negb (adaptive_compression_ w) then (1024 <? message_size, w)
  else
    let '(network_speed, w') := getCurrentNetworkSpeed now w in
    ((1024 <? message_size) && (network_speed <? to_double (u64 (message_size * 10))), w').

Definition selectCompressionType (message_size : Z) (w : ZMQWrapper) : CompressionType :=
  if decide (compression_type_ w ≠ NONE) then compression_type_ w
  else if message_size <? 1024 * 1024 then ZLIB else LZ4.

(** *** Buffers *)

(** [std::vector<uint8_t>(n)]: [n] zero bytes. *)
Definition vector_of_size (n : Z) : list byte := replicate (Z.to_nat n) x00.

(** [std::vector::max_size()] for bytes: [PTRDIFF_MAX]. *)
Definition vector_max_size : Z := 2 ^ 63 - 1.

(** [v.resize(n)] raises [std::length_error] beyond [max_size()]. *)
Definition resize_throws (n : Z) : bool := vector_max_size <? n.

(** [v.resize(n)] otherwise: the first [n] elements, zero-filled when [v]
    is shorter. *)
Definition vector_resize (n : Z) (v : list byte) : list byte :=
  take (Z.to_nat n) v ++ replicate (Z.to_nat n - length v)%nat x00.

(** The bytes a library call wrote at the start of a buffer. *)
Definition written_into (buffer written : list byte) : list byte :=
  written ++ drop (length written) buffer.

(** The two [switch]es of [compressData] on [compression_level_]. *)
Definition lz4_acceleration (level : CompressionLevel) : Z :=
  match level with
  | FAST => LZ4_ACCELERATION_MAX
  | MAX => 1
  | BALANCED => LZ4_ACCELERATION_DEFAULT
  end.

Definition zlib_level (level : CompressionLevel) : Z :=
  match level with
  | FAST => Z_BEST_SPEED
  | MAX => Z_BEST_COMPRESSION
  | BALANCED => Z_DEFAULT_COMPRESSION
  end.

Section WithCodecs.

Context (lib : Codecs).

(** Returns the [size_t] result and the output buffer after the call. *)
Definition compressData (input : list byte) (input_size : Z)
    (output : list byte) (output_size : Z) (w : ZMQWrapper) : Z * list byte :=
  if decide (compression_type_ w = LZ4) then
    let compression_level := lz4_acceleration (compression_level_ w) in
    let '(ret, written) :=
      LZ4_compress_fast lib input (s32 input_size) (s32 output_size) compression_level in
    (u64 ret, written_into output written)
  else
    let level := zlib_level (compression_level_ w) in
    match deflate lib level (take (Z.to_nat (u32 input_size)) input) (u32 output_size) with
    | InitFailed => (0, output)
    | Ran stream_end written =>
        let avail_out := u32 output_size - Z.of_nat (length written) in
        if negb stream_end then (0, written_into output written)
        else (u64 (output_size - avail_out), written_into output written)
    end.

Definition decompressData (input : list byte) (input_size : Z)
    (output : list byte) (output_size : Z) (w : ZMQWrapper) : Z * list byte :=
  if decide (compression_type_ w = LZ4) then
    let '(ret, written) :=
      LZ4_decompress_safe lib input (s32 input_size) (s32 output_size) in
    (u64 ret, written_into output written)
  else
    match inflate lib (take (Z.to_nat (u32 input_size)) input) (u32 output_size) with
    | InitFailed => (0, output)
    | Ran stream_end written =>
        let avail_out := u32 output_size - Z.of_nat (length written) in
        if negb stream_end then (0, written_into output written)
        else (u64 (output_size - avail_out), written_into output written)
    end.

Definition updateCompressionStats (before_size after_size compression_time : Z)
    (w : ZMQWrapper) : ZMQWrapper :=
  let s := compression_stats_ w in
  let msg_count := u64 (messages_compressed s + 1) in
  let total_time :=
    u64 (u64 (average_compression_time s * (msg_count - 1)) + compression_time) in
  set_stats
    (mkStats (u64 (messages_compressed s + 1))
             (messages_decompressed s)
             (u64 (total_bytes_before s + before_size))
             (u64 (total_bytes_after s + after_size))
             (compression_failures s)
             (decompression_failures s)
             (total_time / msg_count)
             (average_decompression_time s)) w.

(** *** Sending *)

(** What the environment answers during one [sendMessage]: the clock
    readings, in the order the code takes them, and the outcome of the two
    socket calls. *)
Record SendEnv : Set := mkSendEnv {
  speed_now : Z;          (* in [cleanupOldSpeedHistory] *)
  start_time : Z;
  end_time : Z;
  header_result : SocketResult;
  payload_result : SocketResult;
  sent_now : Z            (* in [updateNetworkSpeed] *)
}.

(** The message as it goes to the socket: [msg] after the compression step. *)
Definition prepare (env : SendEnv) (message : Message) (w : ZMQWrapper)
  : Message * ZMQWrapper :=
  let original_size := Z.of_nat (length (payload message)) in
  let '(should, w1) := shouldCompressMessage (speed_now env) original_size w in
  if should then
    let '(compressed_size, compressed_data) :=
      compressData (payload message) original_size
                   (vector_of_size original_size) original_size w1 in
    if (0 <? compressed_size) && (compressed_size <? original_size) then
      let compression_time := to_microseconds (end_time env - start_time env) in
      (* the resize shrinks the buffer: it cannot throw *)
      (mkMessage (set_compression (selectCompressionType original_size w1)
                                  (header message))
                 (vector_resize compressed_size compressed_data),
       updateCompressionStats original_size compressed_size compression_time w1)
    else (message, w1)
  else (message, w1).

Definition sendMessage (env : SendEnv) (message : Message) (w : ZMQWrapper)
  : bool * ZMQWrapper :=
  if negb (connected_ w) then
    (false, handleError "Cannot send message: not connected" w)
  else if max_message_size_ w <? size (header message) then
    (false, handleError "Message size exceeds limit" w)
  else
    let '(msg, w2) := prepare env message w in
    let w3 := emit (SocketSend (HeaderSegment (header msg)) true (header_result env)) w2 in
    match header_result env with
    | Throws what => (false, handleError ("Error sending message: " +:+ what) w3)
    | NotSent => (false, handleError "Failed to send message header" w3)
    | Sent =>
        let w4 := emit (SocketSend (PayloadSegment (payload msg)) false
                                   (payload_result env)) w3 in
        match payload_result env with
        | Throws what => (false, handleError ("Error sending message: " +:+ what) w4)
        | NotSent => (false, handleError "Failed to send message payload" w4)
        | Sent =>
            (true,
             updateNetworkSpeed (sent_now env)
               (u64 (sizeof_MessageHeader + Z.of_nat (length (payload msg)))) w4)
        end
    end.

(** *** The worker thread *)

Inductive RecvResult (A : Type) : Type :=
  | Nothing                      (* empty result: nothing to read *)
  | Got (a : A)
  | RecvThrows (what : string).  (* [zmq::error_t] *)
Global Arguments Nothing {A}.
Global Arguments Got {A} a.
Global Arguments RecvThrows {A} what.

(** What the environment answers during one turn of the loop. *)
Record WorkerEnv : Type := mkWorkerEnv {
  should_stop : bool;                       (* [should_stop_], set by [stop()] *)
  now : Z;
  heartbeat_env : SendEnv;
  recv_header : RecvResult MessageHeader;
  recv_payload : RecvResult (list byte);
  decompress_start : Z;
  decompress_end : Z
}.

Inductive Outcome : Type :=
  | Continues (w : ZMQWrapper)      (* the turn ended, the loop goes on *)
  | Escapes (w : ZMQWrapper).       (* an exception other than [zmq::error_t]
                                       left the thread function *)

Definition wrapper_of (o : Outcome) : ZMQWrapper :=
  match o with Continues w | Escapes w => w end.

Definition count_decompression_failure (w : ZMQWrapper) : ZMQWrapper :=
  let s := compression_stats_ w in
  set_stats
    (mkStats (messages_compressed s) (messages_decompressed s)
             (total_bytes_before s) (total_bytes_after s)
             (compression_failures s) (u64 (decompression_failures s + 1))
             (average_compression_time s) (average_decompression_time s)) w.

Definition worker_error (what : string) (w : ZMQWrapper) : Outcome :=
  Continues (emit (SleepFor 100) (handleError ("Error in worker thread: " +:+ what) w)).

Definition deliver (msg : Message) (w : ZMQWrapper) : Outcome :=
  let w' := handleMessage msg w in
  Continues (set_messages_received (u64 (messages_received_ w' + 1)) w').

(** The heartbeat part of one turn of the loop. *)
Definition heartbeat_if_due (env : WorkerEnv) (w : ZMQWrapper) : ZMQWrapper :=
  if milliseconds DEFAULT_HEARTBEAT_INTERVAL <=? now env - last_heartbeat_ w then
    let heartbeat :=
      mkMessage (mkHeader HEARTBEAT 0 (u32 (messages_received_ w))
                          (to_microseconds (now env)) NONE) [] in
    let '(ok, w') := sendMessage (heartbeat_env env) heartbeat w in
    if ok then set_last_heartbeat (now env) w' else w'
  else w.

(** What the loop does with a header and payload it received. *)
Definition process (env : WorkerEnv) (hdr : MessageHeader) (payload_msg : list byte)
    (w : ZMQWrapper) : Outcome :=
  if decide (compression hdr ≠ NONE) then
    let '(decompressed_size, decompressed_data) :=
      decompressData payload_msg (Z.of_nat (length payload_msg))
                     (vector_of_size (size hdr)) (size hdr) w in
    if 0 <? decompressed_size then
      if resize_throws decompressed_size then Escapes w
      else
        let decompression_time :=
          to_microseconds (decompress_end env - decompress_start env) in
        let new_payload := vector_resize decompressed_size decompressed_data in
        let msg := mkMessage (set_compression NONE hdr) new_payload in
        deliver msg
          (updateCompressionStats (Z.of_nat (length new_payload))
                                  (Z.of_nat (length payload_msg))
                                  decompression_time w)
    else
      Continues (count_decompression_failure
                   (handleError "Failed to decompress message" w))
  else deliver (mkMessage hdr payload_msg) w.

(** The receive part of one turn. *)
Definition receive (env : WorkerEnv) (w : ZMQWrapper) : Outcome :=
  let w2 := emit (SocketRecv true) w in
  match recv_header env with
  | RecvThrows what => worker_error what w2
  | Nothing => Continues (emit (SleepFor 10) w2)
  | Got hdr =>
      let w3 := emit (SocketRecv false) w2 in
      match recv_payload env with
      | RecvThrows what => worker_error what w3
      | Nothing => Continues (handleError "Failed to receive message payload" w3)
      | Got payload_msg => process env hdr payload_msg w3
      end
  end.

(** One turn of the [while] loop of [workerThread]. *)
Definition worker_turn (env : WorkerEnv) (w : ZMQWrapper) : Outcome :=
  receive env (heartbeat_if_due env w).

(** The loop over the turns the environment provides; it ends when
    [should_stop_] is read true, or with an escaping exception. *)
Fixpoint workerThread (envs : list WorkerEnv) (w : ZMQWrapper) : Outcome :=
  match envs with
  | [] => Continues w
  | env :: envs' =>
      if should_stop env then Continues w
      else match worker_turn env w with
           | Continues w' => workerThread envs' w'
           | Escapes w' => Escapes w'
           end
  end.

(** [stop()], after the worker has been joined: the socket is closed
    ([cleanup_error] is what the unbind/disconnect raised, if anything). *)
Definition stop (cleanup_error : option string) (w : ZMQWrapper) : ZMQWrapper :=
  let w' := match cleanup_error with
            | Some what => handleError ("Error during socket cleanup: " +:+ what) w
            | None => w
            end in
  set_connection false DISCONNECTED w'.

End WithCodecs.

(** [isConnected()] and [getCompressionStats()] ([toData()] copies the
    fields one by one). *)
Definition isConnected (w : ZMQWrapper) : bool := connected_ w.

Definition getCompressionStats (w : ZMQWrapper) : CompressionStats :=
  let s := compression_stats_ w in
  mkStats (messages_compressed s) (messages_decompressed s)
          (total_bytes_before s) (total_bytes_after s)
          (compression_failures s) (decompression_failures s)
          (average_compression_time s) (average_decompression_time s).

(** The fields of the statistics that neither [updateCompressionStats]
    nor the worker's failure branch assigns. *)
Definition unwritten (s : CompressionStats) : Z * Z * Z :=
  (messages_decompressed s, compression_failures s, average_decompression_time s).

(** *** Thread and socket ownership

    [start()], [stop()] and the destructor also act on the worker thread
    object and on the socket object.  The members they test are added to
    the state here; the turns of a running worker are [workerThread]. *)

Module Lifecycle.

Record Endpoint : Type := mkEndpoint {
  transport : ZMQWrapper;
  worker_thread_joinable : bool;     (* [worker_thread_.joinable()] *)
  should_stop_ : bool;
  socket_ : bool                     (* the [unique_ptr] holds a socket *)
}.

(** How the [try] block of the constructor ends: at its end, in the
    constructor of the socket, or in a call on the socket it has made. *)
Inductive Opening : Set :=
  | Opened
  | NoSocket (what : string)
  | SocketFails (what : string).

Definition construct (r : Role) (now : Z) (o : Opening) : Endpoint :=
  match o with
  | Opened => mkEndpoint (Zmq.construct r now None) false false true
  | NoSocket what => mkEndpoint (Zmq.construct r now (Some what)) false false false
  | SocketFails what => mkEndpoint (Zmq.construct r now (Some what)) false false true
  end.

Definition start (e : Endpoint) : bool * Endpoint :=
  if worker_thread_joinable e then (false, e)
  else (true, mkEndpoint (transport e) true false (socket_ e)).

(** [stop()]: the flag is raised, the worker joined if there is one, and
    the socket, if there is one, cleaned up and released
    ([cleanup_error] is what the unbind or disconnect raises then). *)
Definition stop (cleanup_error : option string) (e : Endpoint) : Endpoint :=
  let w := if socket_ e then Zmq.stop cleanup_error (transport e)
           else Zmq.stop None (transport e) in
  mkEndpoint w false true false.

(** The destructor is a call of [stop()]. *)
Definition destructor (cleanup_error : option string) (e : Endpoint) : Endpoint :=
  stop cleanup_error e.

End Lifecycle.

End Zmq.

(** ** The server ([gpu_server.hpp], [gpu_server.cpp]) *)

Module Server.
Import Zmq.

(** The members the defined functions touch: the transport and the
    running flag. *)
Record GPUServer : Type := mkServer {
  zmq_ : Lifecycle.Endpoint;
  running_ : bool
}.

(** The constructor makes a [SERVER] transport and starts its worker. *)
Definition construct (now : Z) (o : Lifecycle.Opening) : GPUServer :=
  mkServer (Lifecycle.start (Lifecycle.construct SERVER now o)).2 false.

Definition start (s : GPUServer) : GPUServer := mkServer (zmq_ s) true.
Definition stop (s : GPUServer) : GPUServer := mkServer (zmq_ s) false.

(** The calls a user of the server can make on it. *)
Inductive Method : Set := Start | Stop.

Definition invoke (s : GPUServer) (m : Method) : GPUServer :=
  match m with Start => start s | Stop => stop s end.

End Server.

(** ** Call proxy ([vulkan_icd.hpp], [vulkan_icd.cpp]) *)

Module Vulkan.
Import Int Protocol.
Import Zmq(ZMQWrapper, Codecs, SendEnv, milliseconds).

(** The [VkResult] values the call proxy produces or tests
    (0, 1, 2 and -3 in [vulkan_core.h]). *)
Inductive VkResult : Set :=
  | VK_SUCCESS | VK_NOT_READY | VK_TIMEOUT | VK_ERROR_INITIALIZATION_FAILED.

Global Instance VkResult_eq_dec : EqDecision VkResult.
Proof. solve_decision. Defined.

(** Handles are pointers: 64-bit values. *)
Record InstanceInfo : Set := mkInstanceInfo {
  instance : Z;
  physical_devices : list Z
}.
Record DeviceInfo : Set := mkDeviceInfo {
  device : Z;
  physical_device : Z;
  queues : list Z
}.
Record SwapchainInfo : Set := mkSwapchainInfo {
  swapchain : Z;
  swapchain_device : Z;
  images : list Z
}.
Record CommandPoolInfo : Set := mkCommandPoolInfo {
  command_pool : Z;
  command_pool_device : Z
}.
Record CommandBufferInfo : Set := mkCommandBufferInfo {
  command_buffer : Z;
  command_buffer_pool : Z;
  command_buffer_device : Z
}.

Record VulkanICD : Type := mkICD {
  network_ : ZMQWrapper;
  instances_ : gmap Z InstanceInfo;
  devices_ : gmap Z DeviceInfo;
  swapchains_ : gmap Z SwapchainInfo;
  command_pools_ : gmap Z CommandPoolInfo;
  command_buffers_ : gmap Z CommandBufferInfo
}.

(** *** Waiting for the reply *)

Record ErrorInfo : Set := mkErrorInfo {
  code : Z;
  message : list byte
}.

Definition byte_of_Z (z : Z) : byte :=
  default x00 (Byte.of_N (Z.to_N (z mod 256))).

(** The object representation of an [n]-byte little-endian integer. *)
Fixpoint le_bytes (n : nat) (v : Z) : list byte :=
  match n with
  | O => []
  | S n' => byte_of_Z v :: le_bytes n' (v / 256)
  end.

Fixpoint le_value (bs : list byte) : Z :=
  match bs with
  | [] => 0
  | b :: bs' => Z.of_N (Byte.to_N b) + 256 * le_value bs'
  end.

(** [handleError] decodes the payload into a local [ErrorInfo] and
    returns; [handleResponse] calls it for an [ERROR] message and does
    nothing otherwise.  Neither writes a member of the object: they are
    modelled by the value decoded.  On a payload shorter than the four
    bytes of the code the copy reads past the payload, and the length
    given to the [std::string], [size() - 4] in [size_t], wraps around
    and raises [std::length_error]: nothing is decoded. *)
Definition handleError (m : Message) : option ErrorInfo :=
  if decide (4 <= length (payload m))%nat
  then Some (mkErrorInfo (le_value (take 4 (payload m))) (drop 4 (payload m)))
  else None.

Inductive Handled : Set :=
  | Ignored                   (* not an [ERROR] message *)
  | Decoded (e : ErrorInfo)
  | OutOfRange.               (* [handleError] did not come back *)

Definition handleResponse (m : Message) : Handled :=
  match type (header m) with
  | ERROR => match handleError m with
             | Some e => Decoded e
             | None => OutOfRange
             end
  | _ => Ignored
  end.

(** What happens around one [waitForResponse]: the clock when it starts,
    how much longer than asked each [sleep_for] lasts, and the messages
    the transport's worker thread hands to the message callback (which
    the constructor set to [handleResponse]) during each sleep. *)
Record WaitEnv : Type := mkWaitEnv {
  wait_start : Z;
  oversleep : nat -> N;
  responses : nat -> list Message
}.

Definition timeout : Z := milliseconds 5000.

Definition during_sleep (env : WaitEnv) (i : nat) (net : ZMQWrapper) : ZMQWrapper :=
  foldl (fun n m => Zmq.handleMessage m n) net (responses env i).

(** The [while] loop of [waitForResponse], from its [i]-th test of the
    clock, which reads [t].  Returns the result, the clock at return and
    the transport. *)
Equations? wait_loop (env : WaitEnv) (start t : Z) (i : nat) (net : ZMQWrapper)
  : VkResult * Z * ZMQWrapper by wf (Z.to_nat (start + timeout - t)) lt :=
  wait_loop env start t i net with decide (t - start < timeout) := {
    | left _ =>
        wait_loop env start (t + milliseconds 1 + Z.of_N (oversleep env i)) (S i)
                  (during_sleep env i net);
    | right _ => (VK_TIMEOUT, t, net) }.
Proof. unfold milliseconds. lia. Qed.

Definition waitForResponse (env : WaitEnv) (sequence : Z) (net : ZMQWrapper)
  : VkResult * Z * ZMQWrapper :=
  wait_loop env (wait_start env) (wait_start env) 0 net.

Record CommandEnv : Type := mkCommandEnv {
  send_env : SendEnv;
  wait_env : WaitEnv
}.

Definition sendCommand (lib : Codecs) (env : CommandEnv) (message : Message)
    (net : ZMQWrapper) : VkResult * ZMQWrapper :=
  let '(ok, net1) := Zmq.sendMessage lib (send_env env) message net in
  if negb ok then (VK_ERROR_INITIALIZATION_FAILED, net1)
  else
    let '(result, _, net2) := waitForResponse (wait_env env) (sequence (header message)) net1 in
    (result, net2).

(** *** The operations

    Each operation is written over the function it calls to exchange the
    command, so that both outcomes of its [result == VK_SUCCESS] test can
    be exercised; [sendCommand lib env] is the one the source calls. *)

Definition CallProxy : Type := Message -> ZMQWrapper -> VkResult * ZMQWrapper.

(** A pointer argument through which the operation only reads: its value
    and what is stored behind it. *)
Record Pointer : Set := mkPointer {
  address : Z;
  pointee : Z
}.

(** LP64 sizes of the Vulkan structures copied into payloads. *)
Definition sizeof_VkInstanceCreateInfo : Z := 64.
Definition sizeof_VkDeviceCreateInfo : Z := 72.
Definition sizeof_handle : Z := 8.

(** The first [n] bytes of an object representation. *)
Definition object_bytes (n : Z) (representation : list byte) : list byte :=
  Zmq.vector_resize n representation.

(** A [Message message;] with [type], [size], [sequence] and payload
    assigned; [timestamp] is left unset by the source (taken as 0) and
    [compression] has its default. *)
Definition command (t : MessageType) (sz seq : Z) (bytes : list byte) : Message :=
  mkMessage (mkHeader t (u32 sz) (u32 seq) 0 NONE) bytes.

Definition set_network (net : ZMQWrapper) (icd : VulkanICD) : VulkanICD :=
  mkICD net (instances_ icd) (devices_ icd) (swapchains_ icd)
        (command_pools_ icd) (command_buffers_ icd).

Definition set_instances (m : gmap Z InstanceInfo) (icd : VulkanICD) : VulkanICD :=
  mkICD (network_ icd) m (devices_ icd) (swapchains_ icd)
        (command_pools_ icd) (command_buffers_ icd).

Definition set_devices (m : gmap Z DeviceInfo) (icd : VulkanICD) : VulkanICD :=
  mkICD (network_ icd) (instances_ icd) m (swapchains_ icd)
        (command_pools_ icd) (command_buffers_ icd).

Section Operations.

Context (send : CallProxy).

Definition vkCreateInstance (pCreateInfo : list byte) (pInstance : Pointer)
    (icd : VulkanICD) : VkResult * VulkanICD :=
  let message :=
    command VK_CREATE_INSTANCE sizeof_VkInstanceCreateInfo (address pInstance)
            (object_bytes sizeof_VkInstanceCreateInfo pCreateInfo) in
  let '(result, net) := send message (network_ icd) in
  let icd1 := set_network net icd in
  if decide (result = VK_SUCCESS) then
    let info := mkInstanceInfo (pointee pInstance) [] in
    (result, set_instances (<[pointee pInstance := info]> (instances_ icd1)) icd1)
  else (result, icd1).

Definition vkDestroyInstance (instance : Z) (icd : VulkanICD) : VulkanICD :=
  let message :=
    command VK_DESTROY_INSTANCE sizeof_handle instance (le_bytes 8 instance) in
  let '(_, net) := send message (network_ icd) in
  let icd1 := set_network net icd in
  set_instances (delete instance (instances_ icd1)) icd1.

Definition vkCreateDevice (physicalDevice : Z) (pCreateInfo : list byte)
    (pDevice : Pointer) (icd : VulkanICD) : VkResult * VulkanICD :=
  let params :=
    le_bytes 8 physicalDevice ++ object_bytes sizeof_VkDeviceCreateInfo pCreateInfo in
  let message :=
    command VK_CREATE_DEVICE (sizeof_handle + sizeof_VkDeviceCreateInfo)
            (address pDevice) params in
  let '(result, net) := send message (network_ icd) in
  let icd1 := set_network net icd in
  if decide (result = VK_SUCCESS) then
    let info := mkDeviceInfo (pointee pDevice) physicalDevice [] in
    (result, set_devices (<[pointee pDevice := info]> (devices_ icd1)) icd1)
  else (result, icd1).

Definition vkDestroyDevice (device : Z) (icd : VulkanICD) : VulkanICD :=
  let message :=
    command VK_DESTROY_DEVICE sizeof_handle device (le_bytes 8 device) in
  let '(_, net) := send message (network_ icd) in
  let icd1 := set_network net icd in
  set_devices (delete device (devices_ icd1)) icd1.

(** Storage of the [std::vector] payloads that matter to the caller:
    the live buffers, by address. *)
Definition allocate (bytes : list byte) (heap : gmap Z (list byte))
  : Z * gmap Z (list byte) :=
  let data := fresh (dom heap) in (data, <[data := bytes]> heap).

Definition release (data : Z) (heap : gmap Z (list byte)) : gmap Z (list byte) :=
  delete data heap.

(** [struct MemoryMapParams]: four 8-byte members, a 4-byte one, padding. *)
Definition sizeof_MemoryMapParams : Z := 40.

Definition MemoryMapParams (device memory offset size flags : Z) : list byte :=
  le_bytes 8 device ++ le_bytes 8 memory ++ le_bytes 8 offset ++ le_bytes 8 size
  ++ le_bytes 4 flags ++ replicate 4 x00.

(** [ppData] is given by the value stored in [*ppData] on entry; the
    result carries the value stored there on return.  The local
    [message] owns its payload buffer from the [resize] to the end of the
    function body, where its destructor releases it. *)
Definition vkMapMemory (device memory offset size flags : Z) (ppData : Z)
    (heap : gmap Z (list byte)) (icd : VulkanICD)
  : VkResult * Z * gmap Z (list byte) * VulkanICD :=
  let params := MemoryMapParams device memory offset size flags in
  let '(payload_data, heap1) := allocate params heap in
  let message := command VK_MAP_MEMORY sizeof_MemoryMapParams memory params in
  let '(result, net) := send message (network_ icd) in
  let icd1 := set_network net icd in
  let ppData' := if decide (result = VK_SUCCESS) then payload_data else ppData in
  (result, ppData', release payload_data heap1, icd1).

End Operations.

(** *** The other tracked categories *)

Definition set_swapchains (m : gmap Z SwapchainInfo) (icd : VulkanICD) : VulkanICD :=
  mkICD (network_ icd) (instances_ icd) (devices_ icd) m
        (command_pools_ icd) (command_buffers_ icd).

Definition set_command_pools (m : gmap Z CommandPoolInfo) (icd : VulkanICD) : VulkanICD :=
  mkICD (network_ icd) (instances_ icd) (devices_ icd) (swapchains_ icd)
        m (command_buffers_ icd).

Definition set_command_buffers (m : gmap Z CommandBufferInfo) (icd : VulkanICD)
  : VulkanICD :=
  mkICD (network_ icd) (instances_ icd) (devices_ icd) (swapchains_ icd)
        (command_pools_ icd) m.

(** The object as the constructor leaves it, around a connected
    transport: every map empty. *)
Definition construct (net : ZMQWrapper) : VulkanICD := mkICD net ∅ ∅ ∅ ∅ ∅.

Definition cleanupResources (icd : VulkanICD) : VulkanICD :=
  mkICD (network_ icd) ∅ ∅ ∅ ∅ ∅.

Definition sizeof_VkSwapchainCreateInfoKHR : Z := 104.
Definition sizeof_VkCommandPoolCreateInfo : Z := 24.
Definition sizeof_VkCommandBufferAllocateInfo : Z := 32.
Definition sizeof_AcquireParams : Z := 40.
Definition sizeof_CommandBufferFreeParams : Z := 48.

(** The little-endian integer stored in [len] bytes at [offset] of an
    object representation. *)
Definition member (offset len : nat) (representation : list byte) : Z :=
  le_value (take len (drop offset representation)).

(** [pAllocateInfo->commandPool] and [pAllocateInfo->commandBufferCount]. *)
Definition commandPool_of (pAllocateInfo : list byte) : Z :=
  member 16 8 (object_bytes sizeof_VkCommandBufferAllocateInfo pAllocateInfo).

Definition commandBufferCount_of (pAllocateInfo : list byte) : Z :=
  member 28 4 (object_bytes sizeof_VkCommandBufferAllocateInfo pAllocateInfo).

(** [struct AcquireParams]: five 8-byte members. *)
Definition AcquireParams (device swapchain timeout semaphore fence : Z) : list byte :=
  le_bytes 8 device ++ le_bytes 8 swapchain ++ le_bytes 8 timeout
  ++ le_bytes 8 semaphore ++ le_bytes 8 fence.

(** An array argument: its address and the handle stored at each index. *)
Record Array : Type := mkArray {
  base : Z;
  element : nat -> Z
}.

(** The two loops over [pCommandBuffers[i]], [i] below the count. *)
Definition enter_command_buffers (device commandPool : Z) (pCommandBuffers : Array)
    (count : Z) (m : gmap Z CommandBufferInfo) : gmap Z CommandBufferInfo :=
  foldl (fun m i =>
           let h := element pCommandBuffers i in
           <[h := mkCommandBufferInfo h commandPool device]> m)
        m (seq 0 (Z.to_nat count)).

Definition erase_command_buffers (pCommandBuffers : Array) (count : Z)
    (m : gmap Z CommandBufferInfo) : gmap Z CommandBufferInfo :=
  foldl (fun m i => delete (element pCommandBuffers i) m) m (seq 0 (Z.to_nat count)).

(** What [vkEnumeratePhysicalDevices] stores through its two pointers. *)
Inductive Enumerated : Set :=
  | NothingWritten
  | CountWritten (n : Z)                 (* [*pPhysicalDeviceCount] *)
  | DevicesWritten (devices : list Z)    (* the first elements of [pPhysicalDevices] *)
  | ReadsPastTheEnd.                     (* the [memcpy] asks for more elements
                                            than the vector holds *)

(** Enumerators that [vulkan_icd.cpp] uses and [protocol.hpp] does not
    declare: the operations are written for whatever values they stand
    for. *)
Record Undeclared : Set := mkUndeclared {
  VK_ENUMERATE_PHYSICAL_DEVICES : MessageType;
  VK_DESTROY_SWAPCHAIN : MessageType;
  VK_DESTROY_COMMAND_POOL : MessageType;
  VK_ALLOCATE_COMMAND_BUFFERS : MessageType;
  VK_FREE_COMMAND_BUFFERS : MessageType
}.

(** No entry of the instance map lists a physical device. *)
Definition bare (icd : VulkanICD) : Prop :=
  forall k info, instances_ icd !! k = Some info -> physical_devices info = [].

Section Tracked.

Context (names : Undeclared) (send : CallProxy).

(** [count] is the value of [*pPhysicalDeviceCount] on entry and
    [array_given] tells whether [pPhysicalDevices] is non-null. *)
Definition vkEnumeratePhysicalDevices (instance : Z) (count : Z) (array_given : bool)
    (icd : VulkanICD) : VkResult * Enumerated * VulkanICD :=
  let message :=
    command (VK_ENUMERATE_PHYSICAL_DEVICES names) sizeof_handle instance
            (le_bytes 8 instance) in
  let '(result, net) := send message (network_ icd) in
  let icd1 := set_network net icd in
  let written :=
    if decide (result = VK_SUCCESS) then
      match instances_ icd1 !! instance with
      | Some info =>
          if array_given then
            if decide (count <= Z.of_nat (length (physical_devices info)))
            then DevicesWritten (take (Z.to_nat count) (physical_devices info))
            else ReadsPastTheEnd
          else CountWritten (u32 (Z.of_nat (length (physical_devices info))))
      | None => NothingWritten
      end
    else NothingWritten in
  (result, written, icd1).

Definition vkCreateSwapchainKHR (device : Z) (pCreateInfo : list byte)
    (pSwapchain : Pointer) (icd : VulkanICD) : VkResult * VulkanICD :=
  let params :=
    le_bytes 8 device ++ object_bytes sizeof_VkSwapchainCreateInfoKHR pCreateInfo in
  let message :=
    command VK_CREATE_SWAPCHAIN (sizeof_handle + sizeof_VkSwapchainCreateInfoKHR)
            (address pSwapchain) params in
  let '(result, net) := send message (network_ icd) in
  let icd1 := set_network net icd in
  if decide (result = VK_SUCCESS) then
    let info := mkSwapchainInfo (pointee pSwapchain) device [] in
    (result, set_swapchains (<[pointee pSwapchain := info]> (swapchains_ icd1)) icd1)
  else (result, icd1).

Definition vkDestroySwapchainKHR (device swapchain : Z) (icd : VulkanICD) : VulkanICD :=
  let message :=
    command (VK_DESTROY_SWAPCHAIN names) sizeof_handle swapchain
            (le_bytes 8 swapchain) in
  let '(_, net) := send message (network_ icd) in
  let icd1 := set_network net icd in
  set_swapchains (delete swapchain (swapchains_ icd1)) icd1.

(** [pImageIndex] is given by the value stored in [*pImageIndex] on
    entry; the result carries the value stored there on return. *)
Definition vkAcquireNextImageKHR (device swapchain timeout semaphore fence : Z)
    (pImageIndex : Z) (icd : VulkanICD) : VkResult * Z * VulkanICD :=
  let params := AcquireParams device swapchain timeout semaphore fence in
  let message := command VK_ACQUIRE_NEXT_IMAGE sizeof_AcquireParams swapchain params in
  let '(result, net) := send message (network_ icd) in
  let pImageIndex' :=
    if decide (result = VK_SUCCESS) then le_value (take 4 (payload message))
    else pImageIndex in
  (result, pImageIndex', set_network net icd).

Definition vkCreateCommandPool (device : Z) (pCreateInfo : list byte)
    (pCommandPool : Pointer) (icd : VulkanICD) : VkResult * VulkanICD :=
  let params :=
    le_bytes 8 device ++ object_bytes sizeof_VkCommandPoolCreateInfo pCreateInfo in
  let message :=
    command VK_CREATE_COMMAND_POOL (sizeof_handle + sizeof_VkCommandPoolCreateInfo)
            (address pCommandPool) params in
  let '(result, net) := send message (network_ icd) in
  let icd1 := set_network net icd in
  if decide (result = VK_SUCCESS) then
    let info := mkCommandPoolInfo (pointee pCommandPool) device in
    (result,
     set_command_pools (<[pointee pCommandPool := info]> (command_pools_ icd1)) icd1)
  else (result, icd1).

Definition vkDestroyCommandPool (device commandPool : Z) (icd : VulkanICD) : VulkanICD :=
  let message :=
    command (VK_DESTROY_COMMAND_POOL names) sizeof_handle commandPool
            (le_bytes 8 commandPool) in
  let '(_, net) := send message (network_ icd) in
  let icd1 := set_network net icd in
  set_command_pools (delete commandPool (command_pools_ icd1)) icd1.

Definition vkAllocateCommandBuffers (device : Z) (pAllocateInfo : list byte)
    (pCommandBuffers : Array) (icd : VulkanICD) : VkResult * VulkanICD :=
  let params :=
    le_bytes 8 device
    ++ object_bytes sizeof_VkCommandBufferAllocateInfo pAllocateInfo in
  let message :=
    command (VK_ALLOCATE_COMMAND_BUFFERS names)
            (sizeof_handle + sizeof_VkCommandBufferAllocateInfo)
            (base pCommandBuffers) params in
  let '(result, net) := send message (network_ icd) in
  let icd1 := set_network net icd in
  if decide (result = VK_SUCCESS) then
    (result,
     set_command_buffers
       (enter_command_buffers device (commandPool_of pAllocateInfo) pCommandBuffers
          (commandBufferCount_of pAllocateInfo) (command_buffers_ icd1)) icd1)
  else (result, icd1).

(** [params] is the object representation of the local
    [CommandBufferFreeParams]: the two handles, the count, and the three
    pointers of its [std::vector] member.  The payload is that, followed
    by zero bytes up to the announced size. *)
Definition vkFreeCommandBuffers (device commandPool commandBufferCount : Z)
    (pCommandBuffers : Array) (params : list byte) (icd : VulkanICD) : VulkanICD :=
  let announced :=
    u32 (sizeof_CommandBufferFreeParams + commandBufferCount * sizeof_handle) in
  let message :=
    command (VK_FREE_COMMAND_BUFFERS names) announced commandPool
            (Zmq.vector_resize announced
               (object_bytes sizeof_CommandBufferFreeParams params)) in
  let '(_, net) := send message (network_ icd) in
  let icd1 := set_network net icd in
  set_command_buffers
    (erase_command_buffers pCommandBuffers commandBufferCount (command_buffers_ icd1))
    icd1.

End Tracked.

(** *** Sequences of calls

    A call of one of the operations that write the registries, with the
    exchange it runs under; and what a sequence of them makes of the
    object. *)
Inductive Call : Type :=
  | CreateInstance (send : CallProxy) (pCreateInfo : list byte) (pInstance : Pointer)
  | DestroyInstance (send : CallProxy) (instance : Z)
  | CreateDevice (send : CallProxy) (physicalDevice : Z) (pCreateInfo : list byte)
                 (pDevice : Pointer)
  | DestroyDevice (send : CallProxy) (device : Z)
  | CreateSwapchain (send : CallProxy) (device : Z) (pCreateInfo : list byte)
                    (pSwapchain : Pointer)
  | DestroySwapchain (send : CallProxy) (device swapchain : Z)
  | CreateCommandPool (send : CallProxy) (device : Z) (pCreateInfo : list byte)
                      (pCommandPool : Pointer)
  | DestroyCommandPool (send : CallProxy) (device commandPool : Z)
  | AllocateCommandBuffers (send : CallProxy) (device : Z) (pAllocateInfo : list byte)
                           (pCommandBuffers : Array)
  | FreeCommandBuffers (send : CallProxy) (device commandPool commandBufferCount : Z)
                       (pCommandBuffers : Array) (params : list byte)
  | CleanupResources.

Definition call (names : Undeclared) (icd : VulkanICD) (c : Call) : VulkanICD :=
  match c with
  | CreateInstance send pCreateInfo pInstance =>
      (vkCreateInstance send pCreateInfo pInstance icd).2
  | DestroyInstance send instance => vkDestroyInstance send instance icd
  | CreateDevice send physicalDevice pCreateInfo pDevice =>
      (vkCreateDevice send physicalDevice pCreateInfo pDevice icd).2
  | DestroyDevice send device => vkDestroyDevice send device icd
  | CreateSwapchain send device pCreateInfo pSwapchain =>
      (vkCreateSwapchainKHR send device pCreateInfo pSwapchain icd).2
  | DestroySwapchain send device swapchain =>
      vkDestroySwapchainKHR names send device swapchain icd
  | CreateCommandPool send device pCreateInfo pCommandPool =>
      (vkCreateCommandPool send device pCreateInfo pCommandPool icd).2
  | DestroyCommandPool send device commandPool =>
      vkDestroyCommandPool names send device commandPool icd
  | AllocateCommandBuffers send device pAllocateInfo pCommandBuffers =>
      (vkAllocateCommandBuffers names send device pAllocateInfo pCommandBuffers icd).2
  | FreeCommandBuffers send device commandPool commandBufferCount pCommandBuffers params =>
      vkFreeCommandBuffers names send device commandPool commandBufferCount
                           pCommandBuffers params icd
  | CleanupResources => cleanupResources icd
  end.

Definition calls (names : Undeclared) (cs : list Call) (icd : VulkanICD) : VulkanICD :=
  foldl (call names) icd cs.

End Vulkan.

(** ** Stand-ins for the environment

    Concrete codecs, states and inputs at which the statements below are
    evaluated. *)

Module Sample.
Import Int Protocol Zmq.
Import Vulkan(le_bytes, le_value).

(** Run-length coding, in the role of both libraries: an encoded stream
    is a mark byte (one per library) followed by five bytes per run, the
    byte and its count.  The decoders reject any other stream. *)
Fixpoint runs (l : list byte) : list (byte * Z) :=
  match l with
  | [] => []
  | b :: l' =>
      match runs l' with
      | (b', n) :: rs => if Byte.eqb b b' then (b, n + 1) :: rs else (b, 1) :: (b', n) :: rs
      | [] => [(b, 1)]
      end
  end.

Definition encode (mark : byte) (l : list byte) : list byte :=
  mark :: flat_map (fun r : byte * Z => r.1 :: le_bytes 4 r.2) (runs l).

Fixpoint decode_runs (bs : list byte) : option (list byte) :=
  match bs with
  | [] => Some []
  | b :: n0 :: n1 :: n2 :: n3 :: rest =>
      match decode_runs rest with
      | Some l => Some (replicate (Z.to_nat (le_value [n0; n1; n2; n3])) b ++ l)
      | None => None
      end
  | _ => None
  end.

Definition decode (mark : byte) (bs : list byte) : option (list byte) :=
  match bs with
  | m :: body => if Byte.eqb m mark then decode_runs body else None
  | [] => None
  end.

Definition zlib_mark : byte := "x"%byte.
Definition lz4_mark : byte := x04.

Definition sample_deflate (level : Z) (input : list byte) (avail_out : Z) : ZStream :=
  let out := encode zlib_mark input in
  if Z.of_nat (length out) <=? avail_out then Ran true out
  else Ran false (take (Z.to_nat avail_out) out).

Definition sample_inflate (input : list byte) (avail_out : Z) : ZStream :=
  match decode zlib_mark input with
  | Some out =>
      if Z.of_nat (length out) <=? avail_out then Ran true out
      else Ran false (take (Z.to_nat avail_out) out)
  | None => Ran false []
  end.

Definition sample_LZ4_compress_fast (src : list byte) (srcSize dstCapacity acceleration : Z)
  : Z * list byte :=
  let out := encode lz4_mark (take (Z.to_nat srcSize) src) in
  if Z.of_nat (length out) <=? dstCapacity then (Z.of_nat (length out), out)
  else (0, []).

(** Like the library, a negative result for a stream that is malformed
    or does not fit. *)
Definition sample_LZ4_decompress_safe (src : list byte) (compressedSize dstCapacity : Z)
  : Z * list byte :=
  match decode lz4_mark (take (Z.to_nat compressedSize) src) with
  | Some out =>
      if Z.of_nat (length out) <=? dstCapacity then (Z.of_nat (length out), out)
      else (-1, [])
  | None => (-1, [])
  end.

Definition lib : Codecs :=
  mkCodecs sample_deflate sample_inflate sample_LZ4_compress_fast sample_LZ4_decompress_safe.

(** A client whose connect went through, with both callbacks registered,
    and the same with a codec setting. *)
Definition client : ZMQWrapper :=
  setErrorCallback (setMessageCallback (construct CLIENT 0 None)).

Definition with_compression (t : CompressionType) (adaptive : bool) (w : ZMQWrapper)
  : ZMQWrapper :=
  enableAdaptiveCompression adaptive (setCompressionType t w).

(** A call during which both socket sends go through. *)
Definition sends_ok (t : Z) : SendEnv := mkSendEnv t t (t + 1000) Sent Sent (t + 1000).

(** A frame of [n] zero bytes, its header filled in as the callers do. *)
Definition frame (n : Z) : Message :=
  mkMessage (mkHeader FRAME_DATA n 1 0 NONE) (replicate (Z.to_nat n) x00).

(** Five bytes, in a header whose [compression] the caller has set. *)
Definition hello_marked_zlib : Message :=
  mkMessage (mkHeader FRAME_DATA 5 1 0 ZLIB) ["H"; "e"; "l"; "l"; "o"]%byte.

(** Three sends on record: at 0 s, 0.5 s and 1.6 s of the steady clock. *)
Definition three_sends : list (Z * Z) :=
  [(0, 100); (500000000, 200); (1600000000, 300)].

(** A turn of the worker loop, at time [t], in which the socket raises an
    error; and six such turns, 100 ms apart. *)
Definition connection_lost (t : Z) : WorkerEnv :=
  mkWorkerEnv false t (sends_ok t) (RecvThrows "Connection reset by peer") Nothing t t.

Definition six_failing_turns : list WorkerEnv :=
  map (fun k => connection_lost (milliseconds (100 * k))) [0; 1; 2; 3; 4; 5].

(** A turn in which a message arrives whose header names codec [c] and
    announces 2000 bytes, with three bytes of payload that no decoder
    accepts. *)
Definition corrupt_arrival (c : CompressionType) : WorkerEnv :=
  mkWorkerEnv false 0 (sends_ok 0)
    (Got (mkHeader FRAME_DATA 2000 7 0 c)) (Got [x00; x01; x02]) 0 1000.

(** A request, the reply that carries its sequence id, and a wait during
    whose first sleep the worker thread delivers that reply. *)
Definition request : Message :=
  Vulkan.command VK_CREATE_INSTANCE Vulkan.sizeof_VkInstanceCreateInfo 4096
    (replicate 64 x00).

Definition reply : Message :=
  mkMessage (mkHeader VK_CREATE_INSTANCE 8 (sequence (header request)) 0 NONE)
            (le_bytes 8 48879).

Definition reply_in_first_sleep : Vulkan.CommandEnv :=
  Vulkan.mkCommandEnv (sends_ok 0)
    (Vulkan.mkWaitEnv 1000
       (fun _ => 0%N)
       (fun i => match i with O => [reply] | S _ => [] end)).

(** An exchange that reports success, as the tests of the call proxy
    expect of the server. *)
Definition reports_success : Vulkan.CallProxy := fun _ net => (Vulkan.VK_SUCCESS, net).

Definition icd : Vulkan.VulkanICD := Vulkan.mkICD client ∅ ∅ ∅ ∅ ∅.

(** Five bytes under a header that leaves [compression] at [NONE]. *)
Definition hello : Message :=
  mkMessage (mkHeader FRAME_DATA 5 1 0 NONE) ["H"; "e"; "l"; "l"; "o"]%byte.

(** The frame of 2000 zero bytes as the stand-in codecs write it. *)
Definition frame_deflated : list byte := encode zlib_mark (payload (frame 2000)).
Definition frame_lz4 : list byte := encode lz4_mark (payload (frame 2000)).

(** A turn in which the given header and payload arrive, no heartbeat
    being due. *)
Definition arrival (hdr : MessageHeader) (bytes : list byte) : WorkerEnv :=
  mkWorkerEnv false 0 (sends_ok 0) (Got hdr) (Got bytes) 0 1000.

(** Three turns: the five bytes arrive, nothing arrives, the compressed
    frame arrives. *)
Definition three_turns : list WorkerEnv :=
  [arrival (header hello) (payload hello);
   mkWorkerEnv false 0 (sends_ok 0) Nothing Nothing 0 0;
   arrival (set_compression ZLIB (header (frame 2000))) frame_deflated].

End Sample.

(** ** The specification's wording *)

Module Spec.
Import Zmq.

(** The byte counts recorded for the sends whose timestamp lies within
    the trailing one-second window, added up. *)
Definition windowed_byte_total (now : Z) (samples : list (Z * Z)) : Z :=
  foldr (fun (s : Z * Z) total => s.2 + total) 0
        (filter (fun s : Z * Z => now - seconds 1 <= s.1) samples).

(** Whether a text occurs in another. *)
Definition contains (needle text : string) : bool :=
  bool_decide (is_Some (String.index 0 needle text)).

End Spec.

(** * Properties *)

(** ** Conversions to [double] *)

Module IntFacts.
Import Int.

Lemma to_double_exact n : n < 2 ^ 53 -> to_double n = n.
Proof.
  intros H. unfold to_double.
  destruct (Z.ltb_spec n (2 ^ 53)); [done | lia].
Qed.

(** Above [2 ^ 53] the value keeps 53 bits: with [k] the weight of the
    last kept bit and [q] the kept bits, the result is [q] or [q + 1]
    times [2 ^ k]. *)
Lemma to_double_shape n :
  2 ^ 53 <= n ->
  let k := Z.log2 n - 52 in
  let q := n / 2 ^ k in
  1 <= k /\ 2 ^ 52 <= q < 2 ^ 53 /\ 0 <= n mod 2 ^ k < 2 ^ k /\
  n = q * 2 ^ k + n mod 2 ^ k /\
  exists q', q <= q' <= q + 1 /\ to_double n = q' * 2 ^ k /\
    (n mod 2 ^ k < 2 ^ (k - 1) -> q' = q) /\
    (2 ^ (k - 1) < n mod 2 ^ k -> q' = q + 1) /\
    (n mod 2 ^ k = 0 -> q' = q).
Proof.
  intros Hn k q.
  assert (Hpos : 0 < n) by lia.
  pose proof (Z.log2_spec n Hpos) as [Hlo Hhi].
  assert (Hlog : 53 <= Z.log2 n).
  { apply Z.log2_le_pow2; lia. }
  assert (Hk : 1 <= k) by (unfold k; lia).
  assert (Hpk : 0 < 2 ^ k) by (apply Z.pow_pos_nonneg; lia).
  assert (Hsplit : 2 ^ Z.log2 n = 2 ^ 52 * 2 ^ k).
  { rewrite <- Z.pow_add_r by lia. f_equal. unfold k. lia. }
  assert (Hsplit' : 2 ^ Z.succ (Z.log2 n) = 2 ^ 53 * 2 ^ k).
  { rewrite <- Z.pow_add_r by lia. f_equal. unfold k. lia. }
  assert (Hq : 2 ^ 52 <= q < 2 ^ 53).
  { unfold q. split.
    - apply Z.div_le_lower_bound; lia.
    - apply Z.div_lt_upper_bound; lia. }
  pose proof (Z.mod_pos_bound n (2 ^ k) Hpk) as Hr.
  pose proof (Z.div_mod n (2 ^ k) ltac:(lia)) as Hdm.
  assert (Hhalf : 0 < 2 ^ (k - 1)) by (apply Z.pow_pos_nonneg; lia).
  repeat split; try lia.
  unfold to_double. destruct (Z.ltb_spec n (2 ^ 53)); [lia |].
  fold k. fold q.
  destruct (Z.ltb_spec (n mod 2 ^ k) (2 ^ (k - 1))).
  { exists q. repeat split; try lia. }
  destruct (Z.ltb_spec (2 ^ (k - 1)) (n mod 2 ^ k)).
  { exists (q + 1). repeat split; try lia. }
  destruct (Z.even q).
  - exists q. repeat split; try lia.
  - exists (q + 1). repeat split; try lia.
Qed.

Lemma to_double_mono a b : 0 <= a <= b -> to_double a <= to_double b.
Proof.
  intros [Ha Hab].
  destruct (Z.lt_ge_cases b (2 ^ 53)) as [Hb | Hb].
  { rewrite !to_double_exact by lia. done. }
  destruct (to_double_shape b Hb) as (Hkb & Hqb & Hrb & Heb & qb' & Hqb' & Hdb & Hb1 & Hb2 & _).
  remember (Z.log2 b - 52) as kb eqn:Ekb. remember (b / 2 ^ kb) as qb eqn:Eqb.
  assert (Hpkb : 0 < 2 ^ kb) by (apply Z.pow_pos_nonneg; lia).
  destruct (Z.lt_ge_cases a (2 ^ 53)) as [Ha53 | Ha53].
  { rewrite (to_double_exact a) by lia. rewrite Hdb.
    assert (2 ^ 53 <= 2 ^ 52 * 2 ^ kb).
    { change (2 ^ 53) with (2 ^ 52 * 2 ^ 1).
      apply Z.mul_le_mono_nonneg_l; [lia |]. apply Z.pow_le_mono_r; lia. }
    nia. }
  destruct (to_double_shape a Ha53) as (Hka & Hqa & Hra & Hea & qa' & Hqa' & Hda & Ha1 & Ha2 & _).
  remember (Z.log2 a - 52) as ka eqn:Eka. remember (a / 2 ^ ka) as qa eqn:Eqa.
  assert (Hpka : 0 < 2 ^ ka) by (apply Z.pow_pos_nonneg; lia).
  assert (Hk : ka <= kb).
  { pose proof (Z.log2_le_mono a b Hab). lia. }
  rewrite Hda, Hdb.
  destruct (Z.eq_dec ka kb) as [Heq | Hne].
  - rewrite Heq in *. clear Heq.
    assert (Hq : qa <= qb) by (subst qa qb; apply Z.div_le_mono; lia).
    destruct (Z.eq_dec qa qb) as [Hqeq | Hqne]; [| nia].
    assert (Hr : a mod 2 ^ kb <= b mod 2 ^ kb) by nia.
    assert (qa' <= qb'); [| nia].
    destruct (Z.lt_trichotomy (a mod 2 ^ kb) (2 ^ (kb - 1))) as [Hlt | [Heq | Hgt]].
    + rewrite (Ha1 Hlt). lia.
    + destruct (Z.eq_dec (b mod 2 ^ kb) (2 ^ (kb - 1))) as [Hbe | Hbn].
      * assert (a = b) by lia. subst b.
        assert (qa' * 2 ^ kb = qb' * 2 ^ kb) by congruence. nia.
      * rewrite (Hb2 ltac:(lia)). lia.
    + rewrite (Hb2 ltac:(lia)). lia.
  - assert (Hstep : 2 ^ 53 * 2 ^ ka <= 2 ^ 52 * 2 ^ kb).
    { rewrite <- !Z.pow_add_r by lia. apply Z.pow_le_mono_r; lia. }
    assert (qa' * 2 ^ ka <= 2 ^ 53 * 2 ^ ka) by (apply Z.mul_le_mono_nonneg_r; lia).
    assert (2 ^ 52 * 2 ^ kb <= qb' * 2 ^ kb) by (apply Z.mul_le_mono_nonneg_r; lia).
    lia.
Qed.

(** A value already converted converts to itself. *)
Lemma to_double_idem n : 0 <= n -> to_double (to_double n) = to_double n.
Proof.
  intros Hn.
  destruct (Z.lt_ge_cases n (2 ^ 53)) as [H | H].
  { rewrite !(to_double_exact n) by lia. done. }
  destruct (to_double_shape n H) as (Hk & Hq & Hr & He & q' & Hq' & Hd & _).
  remember (Z.log2 n - 52) as k eqn:Ek. remember (n / 2 ^ k) as q eqn:Eq.
  assert (Hpk : 0 < 2 ^ k) by (apply Z.pow_pos_nonneg; lia).
  rewrite Hd.
  assert (Hbig : 2 ^ 53 <= q' * 2 ^ k).
  { assert (2 ^ 1 <= 2 ^ k) by (apply Z.pow_le_mono_r; lia).
    change (2 ^ 53) with (2 ^ 52 * 2 ^ 1). nia. }
  destruct (to_double_shape _ Hbig) as (Hk2 & Hq2 & Hr2 & He2 & q2 & Hq2' & Hd2 & _ & _ & Hz).
  rewrite Hd2.
  remember (Z.log2 (q' * 2 ^ k) - 52) as k2 eqn:Ek2.
  assert (Hk2' : k2 = k \/ k2 = k + 1).
  { destruct (Z.eq_dec q' (2 ^ 53)) as [Htop | Hnt].
    - right. rewrite Ek2, Htop, <- Z.pow_add_r by lia.
      rewrite Z.log2_pow2 by lia. lia.
    - left. rewrite Ek2.
      rewrite (Z.log2_unique (q' * 2 ^ k) (52 + k)); [lia | lia |].
      rewrite Z.pow_succ_r, !Z.pow_add_r by lia. nia. }
  assert (Hmod : (q' * 2 ^ k) mod 2 ^ k2 = 0).
  { destruct Hk2' as [-> | ->].
    - apply Z_mod_mult.
    - assert (q' = 2 ^ 53).
      { destruct (Z.eq_dec q' (2 ^ 53)) as [|Hnt]; [done |].
        exfalso.
        rewrite (Z.log2_unique (q' * 2 ^ k) (52 + k)) in Ek2; [lia | lia |].
        rewrite Z.pow_succ_r, !Z.pow_add_r by lia. nia. }
      subst q'. rewrite <- Z.pow_add_r by lia.
      replace (53 + k) with (52 + (k + 1)) by lia.
      rewrite Z.pow_add_r by lia. apply Z_mod_mult. }
  rewrite (Hz Hmod). rewrite He2 at 2. lia.
Qed.

Lemma u64_range n : 0 <= u64 n < 2 ^ 64.
Proof. unfold u64, wrap. apply Z.mod_pos_bound. lia. Qed.

Lemma u64_small n : 0 <= n < 2 ^ 64 -> u64 n = n.
Proof. intros H. unfold u64, wrap. apply Z.mod_small. lia. Qed.

Lemma u64_le n : 0 <= n -> u64 n <= n.
Proof. intros H. unfold u64, wrap. apply Z.mod_le; lia. Qed.

Lemma u64_add_l a b : u64 (u64 a + b) = u64 (a + b).
Proof. unfold u64, wrap. apply Zplus_mod_idemp_l. Qed.

End IntFacts.

(** ** Transport *)

Module ZmqFacts.
Import Int Protocol Zmq Spec IntFacts.

(** *** The throughput estimate *)

Lemma remove_if_filter {A} (p : A -> bool) (l : list A) :
  remove_if p l = filter (fun x => p x = false) l.
Proof.
  induction l as [| x l IH]; [done |]. simpl.
  rewrite filter_cons. destruct (p x) eqn:Hp.
  - rewrite decide_False by congruence. done.
  - rewrite decide_True by done. by rewrite IH.
Qed.

Lemma cleanup_keeps_window now (h : list (Z * Z)) :
  remove_if (fun m : Z * Z => m.1 <? now - seconds 1) h
  = filter (fun s : Z * Z => now - seconds 1 <= s.1) h.
Proof.
  rewrite remove_if_filter. apply list_filter_iff. intros [t b]. simpl.
  rewrite Z.ltb_ge. done.
Qed.

Lemma total_bytes_sum (h : list (Z * Z)) acc :
  fold_left (fun total (entry : Z * Z) => u64 (total + entry.2)) h (u64 acc)
  = u64 (acc + foldr (fun (s : Z * Z) total => s.2 + total) 0 h).
Proof.
  revert acc. induction h as [| [t b] h IH]; intros acc; simpl.
  - by rewrite Z.add_0_r.
  - rewrite u64_add_l, IH. f_equal. lia.
Qed.

(** What [getCurrentNetworkSpeed] returns, with the wrap-around of the
    [size_t] accumulator and the conversion to [double] spelled out. *)
Lemma getCurrentNetworkSpeed_eq now w :
  getCurrentNetworkSpeed now w =
  (to_double (u64 (windowed_byte_total now (network_speed_history_ w))),
   set_history (filter (fun s : Z * Z => now - seconds 1 <= s.1)
                       (network_speed_history_ w)) w).
Proof.
  unfold getCurrentNetworkSpeed, cleanupOldSpeedHistory, windowed_byte_total. simpl.
  rewrite cleanup_keeps_window.
  change 0 with (u64 0) at 1. rewrite total_bytes_sum. done.
Qed.

(** C10.  The estimate [getCurrentNetworkSpeed] returns is the plain sum of
    the byte counts of the samples recorded within the trailing second
    (the older ones are erased from the history first); nothing divides
    it.  The sum is exact as long as it stays below [2 ^ 53], where a
    [double] holds every integer. *)
Theorem network_speed_is_windowed_total now w :
  0 <= windowed_byte_total now (network_speed_history_ w) < 2 ^ 53 ->
  getCurrentNetworkSpeed now w =
  (windowed_byte_total now (network_speed_history_ w),
   set_history (filter (fun s : Z * Z => now - seconds 1 <= s.1)
                       (network_speed_history_ w)) w).
Proof.
  intros H. rewrite getCurrentNetworkSpeed_eq. f_equal.
  rewrite u64_small by lia. apply to_double_exact. lia.
Qed.

Lemma speed_nonneg_idem now w :
  let speed := (getCurrentNetworkSpeed now w).1 in
  0 <= speed /\ to_double speed = speed.
Proof.
  rewrite getCurrentNetworkSpeed_eq. simpl.
  pose proof (u64_range (windowed_byte_total now (network_speed_history_ w))) as Hr.
  split.
  - transitivity (to_double 0); [by rewrite to_double_exact |].
    apply to_double_mono. lia.
  - apply to_double_idem. lia.
Qed.

(** C6.  A message is compressed only if its size is above 1024 bytes
    and, in adaptive mode, only if moreover the throughput estimate is
    below ten times the size; with adaptive mode off the size test alone
    decides.  In adaptive mode the two tests decide as well, as long as
    ten times the size is a number a [double] holds exactly. *)
Theorem compression_gate now message_size w :
  let compress := (shouldCompressMessage now message_size w).1 in
  (compress = true ->
     1024 < message_size /\
     (adaptive_compression_ w = true ->
        (getCurrentNetworkSpeed now w).1 < 10 * message_size)) /\
  (adaptive_compression_ w = false -> compress = bool_decide (1024 < message_size)) /\
  (adaptive_compression_ w = true -> 0 <= 10 * message_size < 2 ^ 53 ->
     compress = bool_decide (1024 < message_size /\
                             (getCurrentNetworkSpeed now w).1 < 10 * message_size)).
Proof.
  unfold shouldCompressMessage.
  destruct (adaptive_compression_ w) eqn:Ha; cbn [negb].
  - destruct (getCurrentNetworkSpeed now w) as [speed w'] eqn:Hs. cbn [fst].
    split; [| split; [done |]].
    + intros Hc. apply andb_true_iff in Hc as [Hsize Hspeed].
      apply Z.ltb_lt in Hsize. apply Z.ltb_lt in Hspeed.
      split; [done |]. intros _.
      pose proof (speed_nonneg_idem now w) as [Hnn Hidem]. rewrite Hs in Hnn, Hidem.
      simpl in Hnn, Hidem.
      destruct (Z.lt_ge_cases speed (10 * message_size)) as [|Hge]; [done | exfalso].
      pose proof (u64_range (message_size * 10)) as Hx.
      pose proof (u64_le (message_size * 10) ltac:(lia)) as Hle.
      pose proof (to_double_mono (u64 (message_size * 10)) speed ltac:(lia)) as Hm.
      lia.
    + intros _ Hrange.
      rewrite u64_small, to_double_exact by lia.
      destruct (Z.ltb_spec 1024 message_size);
        destruct (Z.ltb_spec speed (message_size * 10)); cbn [andb].
      * rewrite bool_decide_eq_true_2; [done | lia].
      * rewrite bool_decide_eq_false_2; [done | lia].
      * rewrite bool_decide_eq_false_2; [done | lia].
      * rewrite bool_decide_eq_false_2; [done | lia].
  - cbn [fst]. split; [| split; [| done]].
    + intros Hc. apply Z.ltb_lt in Hc. split; [done | congruence].
    + intros _. destruct (Z.ltb_spec 1024 message_size).
      * by rewrite bool_decide_eq_true_2.
      * rewrite bool_decide_eq_false_2; [done | lia].
Qed.

(** *** Sending *)

Lemma handleError_effects e w :
  effects (handleError e w)
  = effects w ++ (if error_callback_ w then [ErrorCallback e] else []).
Proof. unfold handleError. destruct (error_callback_ w); simpl; by rewrite ?app_nil_r. Qed.

Lemma handleError_settings e w : settings (handleError e w) = settings w.
Proof. unfold handleError. by destruct (error_callback_ w). Qed.

Lemma handleError_stats e w : compression_stats_ (handleError e w) = compression_stats_ w.
Proof. unfold handleError. by destruct (error_callback_ w). Qed.

Lemma handleError_received e w : messages_received_ (handleError e w) = messages_received_ w.
Proof. unfold handleError. by destruct (error_callback_ w). Qed.

Lemma delivered_app es es' : delivered (es ++ es') = delivered es ++ delivered es'.
Proof. apply flat_map_app. Qed.

Lemma reported_app es es' : reported (es ++ es') = reported es ++ reported es'.
Proof. apply flat_map_app. Qed.

Lemma socket_calls_app es es' :
  socket_calls (es ++ es') = socket_calls es ++ socket_calls es'.
Proof. apply flat_map_app. Qed.

Lemma handleError_delivered e w :
  delivered (effects (handleError e w)) = delivered (effects w).
Proof.
  rewrite handleError_effects, delivered_app.
  destruct (error_callback_ w); apply app_nil_r.
Qed.

Lemma shouldCompressMessage_frame now n w :
  let w' := (shouldCompressMessage now n w).2 in
  effects w' = effects w /\ settings w' = settings w
  /\ compression_stats_ w' = compression_stats_ w
  /\ messages_received_ w' = messages_received_ w.
Proof.
  unfold shouldCompressMessage. by destruct (adaptive_compression_ w).
Qed.

Lemma vector_resize_length n v :
  0 <= n -> Z.of_nat (length (vector_resize n v)) = n.
Proof.
  intros H. unfold vector_resize.
  rewrite length_app, length_take, length_replicate. lia.
Qed.

Lemma vector_resize_written (out : list byte) buffer :
  vector_resize (Z.of_nat (length out)) (written_into buffer out) = out.
Proof.
  unfold vector_resize, written_into. rewrite Nat2Z.id.
  rewrite take_app_length.
  rewrite length_app.
  replace (length out - (length out + length (drop (length out) buffer)))%nat
    with 0%nat by lia.
  apply app_nil_r.
Qed.

(** With no codec pinned, [selectCompressionType] names zlib below a
    mebibyte and LZ4 from a mebibyte on; a pinned codec is named as it is. *)
Theorem codec_selection message_size w :
  (compression_type_ w = NONE ->
   selectCompressionType message_size w
   = if decide (message_size < 1024 * 1024) then ZLIB else LZ4) /\
  (compression_type_ w <> NONE ->
   selectCompressionType message_size w = compression_type_ w).
Proof.
  unfold selectCompressionType. split; intros H.
  - rewrite H. destruct (decide (NONE <> NONE)); [done |].
    destruct (Z.ltb_spec message_size (1024 * 1024)).
    + by rewrite decide_True.
    + rewrite decide_False; [done | lia].
  - by rewrite decide_True.
Qed.

Section Sending.
Context (lib : Codecs).

Lemma prepare_cases env m w :
  let original_size := Z.of_nat (length (payload m)) in
  let w1 := (shouldCompressMessage (speed_now env) original_size w).2 in
  let msg := (prepare lib env m w).1 in
  msg = m \/
  exists compressed_size buffer,
    (shouldCompressMessage (speed_now env) original_size w).1 = true /\
    compressData lib (payload m) original_size
                 (vector_of_size original_size) original_size w1
    = (compressed_size, buffer) /\
    0 < compressed_size < original_size /\
    msg = mkMessage (set_compression (selectCompressionType original_size w1) (header m))
                    (vector_resize compressed_size buffer) /\
    Z.of_nat (length (payload msg)) = compressed_size.
Proof.
  intros original_size w1 msg. subst msg w1. unfold prepare. fold original_size.
  destruct (shouldCompressMessage (speed_now env) original_size w) as [should w1].
  cbn [fst snd].
  destruct should; [| by left].
  destruct (compressData lib (payload m) original_size (vector_of_size original_size)
                         original_size w1) as [compressed_size buffer].
  destruct (Z.ltb_spec 0 compressed_size); [| by left].
  destruct (Z.ltb_spec compressed_size original_size); [| by left].
  cbn [andb fst]. right. exists compressed_size, buffer.
  repeat split; try done. cbn [payload]. apply vector_resize_length. lia.
Qed.

Lemma prepare_frame env m w :
  let w' := (prepare lib env m w).2 in
  effects w' = effects w /\ settings w' = settings w
  /\ decompression_failures (compression_stats_ w')
     = decompression_failures (compression_stats_ w)
  /\ messages_received_ w' = messages_received_ w.
Proof.
  unfold prepare.
  pose proof (shouldCompressMessage_frame (speed_now env)
                (Z.of_nat (length (payload m))) w) as (He & Hs & Hc & Hr).
  destruct (shouldCompressMessage _ _ w) as [should w1]. cbn [snd] in *.
  rewrite <- He, <- Hs, <- Hc, <- Hr.
  destruct should; [| done].
  destruct (compressData _ _ _ _ _ w1) as [compressed_size buffer].
  by destruct (_ && _).
Qed.

(** A send that goes through hands the socket the header and then the
    payload of the prepared message, and nothing else happens. *)
Lemma sendMessage_accepted env m w :
  (sendMessage lib env m w).1 = true ->
  connected_ w = true /\ size (header m) <= max_message_size_ w /\
  let msg := (prepare lib env m w).1 in
  effects (sendMessage lib env m w).2
  = effects w ++ [SocketSend (HeaderSegment (header msg)) true Sent;
                  SocketSend (PayloadSegment (payload msg)) false Sent].
Proof.
  unfold sendMessage.
  destruct (connected_ w); cbn [negb]; [| done].
  destruct (Z.ltb_spec (max_message_size_ w) (size (header m))); [done |].
  pose proof (prepare_frame env m w) as (He & _).
  destruct (prepare lib env m w) as [msg w2]. cbn [fst snd] in *.
  destruct (header_result env); [| done | done].
  destruct (payload_result env); [| done | done].
  intros _. split; [done |]. split; [done |].
  cbn. rewrite He, <- app_assoc. done.
Qed.

Lemma sendMessage_sends env m w :
  connected_ w = true -> size (header m) <= max_message_size_ w ->
  header_result env = Sent -> payload_result env = Sent ->
  (sendMessage lib env m w).1 = true.
Proof.
  intros Hc Hs Hh Hp. unfold sendMessage. rewrite Hc. cbn [negb].
  destruct (Z.ltb_spec (max_message_size_ w) (size (header m))); [lia |].
  destruct (prepare lib env m w) as [msg w2]. by rewrite Hh, Hp.
Qed.

Lemma sendMessage_frame env m w :
  let w' := (sendMessage lib env m w).2 in
  settings w' = settings w /\
  decompression_failures (compression_stats_ w')
  = decompression_failures (compression_stats_ w) /\
  delivered (effects w') = delivered (effects w) /\
  messages_received_ w' = messages_received_ w.
Proof.
  unfold sendMessage.
  destruct (connected_ w); cbn [negb].
  2:{ cbn [snd]. by rewrite handleError_settings, handleError_stats,
                            handleError_delivered, handleError_received. }
  destruct (Z.ltb_spec (max_message_size_ w) (size (header m))).
  { cbn [snd]. by rewrite handleError_settings, handleError_stats,
                          handleError_delivered, handleError_received. }
  pose proof (prepare_frame env m w) as (He & Hs & Hd & Hr).
  destruct (prepare lib env m w) as [msg w2]. cbn [fst snd] in *.
  destruct (header_result env); [destruct (payload_result env) |..]; cbn [snd];
    rewrite ?handleError_settings, ?handleError_stats, ?handleError_delivered,
            ?handleError_received;
    cbn [effects emit updateNetworkSpeed set_history];
    rewrite ?delivered_app, He, <- Hs, <- Hd, <- Hr; cbn [delivered flat_map app];
    by rewrite ?app_nil_r.
Qed.


(** C3, as amended.  A message whose [header.size] exceeds the configured
    maximum is refused: [sendMessage] returns false, makes no socket call
    and reports one error, which reaches the error callback when one is
    registered.  The text is "Message size exceeds limit" on a connected
    transport, and that of the earlier guard, "Cannot send message: not
    connected", otherwise. *)
Theorem oversized_message_rejected env m w :
  max_message_size_ w < size (header m) ->
  let text := if connected_ w then "Message size exceeds limit"
              else "Cannot send message: not connected" in
  sendMessage lib env m w = (false, handleError text w) /\
  socket_calls (effects (sendMessage lib env m w).2) = socket_calls (effects w) /\
  reported (effects (sendMessage lib env m w).2)
  = reported (effects w) ++ (if error_callback_ w then [text] else []) /\
  contains "exceeds limit" "Message size exceeds limit" = true.
Proof.
  intros Hsize text.
  assert (Heq : sendMessage lib env m w = (false, handleError text w)).
  { unfold sendMessage, text. destruct (connected_ w); cbn [negb]; [| done].
    destruct (Z.ltb_spec (max_message_size_ w) (size (header m))); [done | lia]. }
  rewrite Heq. cbn [snd]. rewrite handleError_effects, socket_calls_app, reported_app.
  repeat split; try done.
  - destruct (error_callback_ w); apply app_nil_r.
  - by destruct (error_callback_ w).
Qed.

(** C4, as amended.  In a send that goes through, the compressed form
    replaces the payload only if [compressData] returned a size that is
    not zero and strictly below the original length, and the header's
    [compression] is then what [selectCompressionType] names; otherwise
    the message goes out as the caller passed it, payload and header,
    [compression] field included. *)
Theorem compressed_form_kept_only_if_smaller env m w :
  (sendMessage lib env m w).1 = true ->
  let original_size := Z.of_nat (length (payload m)) in
  let w1 := (shouldCompressMessage (speed_now env) original_size w).2 in
  exists msg,
    effects (sendMessage lib env m w).2
    = effects w ++ [SocketSend (HeaderSegment (header msg)) true Sent;
                    SocketSend (PayloadSegment (payload msg)) false Sent] /\
    (msg = m \/
     exists compressed_size buffer,
       compressData lib (payload m) original_size
                    (vector_of_size original_size) original_size w1
       = (compressed_size, buffer) /\
       0 < compressed_size < original_size /\
       payload msg = vector_resize compressed_size buffer /\
       Z.of_nat (length (payload msg)) = compressed_size /\
       header msg = set_compression (selectCompressionType original_size w1) (header m)).
Proof.
  intros Hok original_size w1.
  destruct (sendMessage_accepted env m w Hok) as (_ & _ & Heff).
  exists (prepare lib env m w).1. split; [exact Heff |].
  destruct (prepare_cases env m w) as [Hsame | (csize & buffer & _ & Hc & Hr & Hmsg & Hlen)].
  - by left.
  - right. exists csize, buffer. fold original_size in Hc, Hr, Hmsg. fold w1 in Hc, Hmsg.
    rewrite Hmsg in Hlen |- *. done.
Qed.

(** C2, where the code departs from it.  The codec is left to
    [selectCompressionType] ([compression_type_] is [NONE]) and the
    payload has a mebibyte or more: the header that goes out says [LZ4],
    the payload that goes out is what zlib's [deflate] wrote. *)
Theorem unpinned_codec_label_disagrees env m w out :
  let n := Z.of_nat (length (payload m)) in
  connected_ w = true -> size (header m) <= max_message_size_ w ->
  header_result env = Sent -> payload_result env = Sent ->
  compression_type_ w = NONE -> adaptive_compression_ w = false ->
  1024 * 1024 <= n < 2 ^ 31 ->
  deflate lib (zlib_level (compression_level_ w)) (payload m) n = Ran true out ->
  0 < Z.of_nat (length out) < n ->
  effects (sendMessage lib env m w).2
  = effects w ++ [SocketSend (HeaderSegment (set_compression LZ4 (header m))) true Sent;
                  SocketSend (PayloadSegment out) false Sent].
Proof.
  intros n Hconn Hsize Hh Hp Htype Hadapt Hn Hdeflate Hout.
  pose proof (sendMessage_sends env m w Hconn Hsize Hh Hp) as Hok.
  destruct (sendMessage_accepted env m w Hok) as (_ & _ & ->).
  do 3 f_equal.
  all: unfold prepare; fold n; unfold shouldCompressMessage; rewrite Hadapt; cbn [negb].
  all: destruct (Z.ltb_spec 1024 n); [| lia].
  all: unfold compressData; rewrite Htype.
  all: destruct (decide (NONE = LZ4)); [done |].
  all: assert (Hu : u32 n = n) by (unfold u32, wrap; apply Z.mod_small; lia).
  all: assert (Htake : take (Z.to_nat (u32 n)) (payload m) = payload m)
         by (rewrite Hu; unfold n; rewrite Nat2Z.id; apply firstn_all).
  all: rewrite Htake, Hu, Hdeflate; cbn [negb].
  all: replace (u64 (n - (n - Z.of_nat (length out)))) with (Z.of_nat (length out))
         by (rewrite u64_small; lia).
  all: destruct (Z.ltb_spec 0 (Z.of_nat (length out))); [| lia].
  all: destruct (Z.ltb_spec (Z.of_nat (length out)) n); [| lia].
  all: cbn [andb fst header payload].
  - unfold selectCompressionType. rewrite Htype.
    destruct (decide (NONE <> NONE)); [done |].
    destruct (Z.ltb_spec n (1024 * 1024)); [lia | done].
  - do 2 f_equal. apply vector_resize_written.
Qed.

End Sending.
End ZmqFacts.

(** ** The worker thread *)

Module WorkerFacts.
Import Int Protocol Zmq Spec IntFacts ZmqFacts.

Section Worker.
Context (lib : Codecs).

Lemma decompressData_settings input input_size output output_size w w' :
  settings w' = settings w ->
  decompressData lib input input_size output output_size w'
  = decompressData lib input input_size output output_size w.
Proof.
  intros H. unfold decompressData.
  replace (compression_type_ w') with (compression_type_ w); [done |].
  unfold settings in H. congruence.
Qed.

Lemma heartbeat_if_due_frame env w :
  let w' := heartbeat_if_due lib env w in
  settings w' = settings w /\
  decompression_failures (compression_stats_ w')
  = decompression_failures (compression_stats_ w) /\
  delivered (effects w') = delivered (effects w) /\
  messages_received_ w' = messages_received_ w.
Proof.
  unfold heartbeat_if_due.
  destruct (_ <=? _); [| done].
  match goal with |- context [sendMessage lib ?e ?m w] =>
    pose proof (sendMessage_frame lib e m w) as (Hs & Hd & He & Hr);
    destruct (sendMessage lib e m w) as [ok w1] end.
  cbn [snd] in *. by destruct ok.
Qed.

(** A heartbeat is due when a second or more has passed since the last
    one.  When it is due, on a connected transport whose socket takes
    both segments, an empty [HEARTBEAT] message carrying the count of
    received messages goes out and the time is noted; when none is due
    the turn sends nothing. *)
Theorem heartbeat_when_due env w :
  (milliseconds DEFAULT_HEARTBEAT_INTERVAL <= now env - last_heartbeat_ w ->
   connected_ w = true -> 0 <= max_message_size_ w ->
   header_result (heartbeat_env env) = Sent ->
   payload_result (heartbeat_env env) = Sent ->
   last_heartbeat_ (heartbeat_if_due lib env w) = now env /\
   effects (heartbeat_if_due lib env w)
   = effects w
     ++ [SocketSend (HeaderSegment (mkHeader HEARTBEAT 0 (u32 (messages_received_ w))
                                            (to_microseconds (now env)) NONE))
                    true Sent;
         SocketSend (PayloadSegment []) false Sent]) /\
  (now env - last_heartbeat_ w < milliseconds DEFAULT_HEARTBEAT_INTERVAL ->
   heartbeat_if_due lib env w = w).
Proof.
  unfold heartbeat_if_due. split.
  - intros Hdue Hconn Hmax Hh Hp.
    destruct (Z.leb_spec (milliseconds DEFAULT_HEARTBEAT_INTERVAL)
                         (now env - last_heartbeat_ w)); [| lia].
    unfold sendMessage. rewrite Hconn. cbn [negb size header].
    destruct (Z.ltb_spec (max_message_size_ w) 0); [lia |].
    unfold prepare. cbn [payload length].
    pose proof (shouldCompressMessage_frame (speed_now (heartbeat_env env)) 0 w)
      as (He & _).
    assert (Hno : (shouldCompressMessage (speed_now (heartbeat_env env)) 0 w).1 = false).
    { unfold shouldCompressMessage. by destruct (adaptive_compression_ w). }
    change (Z.of_nat 0) with 0.
    destruct (shouldCompressMessage (speed_now (heartbeat_env env)) 0 w) as [should w1].
    cbn [fst snd] in *. subst should. rewrite Hh, Hp. cbn.
    rewrite He, <- app_assoc. done.
  - intros Hearly.
    destruct (Z.leb_spec (milliseconds DEFAULT_HEARTBEAT_INTERVAL)
                         (now env - last_heartbeat_ w)); [lia | done].
Qed.

Lemma handleMessage_settings m w : settings (handleMessage m w) = settings w.
Proof. unfold handleMessage. by destruct (message_callback_ w). Qed.

Lemma process_settings env hdr bytes w :
  settings (wrapper_of (process lib env hdr bytes w)) = settings w.
Proof.
  unfold process, deliver.
  destruct (decide (compression hdr <> NONE)); cbn [wrapper_of].
  - destruct (decompressData _ _ _ _ _ w) as [dsize buffer].
    destruct (0 <? dsize); [destruct (resize_throws dsize) |]; cbn [wrapper_of].
    + done.
    + apply (handleMessage_settings _ (updateCompressionStats _ _ _ w)).
    + apply handleError_settings.
  - apply handleMessage_settings.
Qed.

Lemma receive_settings env w :
  settings (wrapper_of (receive lib env w)) = settings w.
Proof.
  unfold receive, worker_error.
  destruct (recv_header env) as [| hdr | what]; cbn [wrapper_of].
  - done.
  - destruct (recv_payload env) as [| bytes | what]; cbn [wrapper_of].
    + apply (handleError_settings _ (emit _ (emit _ w))).
    + apply (process_settings env hdr bytes (emit _ (emit _ w))).
    + apply (handleError_settings _ (emit _ (emit _ w))).
  - apply (handleError_settings _ (emit _ w)).
Qed.

Lemma worker_turn_settings env w :
  settings (wrapper_of (worker_turn lib env w)) = settings w.
Proof.
  unfold worker_turn. rewrite receive_settings.
  apply heartbeat_if_due_frame.
Qed.

Lemma workerThread_settings envs w :
  settings (wrapper_of (workerThread lib envs w)) = settings w.
Proof.
  revert w. induction envs as [| env envs IH]; intros w; cbn [workerThread]; [done |].
  destruct (should_stop env); [done |].
  pose proof (worker_turn_settings env w) as Hturn.
  destruct (worker_turn lib env w) as [w' | w']; cbn [wrapper_of] in *; [| done].
  by rewrite IH.
Qed.

(** C5, as amended.  However the socket behaves, a run of the worker
    thread leaves the connection state, the connected flag and the count
    of reconnection attempts as they were: an error raised by the socket
    is reported through the error callback, the thread sleeps 100 ms and
    goes on polling, and no reconnection is attempted.  It is [stop()]
    that moves the state to [DISCONNECTED]. *)
Theorem worker_thread_never_reconnects envs w :
  let w' := wrapper_of (workerThread lib envs w) in
  connection_state_ w' = connection_state_ w /\
  connected_ w' = connected_ w /\
  reconnect_attempts_ w' = reconnect_attempts_ w /\
  (forall env what, recv_header env = RecvThrows what ->
     worker_turn lib env w
     = Continues (emit (SleepFor 100)
                    (handleError ("Error in worker thread: " +:+ what)
                       (emit (SocketRecv true) (heartbeat_if_due lib env w))))) /\
  forall cleanup_error, connection_state_ (stop cleanup_error w') = DISCONNECTED.
Proof.
  intros w'. pose proof (workerThread_settings envs w) as H. fold w' in H.
  unfold settings in H.
  repeat split; try congruence.
  intros env what Hrecv. unfold worker_turn, receive. by rewrite Hrecv.
Qed.

Lemma u64_negative_int ret : - 2 ^ 31 <= ret < 0 -> u64 ret = 2 ^ 64 + ret.
Proof.
  intros H. unfold u64, wrap.
  symmetry. apply (Z.mod_unique ret (2 ^ 64) (-1)); lia.
Qed.

(** C7, where the code departs from it.  The receiver is set to LZ4 and
    [LZ4_decompress_safe] reports a failure, a negative [int]:
    [decompressData] returns it as a [size_t], the test for a positive
    size passes, and the [resize] to that size raises [std::length_error],
    which leaves the thread function.  No failure is counted, and the
    loop does not go on. *)
Theorem lz4_decompression_failure_escapes env hdr bytes w ret written :
  recv_header env = Got hdr -> recv_payload env = Got bytes ->
  should_stop env = false ->
  compression hdr <> NONE -> compression_type_ w = LZ4 ->
  LZ4_decompress_safe lib bytes (s32 (Z.of_nat (length bytes))) (s32 (size hdr))
  = (ret, written) ->
  - 2 ^ 31 <= ret < 0 ->
  exists w',
    worker_turn lib env w = Escapes w' /\
    decompression_failures (compression_stats_ w')
    = decompression_failures (compression_stats_ w) /\
    delivered (effects w') = delivered (effects w) /\
    forall envs, workerThread lib (env :: envs) w = Escapes w'.
Proof.
  intros Hh Hp Hstop Hc Htype Hlz4 Hret.
  pose proof (heartbeat_if_due_frame env w) as (Hs & Hd & He & _).
  set (w3 := emit (SocketRecv false) (emit (SocketRecv true) (heartbeat_if_due lib env w))).
  assert (Hturn : worker_turn lib env w = Escapes w3).
  { unfold worker_turn, receive. rewrite Hh, Hp. fold w3. unfold process.
    destruct (decide (compression hdr <> NONE)); [| done].
    rewrite (decompressData_settings _ _ _ _ w w3) by (rewrite <- Hs; done).
    unfold decompressData. rewrite Htype.
    destruct (decide (LZ4 = LZ4)); [| done]. rewrite Hlz4.
    rewrite (u64_negative_int ret Hret).
    destruct (Z.ltb_spec 0 (2 ^ 64 + ret)); [| lia].
    unfold resize_throws, vector_max_size.
    destruct (Z.ltb_spec (2 ^ 63 - 1) (2 ^ 64 + ret)); [done | lia]. }
  exists w3. repeat split.
  - done.
  - rewrite <- Hd. done.
  - rewrite <- He. unfold w3. cbn [effects emit]. rewrite !delivered_app. cbn.
    by rewrite !app_nil_r.
  - intros envs. cbn [workerThread]. by rewrite Hstop, Hturn.
Qed.

(** When [decompressData] returns 0 the failure is counted and the
    message dropped: the message callback is not invoked, the count of
    received messages stays, and the loop goes on with the next turn. *)
Theorem failed_decompression_counted_and_dropped env hdr bytes w buffer :
  recv_header env = Got hdr -> recv_payload env = Got bytes ->
  should_stop env = false ->
  compression hdr <> NONE ->
  decompressData lib bytes (Z.of_nat (length bytes))
                 (vector_of_size (size hdr)) (size hdr) w = (0, buffer) ->
  exists w',
    worker_turn lib env w = Continues w' /\
    decompression_failures (compression_stats_ w')
    = u64 (decompression_failures (compression_stats_ w) + 1) /\
    delivered (effects w') = delivered (effects w) /\
    messages_received_ w' = messages_received_ w /\
    reported (effects w')
    = reported (effects (heartbeat_if_due lib env w))
      ++ (if error_callback_ w then ["Failed to decompress message"] else []) /\
    forall envs, workerThread lib (env :: envs) w = workerThread lib envs w'.
Proof.
  intros Hh Hp Hstop Hc Hzero.
  pose proof (heartbeat_if_due_frame env w) as (Hs & Hd & He & Hr).
  set (w3 := emit (SocketRecv false) (emit (SocketRecv true) (heartbeat_if_due lib env w))).
  set (w' := count_decompression_failure (handleError "Failed to decompress message" w3)).
  assert (Hturn : worker_turn lib env w = Continues w').
  { unfold worker_turn, receive. rewrite Hh, Hp. fold w3. unfold process.
    destruct (decide (compression hdr <> NONE)); [| done].
    rewrite (decompressData_settings _ _ _ _ w w3) by (rewrite <- Hs; done).
    by rewrite Hzero. }
  assert (Hcb : error_callback_ w3 = error_callback_ w).
  { assert (settings w3 = settings w) as H by (rewrite <- Hs; done).
    unfold settings in H. congruence. }
  exists w'. repeat split.
  - done.
  - unfold w'. cbn. rewrite handleError_stats. cbn. by rewrite Hd.
  - unfold w'. cbn [count_decompression_failure set_stats effects].
    rewrite handleError_delivered. unfold w3. cbn [effects emit].
    rewrite !delivered_app, He. cbn. by rewrite !app_nil_r.
  - unfold w'. cbn [count_decompression_failure set_stats messages_received_].
    rewrite handleError_received. done.
  - unfold w'. cbn [count_decompression_failure set_stats effects].
    rewrite handleError_effects, reported_app, Hcb. unfold w3. cbn [effects emit].
    rewrite !reported_app. cbn [reported flat_map app]. rewrite !app_nil_r.
    by destruct (error_callback_ w).
  - intros envs. cbn [workerThread]. by rewrite Hstop, Hturn.
Qed.

End Worker.
End WorkerFacts.

(** ** Call proxy *)

Module VulkanFacts.
Import Int Protocol Vulkan.
Import Zmq(ZMQWrapper, Codecs, effects, delivered, message_callback_, milliseconds).

(** *** Waiting *)

Lemma handleMessage_delivered m net :
  delivered (effects (Zmq.handleMessage m net))
  = delivered (effects net) ++ (if message_callback_ net then [m] else []).
Proof.
  unfold Zmq.handleMessage. destruct (message_callback_ net); cbn.
  - by rewrite ZmqFacts.delivered_app.
  - by rewrite app_nil_r.
Qed.

Lemma handleMessage_callback m net :
  message_callback_ (Zmq.handleMessage m net) = message_callback_ net.
Proof. unfold Zmq.handleMessage. by destruct (message_callback_ net) eqn:H. Qed.

Lemma during_sleep_delivered env i net :
  delivered (effects (during_sleep env i net))
  = delivered (effects net) ++ (if message_callback_ net then responses env i else []).
Proof.
  unfold during_sleep. generalize (responses env i) as rs. intros rs.
  revert net. induction rs as [| r rs IH]; intros net; cbn [foldl].
  - destruct (message_callback_ net); by rewrite app_nil_r.
  - rewrite IH, handleMessage_delivered, handleMessage_callback.
    destruct (message_callback_ net); by rewrite <- app_assoc.
Qed.

(** The loop ends, whatever was delivered meanwhile, with [VK_TIMEOUT]
    and not before the deadline; what had been delivered stays so. *)
Lemma wait_loop_times_out env start t i net :
  exists t' net',
    wait_loop env start t i net = (VK_TIMEOUT, t', net') /\
    timeout <= t' - start /\
    forall m, m ∈ delivered (effects net) -> m ∈ delivered (effects net').
Proof.
  funelim (wait_loop env start t i net).
  - match goal with IH : exists _, _ |- _ => destruct IH as (t' & net' & Hres & Ht & Hd) end.
    exists t', net'. repeat split; try done.
    intros m Hm. apply Hd. rewrite during_sleep_delivered.
    apply elem_of_app. by left.
  - exists t, net. split; [done |]. split; [lia | done].
Qed.

Lemma wait_loop_first_sleep env start net :
  wait_loop env start start 0 net
  = wait_loop env start (start + milliseconds 1 + Z.of_N (oversleep env 0%nat)) 1
              (during_sleep env 0 net).
Proof.
  rewrite wait_loop_equation_1. 
  destruct (decide (start - start < timeout)) as [| Hn]; [done |].
  exfalso. apply Hn. unfold timeout, milliseconds. lia.
Qed.

Section Exchange.
Context (lib : Codecs).

(** C1, where the code departs from it.  Once the request has been
    sent, [sendCommand] returns [VK_TIMEOUT], and not before the five
    seconds have passed, also when the reply that carries the request's
    sequence id was handed to the message callback during the first
    millisecond of the wait. *)
Theorem sendCommand_ignores_the_response env m net :
  (Zmq.sendMessage lib (send_env env) m net).1 = true ->
  let net1 := (Zmq.sendMessage lib (send_env env) m net).2 in
  let waited := waitForResponse (wait_env env) (sequence (header m)) net1 in
  (sendCommand lib env m net).1 = VK_TIMEOUT /\
  waited.1.1 = VK_TIMEOUT /\
  timeout <= waited.1.2 - wait_start (wait_env env) /\
  (message_callback_ net = true ->
   forall reply, reply ∈ responses (wait_env env) 0 ->
                 reply ∈ delivered (effects waited.2)).
Proof.
  intros Hok net1 waited.
  assert (Hcb : message_callback_ net1 = message_callback_ net).
  { pose proof (ZmqFacts.sendMessage_frame lib (send_env env) m net) as (Hs & _).
    unfold Zmq.settings in Hs. fold net1 in Hs. congruence. }
  unfold sendCommand.
  destruct (Zmq.sendMessage lib (send_env env) m net) as [ok net1'] eqn:Hsend.
  cbn [fst snd] in *. subst ok. cbn [negb]. subst net1. fold waited.
  unfold waited, waitForResponse. rewrite wait_loop_first_sleep.
  destruct (wait_loop_times_out (wait_env env) (wait_start (wait_env env))
              (wait_start (wait_env env) + milliseconds 1
               + Z.of_N (oversleep (wait_env env) 0%nat)) 1
              (during_sleep (wait_env env) 0 net1')) as (t' & net' & -> & Ht & Hd).
  cbn [fst snd]. repeat split; try done.
  intros Hreg reply Hin. apply Hd. rewrite during_sleep_delivered, Hcb, Hreg.
  apply elem_of_app. by right.
Qed.

Lemma sendCommand_results env m net :
  (sendCommand lib env m net).1 = VK_TIMEOUT \/
  (sendCommand lib env m net).1 = VK_ERROR_INITIALIZATION_FAILED.
Proof.
  unfold sendCommand.
  destruct (Zmq.sendMessage lib (send_env env) m net) as [ok net1].
  destruct ok; cbn [negb]; [left | by right].
  unfold waitForResponse.
  destruct (wait_loop_times_out (wait_env env) (wait_start (wait_env env))
              (wait_start (wait_env env)) 0 net1) as (t' & net' & -> & _).
  done.
Qed.

(** [sendCommand] has two results, and success is not one of them:
    [VK_ERROR_INITIALIZATION_FAILED] when [sendMessage] fails and
    [VK_TIMEOUT] when it does not. *)
Theorem sendCommand_never_succeeds env m net :
  (sendCommand lib env m net).1 <> VK_SUCCESS /\
  (sendCommand lib env m net).1
  = if (Zmq.sendMessage lib (send_env env) m net).1
    then VK_TIMEOUT else VK_ERROR_INITIALIZATION_FAILED.
Proof.
  split.
  - destruct (sendCommand_results env m net) as [-> | ->]; done.
  - unfold sendCommand.
    destruct (Zmq.sendMessage lib (send_env env) m net) as [ok net1].
    destruct ok; cbn [negb fst]; [| done].
    unfold waitForResponse.
    destruct (wait_loop_times_out (wait_env env) (wait_start (wait_env env))
                (wait_start (wait_env env)) 0 net1) as (t' & net' & -> & _).
    done.
Qed.

(** Under [sendCommand] the creations enter nothing in the registries:
    the instance and device maps come back as they were. *)
Theorem creation_never_registers env pCreateInfo pointer physicalDevice icd :
  let instance_call := vkCreateInstance (sendCommand lib env) pCreateInfo pointer icd in
  let device_call :=
    vkCreateDevice (sendCommand lib env) physicalDevice pCreateInfo pointer icd in
  instance_call.1 <> VK_SUCCESS /\ instances_ instance_call.2 = instances_ icd /\
  device_call.1 <> VK_SUCCESS /\ devices_ device_call.2 = devices_ icd.
Proof.
  intros instance_call device_call.
  unfold instance_call, device_call, vkCreateInstance, vkCreateDevice.
  split; [| split; [| split]].
  all: match goal with |- context [sendCommand ?l ?e ?m ?net] =>
         pose proof (sendCommand_results e m net) as Hr;
         destruct (sendCommand l e m net) as [result net1] end.
  all: cbn [fst] in Hr.
  all: destruct (decide (result = VK_SUCCESS)) as [-> | Hne]; [by destruct Hr | done].
Qed.

End Exchange.

(** *** The registries *)

(** An entry made by a creation is gone after the destruction of its
    handle: for an instance, created and destroyed under any two
    exchanges. *)
Theorem created_then_destroyed_is_gone (send1 send2 : CallProxy)
    pCreateInfo pInstance icd :
  let created := vkCreateInstance send1 pCreateInfo pInstance icd in
  (created.1 = VK_SUCCESS ->
   instances_ created.2 !! pointee pInstance
   = Some (mkInstanceInfo (pointee pInstance) [])) /\
  instances_ (vkDestroyInstance send2 (pointee pInstance) created.2) !! pointee pInstance
  = None.
Proof.
  intros created. split.
  - unfold created, vkCreateInstance. destruct (send1 _ _) as [result net]. cbn [fst snd].
    destruct (decide (result = VK_SUCCESS)); [| done].
    intros _. cbn. apply lookup_insert_eq.
  - unfold vkDestroyInstance. destruct (send2 _ _). cbn. apply lookup_delete_eq.
Qed.

(** C8.  Create an instance, create a device, destroy the instance: the
    destruction erases the instance's entry and leaves the maps of the
    four other categories as they were; a device entered by the creation
    is still there, and it is [vkDestroyDevice] that removes it. *)
Theorem destroy_instance_keeps_device (send1 send2 send3 send4 : CallProxy)
    pInstanceInfo pInstance physicalDevice pDeviceInfo pDevice icd :
  let created := vkCreateInstance send1 pInstanceInfo pInstance icd in
  let with_device := vkCreateDevice send2 physicalDevice pDeviceInfo pDevice created.2 in
  let destroyed := vkDestroyInstance send3 (pointee pInstance) with_device.2 in
  devices_ destroyed = devices_ with_device.2 /\
  swapchains_ destroyed = swapchains_ with_device.2 /\
  command_pools_ destroyed = command_pools_ with_device.2 /\
  command_buffers_ destroyed = command_buffers_ with_device.2 /\
  instances_ destroyed = delete (pointee pInstance) (instances_ with_device.2) /\
  (with_device.1 = VK_SUCCESS ->
   devices_ destroyed !! pointee pDevice
   = Some (mkDeviceInfo (pointee pDevice) physicalDevice [])) /\
  devices_ (vkDestroyDevice send4 (pointee pDevice) destroyed) !! pointee pDevice = None.
Proof.
  intros created with_device destroyed.
  assert (Hframe : devices_ destroyed = devices_ with_device.2
                   /\ swapchains_ destroyed = swapchains_ with_device.2
                   /\ command_pools_ destroyed = command_pools_ with_device.2
                   /\ command_buffers_ destroyed = command_buffers_ with_device.2
                   /\ instances_ destroyed
                      = delete (pointee pInstance) (instances_ with_device.2)).
  { unfold destroyed, vkDestroyInstance. by destruct (send3 _ _). }
  destruct Hframe as (Hd & Hs & Hp & Hb & Hi).
  repeat split; try done.
  - intros Hok. rewrite Hd. revert Hok. unfold with_device, vkCreateDevice.
    destruct (send2 _ _) as [result net]. cbn [fst snd].
    destruct (decide (result = VK_SUCCESS)); [| done].
    intros _. cbn. apply lookup_insert_eq.
  - unfold vkDestroyDevice. destruct (send4 _ _). cbn. apply lookup_delete_eq.
Qed.

(** The branch for success.  When the exchange reports
    success, the address stored through [ppData] is that of the payload
    buffer of the function's own request message: a buffer that did not
    exist before the call, that holds the request parameters and not
    mapped memory, and that is released when the call returns. *)
Theorem vkMapMemory_hands_out_released_buffer (send : CallProxy)
    device memory offset size flags ppData heap icd :
  let call := vkMapMemory send device memory offset size flags ppData heap icd in
  let data := call.1.1.2 in
  call.1.1.1 = VK_SUCCESS ->
  heap !! data = None /\
  (allocate (MemoryMapParams device memory offset size flags) heap).2 !! data
  = Some (MemoryMapParams device memory offset size flags) /\
  call.1.2 !! data = None /\
  call.1.2 = heap.
Proof.
  intros call data. unfold data, call, vkMapMemory, allocate, release.
  destruct (send _ _) as [result net]. cbn [fst snd].
  destruct (decide (result = VK_SUCCESS)); [| done]. intros _.
  assert (Hfresh : heap !! fresh (dom heap) = None).
  { apply not_elem_of_dom. apply is_fresh. }
  repeat split.
  - done.
  - apply lookup_insert_eq.
  - apply lookup_delete_eq.
  - rewrite delete_insert_eq. by apply delete_id.
Qed.

Section Mapping.
Context (lib : Codecs).


End Mapping.

End VulkanFacts.

(** ** Sending: outcome, reports, throughput samples *)

Module SendFacts.
Import Int Protocol Zmq Spec IntFacts ZmqFacts.

Lemma cleanup_sublist now (h : list (Z * Z)) :
  sublist (remove_if (fun m : Z * Z => m.1 <? now - seconds 1) h) h.
Proof. rewrite remove_if_filter. apply sublist_filter. Qed.

Lemma remove_if_Forall {A} (P : A -> Prop) (p : A -> bool) (l : list A) :
  Forall P l -> Forall P (remove_if p l).
Proof.
  induction 1 as [| x l Hx Hl IH]; cbn; [done |].
  destruct (p x); [done | by constructor].
Qed.

Lemma shouldCompressMessage_history now n w :
  let w' := (shouldCompressMessage now n w).2 in
  (adaptive_compression_ w = false -> w' = w) /\
  (adaptive_compression_ w = true -> w' = cleanupOldSpeedHistory now w) /\
  sublist (network_speed_history_ w') (network_speed_history_ w).
Proof.
  unfold shouldCompressMessage. destruct (adaptive_compression_ w); cbn.
  - repeat split; try done. apply cleanup_sublist.
  - repeat split; done.
Qed.

Lemma handleError_reported text w :
  reported (effects (handleError text w))
  = reported (effects w) ++ (if error_callback_ w then [text] else []).
Proof.
  rewrite handleError_effects, reported_app. by destruct (error_callback_ w).
Qed.

Lemma emit_send_reported seg more res w :
  reported (effects (emit (SocketSend seg more res) w)) = reported (effects w).
Proof. cbn. rewrite reported_app. apply app_nil_r. Qed.

Lemma windowed_byte_total_app now h h' :
  windowed_byte_total now (h ++ h')
  = windowed_byte_total now h + windowed_byte_total now h'.
Proof.
  unfold windowed_byte_total. rewrite filter_app, foldr_app.
  generalize (filter (fun s : Z * Z => now - seconds 1 <= s.1) h') as l'.
  generalize (filter (fun s : Z * Z => now - seconds 1 <= s.1) h) as l.
  intros l l'. induction l as [| [t b] l IH]; cbn; [lia |]. rewrite IH. lia.
Qed.

Lemma windowed_byte_total_nonneg now h :
  Forall (fun s : Z * Z => 0 <= s.2) h -> 0 <= windowed_byte_total now h.
Proof.
  intros Hf. unfold windowed_byte_total.
  induction Hf as [| [t b] h Hb Hf IH]; [done |].
  rewrite filter_cons. destruct (decide _); cbn in *; lia.
Qed.

Section Sends.
Context (lib : Codecs).

Lemma prepare_history env m w :
  network_speed_history_ (prepare lib env m w).2
  = network_speed_history_
      (shouldCompressMessage (speed_now env) (Z.of_nat (length (payload m))) w).2.
Proof.
  unfold prepare.
  destruct (shouldCompressMessage _ _ w) as [should w1]. cbn [snd].
  destruct should; [| done].
  destruct (compressData _ _ _ _ _ w1) as [compressed_size buffer].
  by destruct (_ && _).
Qed.

(** What a send reports: nothing when it goes through, one text when it
    does not. *)
Lemma sendMessage_reports env m w :
  let r := sendMessage lib env m w in
  exists text,
    reported (effects r.2)
    = reported (effects w)
      ++ (if r.1 then [] else if error_callback_ w then [text] else []).
Proof.
  cbn zeta. unfold sendMessage.
  destruct (connected_ w); cbn [negb fst snd].
  2:{ eexists. apply handleError_reported. }
  destruct (Z.ltb_spec (max_message_size_ w) (size (header m))); cbn [fst snd].
  { eexists. apply handleError_reported. }
  pose proof (prepare_frame lib env m w) as (He & Hs & _).
  assert (Hcb : error_callback_ (prepare lib env m w).2 = error_callback_ w).
  { unfold settings in Hs. congruence. }
  destruct (prepare lib env m w) as [msg w2]. cbn [fst snd] in *.
  destruct (header_result env); [destruct (payload_result env) |..]; cbn [fst snd].
  1:{ exists "". cbn [effects updateNetworkSpeed set_history].
      by rewrite !emit_send_reported, He, app_nil_r. }
  all: eexists; rewrite handleError_reported, !emit_send_reported, He.
  all: cbn [error_callback_ emit]; by rewrite Hcb.
Qed.

(** [sendMessage] returns true exactly when the transport is connected,
    [header.size] is within the limit and the socket takes both
    segments.  A send that goes through reports nothing; one that does
    not reports one error, handed to the error callback when one is
    registered. *)
Theorem send_outcome env m w :
  let r := sendMessage lib env m w in
  (r.1 = true <->
   connected_ w = true /\ size (header m) <= max_message_size_ w /\
   header_result env = Sent /\ payload_result env = Sent) /\
  (r.1 = true -> reported (effects r.2) = reported (effects w)) /\
  (r.1 = false ->
   exists text,
     reported (effects r.2)
     = reported (effects w) ++ (if error_callback_ w then [text] else [])).
Proof.
  intros r. split; [| split].
  - split.
    + intros Hok. destruct (sendMessage_accepted lib env m w Hok) as (Hc & Hs & _).
      split; [done |]. split; [done |].
      revert Hok. unfold r, sendMessage. rewrite Hc. cbn [negb].
      destruct (Z.ltb_spec (max_message_size_ w) (size (header m))); [lia |].
      destruct (prepare lib env m w) as [msg w2].
      destruct (header_result env); [| done..].
      by destruct (payload_result env).
    + intros (Hc & Hs & Hh & Hp). by apply sendMessage_sends.
  - intros Hok. destruct (sendMessage_reports env m w) as (text & Hr).
    cbn zeta in Hr. fold r in Hr. rewrite Hok in Hr. by rewrite Hr, app_nil_r.
  - intros Hno. destruct (sendMessage_reports env m w) as (text & Hr).
    cbn zeta in Hr. fold r in Hr. rewrite Hno in Hr. by exists text.
Qed.

(** The history after a send: the sample of a send that went through is
    appended, behind what [shouldCompressMessage] left of the history;
    a send that failed appends nothing. *)
Lemma sendMessage_history env m w :
  let r := sendMessage lib env m w in
  let sent := (prepare lib env m w).1 in
  let sample :=
    (sent_now env, u64 (sizeof_MessageHeader + Z.of_nat (length (payload sent)))) in
  (r.1 = true ->
   network_speed_history_ r.2
   = network_speed_history_
       (if adaptive_compression_ w then cleanupOldSpeedHistory (speed_now env) w else w)
     ++ [sample]) /\
  (r.1 = false ->
   sublist (network_speed_history_ r.2) (network_speed_history_ w)).
Proof.
  cbn zeta. unfold sendMessage.
  assert (Hfail : forall text w2,
            sublist (network_speed_history_ w2) (network_speed_history_ w) ->
            sublist (network_speed_history_ (handleError text w2))
                    (network_speed_history_ w)).
  { intros text w2 H. unfold handleError. by destruct (error_callback_ w2). }
  destruct (connected_ w); cbn [negb].
  2:{ cbn [fst snd]. split; [done |]. intros _. by apply Hfail. }
  destruct (Z.ltb_spec (max_message_size_ w) (size (header m))).
  { cbn [fst snd]. split; [done |]. intros _. by apply Hfail. }
  pose proof (prepare_history env m w) as Hh.
  pose proof (shouldCompressMessage_history (speed_now env)
                (Z.of_nat (length (payload m))) w) as (Hoff & Hon & Hsub).
  cbn zeta in Hoff, Hon, Hsub. rewrite <- Hh in Hsub.
  destruct (prepare lib env m w) as [msg w2]. cbn [fst snd] in *.
  destruct (header_result env); [destruct (payload_result env) |..]; cbn [fst snd].
  1:{ split; [| done]. intros _.
      cbn [network_speed_history_ updateNetworkSpeed set_history emit].
      rewrite Hh. destruct (adaptive_compression_ w); [by rewrite Hon | by rewrite Hoff]. }
  all: split; [done |]; intros _; by apply Hfail.
Qed.

(** Each send that goes through appends one sample to the throughput
    history: the time of the send and the 32 bytes of the header plus
    the length of the payload as it went out, compressed or not.  With
    adaptive compression off nothing is ever removed by a send; with it
    on, the samples older than a second are.  A send that fails appends
    nothing. *)
Theorem throughput_sample_per_send env m w :
  let r := sendMessage lib env m w in
  let sent := (prepare lib env m w).1 in
  let sample :=
    (sent_now env, u64 (sizeof_MessageHeader + Z.of_nat (length (payload sent)))) in
  (r.1 = true -> adaptive_compression_ w = false ->
   network_speed_history_ r.2 = network_speed_history_ w ++ [sample]) /\
  (r.1 = true -> adaptive_compression_ w = true ->
   network_speed_history_ r.2
   = filter (fun s : Z * Z => speed_now env - seconds 1 <= s.1)
            (network_speed_history_ w) ++ [sample]) /\
  (r.1 = false ->
   sublist (network_speed_history_ r.2) (network_speed_history_ w)).
Proof.
  intros r sent sample.
  destruct (sendMessage_history env m w) as (Hok & Hfail).
  cbn zeta in Hok, Hfail. fold r sent sample in Hok, Hfail.
  split; [| split; [| exact Hfail]].
  - intros Hr Ha. rewrite (Hok Hr), Ha. done.
  - intros Hr Ha. rewrite (Hok Hr), Ha.
    cbn [cleanupOldSpeedHistory network_speed_history_ set_history].
    by rewrite cleanup_keeps_window.
Qed.

(** A reading of the estimate taken within a second of a send that went
    through counts the bytes of that send: it is the windowed total of
    what the history held before plus header and payload, and so at
    least the 32 bytes of a header. *)
Theorem speed_counts_the_last_send env m w now :
  let r := sendMessage lib env m w in
  let before :=
    network_speed_history_
      (if adaptive_compression_ w then cleanupOldSpeedHistory (speed_now env) w else w) in
  let sent_bytes :=
    sizeof_MessageHeader + Z.of_nat (length (payload (prepare lib env m w).1)) in
  r.1 = true ->
  now - seconds 1 <= sent_now env ->
  Forall (fun s : Z * Z => 0 <= s.2) (network_speed_history_ w) ->
  windowed_byte_total now before + sent_bytes < 2 ^ 53 ->
  (getCurrentNetworkSpeed now r.2).1 = windowed_byte_total now before + sent_bytes /\
  sizeof_MessageHeader <= (getCurrentNetworkSpeed now r.2).1.
Proof.
  intros r before sent_bytes Hok Hnow Hnn Hsum.
  assert (Hbefore : Forall (fun s : Z * Z => 0 <= s.2) before).
  { unfold before. destruct (adaptive_compression_ w); [| done].
    cbn [cleanupOldSpeedHistory network_speed_history_ set_history].
    by apply remove_if_Forall. }
  pose proof (windowed_byte_total_nonneg now before Hbefore) as Hpos.
  assert (Hbytes : 0 <= sent_bytes - sizeof_MessageHeader) by (unfold sent_bytes; lia).
  destruct (sendMessage_history env m w) as (Hsample & _).
  cbn zeta in Hsample. specialize (Hsample Hok). fold r before sent_bytes in Hsample.
  assert (Htotal : windowed_byte_total now (network_speed_history_ r.2)
                   = windowed_byte_total now before + sent_bytes).
  { rewrite Hsample, windowed_byte_total_app. f_equal.
    unfold windowed_byte_total. rewrite filter_cons, decide_True by done.
    rewrite filter_nil. cbn. rewrite Z.add_0_r. apply u64_small.
    unfold sizeof_MessageHeader in *. lia. }
  rewrite getCurrentNetworkSpeed_eq. cbn [fst]. rewrite Htotal.
  unfold sizeof_MessageHeader in *.
  rewrite u64_small, to_double_exact by lia. lia.
Qed.

End Sends.
End SendFacts.

(** ** Receiving: statistics, delivery, counting *)

Module ReceiveFacts.
Import Int Protocol Zmq Spec IntFacts ZmqFacts WorkerFacts SendFacts.

Lemma u32_small n : 0 <= n < 2 ^ 32 -> u32 n = n.
Proof. intros H. unfold u32, wrap. apply Z.mod_small. lia. Qed.

Lemma s32_small n : 0 <= n < 2 ^ 31 -> s32 n = n.
Proof. intros H. unfold s32, wrap. rewrite Z.mod_small; lia. Qed.

Lemma handleError_unwritten e w :
  unwritten (compression_stats_ (handleError e w)) = unwritten (compression_stats_ w).
Proof. by rewrite handleError_stats. Qed.

Lemma handleMessage_stats m w :
  compression_stats_ (handleMessage m w) = compression_stats_ w.
Proof. unfold handleMessage. by destruct (message_callback_ w). Qed.

Lemma handleMessage_received m w :
  messages_received_ (handleMessage m w) = messages_received_ w.
Proof. unfold handleMessage. by destruct (message_callback_ w). Qed.

Lemma handleMessage_reported m w :
  reported (effects (handleMessage m w)) = reported (effects w).
Proof.
  unfold handleMessage. destruct (message_callback_ w); [| done].
  cbn. rewrite reported_app. apply app_nil_r.
Qed.

Lemma handleMessage_delivers m w :
  delivered (effects (handleMessage m w))
  = delivered (effects w) ++ (if message_callback_ w then [m] else []).
Proof.
  unfold handleMessage. destruct (message_callback_ w); cbn.
  - by rewrite delivered_app.
  - by rewrite app_nil_r.
Qed.

Lemma emit_recv_delivered b w :
  delivered (effects (emit (SocketRecv b) w)) = delivered (effects w).
Proof. cbn. rewrite delivered_app. apply app_nil_r. Qed.

Lemma emit_sleep_delivered ms w :
  delivered (effects (emit (SleepFor ms) w)) = delivered (effects w).
Proof. cbn. rewrite delivered_app. apply app_nil_r. Qed.

Lemma emit_recv_reported b w :
  reported (effects (emit (SocketRecv b) w)) = reported (effects w).
Proof. cbn. rewrite reported_app. apply app_nil_r. Qed.

Lemma emit_sleep_reported ms w :
  reported (effects (emit (SleepFor ms) w)) = reported (effects w).
Proof. cbn. rewrite reported_app. apply app_nil_r. Qed.

Section Receives.
Context (lib : Codecs).

(** *** The counters nothing writes *)

Lemma prepare_unwritten env m w :
  unwritten (compression_stats_ (prepare lib env m w).2)
  = unwritten (compression_stats_ w).
Proof.
  unfold prepare.
  pose proof (shouldCompressMessage_frame (speed_now env)
                (Z.of_nat (length (payload m))) w) as (_ & _ & Hc & _).
  destruct (shouldCompressMessage _ _ w) as [should w1]. cbn [snd] in *.
  rewrite <- Hc.
  destruct should; [| done].
  destruct (compressData _ _ _ _ _ w1) as [compressed_size buffer].
  by destruct (_ && _).
Qed.

Lemma sendMessage_unwritten env m w :
  unwritten (compression_stats_ (sendMessage lib env m w).2)
  = unwritten (compression_stats_ w).
Proof.
  unfold sendMessage.
  destruct (connected_ w); cbn [negb snd]; [| apply handleError_unwritten].
  destruct (Z.ltb_spec (max_message_size_ w) (size (header m)));
    [apply handleError_unwritten |].
  pose proof (prepare_unwritten env m w) as Hp.
  destruct (prepare lib env m w) as [msg w2]. cbn [snd] in *.
  destruct (header_result env); [destruct (payload_result env) |..]; cbn [snd];
    rewrite ?handleError_unwritten; exact Hp.
Qed.

Lemma heartbeat_if_due_unwritten env w :
  unwritten (compression_stats_ (heartbeat_if_due lib env w))
  = unwritten (compression_stats_ w).
Proof.
  unfold heartbeat_if_due. destruct (_ <=? _); [| done].
  match goal with |- context [sendMessage lib ?e ?m w] =>
    pose proof (sendMessage_unwritten e m w) as Hs;
    destruct (sendMessage lib e m w) as [ok w1] end.
  cbn [snd] in Hs. by destruct ok.
Qed.

Lemma process_unwritten env hdr bytes w :
  unwritten (compression_stats_ (wrapper_of (process lib env hdr bytes w)))
  = unwritten (compression_stats_ w).
Proof.
  unfold process, deliver.
  destruct (decide (compression hdr <> NONE)); cbn [wrapper_of].
  - destruct (decompressData _ _ _ _ _ w) as [dsize buffer].
    destruct (0 <? dsize); [destruct (resize_throws dsize) |]; cbn [wrapper_of].
    + done.
    + cbn [compression_stats_ set_messages_received]. by rewrite handleMessage_stats.
    + cbn [compression_stats_ count_decompression_failure set_stats unwritten].
      by rewrite handleError_stats.
  - cbn [compression_stats_ set_messages_received]. by rewrite handleMessage_stats.
Qed.

Lemma receive_unwritten env w :
  unwritten (compression_stats_ (wrapper_of (receive lib env w)))
  = unwritten (compression_stats_ w).
Proof.
  unfold receive, worker_error.
  destruct (recv_header env) as [| hdr | what]; cbn [wrapper_of].
  - done.
  - destruct (recv_payload env) as [| bytes | what]; cbn [wrapper_of].
    + by rewrite handleError_unwritten.
    + by rewrite process_unwritten.
    + cbn [compression_stats_ emit]. by rewrite handleError_unwritten.
  - cbn [compression_stats_ emit]. by rewrite handleError_unwritten.
Qed.

Lemma worker_turn_unwritten env w :
  unwritten (compression_stats_ (wrapper_of (worker_turn lib env w)))
  = unwritten (compression_stats_ w).
Proof.
  unfold worker_turn. by rewrite receive_unwritten, heartbeat_if_due_unwritten.
Qed.

(** Three of the statistics [getCompressionStats] returns are written
    nowhere: whatever the worker thread receives and whatever is sent,
    [messages_decompressed], [compression_failures] and
    [average_decompression_time] keep the value they had. *)
Theorem unused_counters_never_written envs env m w :
  let s := getCompressionStats w in
  let after_worker := getCompressionStats (wrapper_of (workerThread lib envs w)) in
  let after_send := getCompressionStats (sendMessage lib env m w).2 in
  (messages_decompressed after_worker = messages_decompressed s /\
   compression_failures after_worker = compression_failures s /\
   average_decompression_time after_worker = average_decompression_time s) /\
  (messages_decompressed after_send = messages_decompressed s /\
   compression_failures after_send = compression_failures s /\
   average_decompression_time after_send = average_decompression_time s).
Proof.
  intros s after_worker after_send.
  assert (Hw : unwritten (compression_stats_ (wrapper_of (workerThread lib envs w)))
               = unwritten (compression_stats_ w)).
  { clear. revert w.
    induction envs as [| e envs IH]; intros w; cbn [workerThread]; [done |].
    destruct (should_stop e); [done |].
    pose proof (worker_turn_unwritten e w) as Ht.
    destruct (worker_turn lib e w) as [w' | w']; cbn [wrapper_of] in *; [| done].
    by rewrite IH. }
  pose proof (sendMessage_unwritten env m w) as Hs.
  unfold unwritten in Hw, Hs. unfold after_worker, after_send, s, getCompressionStats.
  cbn [messages_decompressed compression_failures average_decompression_time].
  split; repeat split; congruence.
Qed.

(** *** Delivery *)

(** A heartbeat has no payload to compress: the statistics stay. *)
Lemma heartbeat_if_due_stats env w :
  compression_stats_ (heartbeat_if_due lib env w) = compression_stats_ w.
Proof.
  unfold heartbeat_if_due. destruct (_ <=? _); [| done].
  set (heartbeat := mkMessage _ []).
  assert (Hsend : compression_stats_ (sendMessage lib (heartbeat_env env) heartbeat w).2
                  = compression_stats_ w).
  { unfold sendMessage.
    destruct (connected_ w); cbn [negb snd]; [| apply handleError_stats].
    destruct (_ <? _); cbn [snd]; [apply handleError_stats |].
    unfold prepare. cbn [payload heartbeat length].
    pose proof (shouldCompressMessage_frame (speed_now (heartbeat_env env)) 0 w)
      as (_ & _ & Hstats & _).
    assert (Hno : (shouldCompressMessage (speed_now (heartbeat_env env)) 0 w).1 = false).
    { unfold shouldCompressMessage. by destruct (adaptive_compression_ w). }
    change (Z.of_nat 0) with 0.
    destruct (shouldCompressMessage (speed_now (heartbeat_env env)) 0 w) as [should w1].
    cbn [fst snd] in *. subst should.
    destruct (header_result (heartbeat_env env));
      [destruct (payload_result (heartbeat_env env)) |..];
      cbn [snd]; rewrite ?handleError_stats; exact Hstats. }
  destruct (sendMessage lib (heartbeat_env env) heartbeat w) as [ok w1].
  cbn [snd] in Hsend. by destruct ok.
Qed.

Lemma deliver_counts msg w :
  let w' := wrapper_of (deliver msg w) in
  delivered (effects w')
  = delivered (effects w) ++ (if message_callback_ w then [msg] else []) /\
  messages_received_ w' = u64 (messages_received_ w + 1) /\
  compression_stats_ w' = compression_stats_ w.
Proof.
  unfold deliver.
  cbn [wrapper_of effects set_messages_received messages_received_ compression_stats_].
  by rewrite handleMessage_delivers, handleMessage_received, handleMessage_stats.
Qed.

(** The turn in which a compressed message arrives that the decoder
    accepts. *)
Lemma worker_turn_decompressed env hdr bytes w dsize buffer :
  recv_header env = Got hdr -> recv_payload env = Got bytes ->
  compression hdr <> NONE ->
  decompressData lib bytes (Z.of_nat (length bytes))
                 (vector_of_size (size hdr)) (size hdr) w = (dsize, buffer) ->
  0 < dsize <= vector_max_size ->
  worker_turn lib env w
  = deliver (mkMessage (set_compression NONE hdr) (vector_resize dsize buffer))
      (updateCompressionStats dsize (Z.of_nat (length bytes))
         (to_microseconds (decompress_end env - decompress_start env))
         (emit (SocketRecv false)
            (emit (SocketRecv true) (heartbeat_if_due lib env w)))).
Proof.
  intros Hh Hp Hc Hd Hsize.
  pose proof (heartbeat_if_due_frame lib env w) as (Hs & _).
  set (w3 := emit (SocketRecv false) (emit (SocketRecv true) (heartbeat_if_due lib env w))).
  assert (Hset : settings w3 = settings w) by (rewrite <- Hs; done).
  unfold worker_turn, receive. rewrite Hh, Hp. fold w3. unfold process.
  destruct (decide (compression hdr <> NONE)); [| done].
  rewrite (decompressData_settings lib _ _ _ _ w w3 Hset), Hd.
  destruct (Z.ltb_spec 0 dsize); [| lia].
  unfold resize_throws. destruct (Z.ltb_spec vector_max_size dsize); [lia |].
  rewrite vector_resize_length by lia. done.
Qed.

Lemma decompressed_turn_delivers env hdr bytes w dsize buffer :
  recv_header env = Got hdr -> recv_payload env = Got bytes ->
  compression hdr <> NONE ->
  decompressData lib bytes (Z.of_nat (length bytes))
                 (vector_of_size (size hdr)) (size hdr) w = (dsize, buffer) ->
  0 < dsize <= vector_max_size ->
  message_callback_ w = true ->
  exists w',
    worker_turn lib env w = Continues w' /\
    delivered (effects w')
    = delivered (effects w)
      ++ [mkMessage (set_compression NONE hdr) (vector_resize dsize buffer)].
Proof.
  intros Hh Hp Hc Hd Hsize Hcb.
  rewrite (worker_turn_decompressed env hdr bytes w dsize buffer) by done.
  pose proof (heartbeat_if_due_frame lib env w) as (Hs & _ & He & _).
  cbn zeta in Hs, He.
  eexists. split; [reflexivity |].
  cbn [effects set_messages_received]. rewrite handleMessage_delivers.
  cbn [message_callback_ updateCompressionStats set_stats emit effects].
  replace (message_callback_ (heartbeat_if_due lib env w)) with true
    by (unfold settings in Hs; congruence).
  f_equal.
  change (delivered (effects (emit (SocketRecv false)
                                (emit (SocketRecv true) (heartbeat_if_due lib env w))))
          = delivered (effects w)).
  by rewrite !emit_recv_delivered.
Qed.

(** For an inbound message whose header does not say [NONE] the worker
    runs the codec its own [compression_type_] selects: which codec the
    header names makes no difference to what happens. *)
Theorem receiver_ignores_codec_label env hdr c c' bytes w :
  c <> NONE -> c' <> NONE ->
  process lib env (set_compression c hdr) bytes w
  = process lib env (set_compression c' hdr) bytes w.
Proof.
  intros Hc Hc'. unfold process. cbn [compression set_compression size].
  destruct (decide (c <> NONE)); [| done].
  destruct (decide (c' <> NONE)); [| done].
  done.
Qed.

(** When [decompressData] returns a size above zero (and one a vector
    can have), the message is handed to the message callback with its
    [compression] reset to [NONE] and the decompressed bytes as payload,
    and [messages_received_] goes up by one.  The statistics count it as
    a compression: [messages_compressed] goes up by one,
    [total_bytes_before] by the decompressed size, [total_bytes_after]
    by the compressed one, and [messages_decompressed] stays. *)
Theorem decompressed_message_delivered env hdr bytes w dsize buffer :
  recv_header env = Got hdr -> recv_payload env = Got bytes ->
  compression hdr <> NONE ->
  decompressData lib bytes (Z.of_nat (length bytes))
                 (vector_of_size (size hdr)) (size hdr) w = (dsize, buffer) ->
  0 < dsize <= vector_max_size ->
  exists w',
    worker_turn lib env w = Continues w' /\
    delivered (effects w')
    = delivered (effects w)
      ++ (if message_callback_ w
          then [mkMessage (set_compression NONE hdr) (vector_resize dsize buffer)]
          else []) /\
    messages_received_ w' = u64 (messages_received_ w + 1) /\
    let s := compression_stats_ w in
    let s' := compression_stats_ w' in
    messages_compressed s' = u64 (messages_compressed s + 1) /\
    messages_decompressed s' = messages_decompressed s /\
    total_bytes_before s' = u64 (total_bytes_before s + dsize) /\
    total_bytes_after s' = u64 (total_bytes_after s + Z.of_nat (length bytes)).
Proof.
  intros Hh Hp Hc Hd Hsize.
  rewrite (worker_turn_decompressed env hdr bytes w dsize buffer) by done.
  pose proof (heartbeat_if_due_frame lib env w) as (Hs & _ & He & Hr).
  cbn zeta in Hs, He, Hr.
  match goal with |- context [deliver ?m ?v] =>
    destruct (deliver_counts m v) as (Hdel & Hrec & Hstats);
    exists (wrapper_of (deliver m v)) end.
  cbn zeta in Hdel, Hrec, Hstats. split; [done |].
  rewrite Hdel, Hrec, Hstats.
  cbn [message_callback_ messages_received_ updateCompressionStats set_stats emit
       effects compression_stats_ messages_compressed messages_decompressed
       total_bytes_before total_bytes_after].
  replace (message_callback_ (heartbeat_if_due lib env w)) with (message_callback_ w)
    by (unfold settings in Hs; congruence).
  rewrite Hr, heartbeat_if_due_stats. split; [| done]. f_equal.
  change (delivered (effects (emit (SocketRecv false)
                                (emit (SocketRecv true) (heartbeat_if_due lib env w))))
          = delivered (effects w)).
  by rewrite !emit_recv_delivered.
Qed.

(** *** Counting *)

Lemma process_counts env hdr bytes w :
  message_callback_ w = true -> 0 <= messages_received_ w < 2 ^ 64 ->
  let w' := wrapper_of (process lib env hdr bytes w) in
  exists ms,
    delivered (effects w') = delivered (effects w) ++ ms /\
    messages_received_ w' = u64 (messages_received_ w + Z.of_nat (length ms)).
Proof.
  intros Hcb Hrange. unfold process.
  destruct (decide (compression hdr <> NONE)).
  - destruct (decompressData _ _ _ _ _ w) as [dsize buffer].
    destruct (0 <? dsize); [destruct (resize_throws dsize) |]; cbn [wrapper_of].
    + exists []. cbn. by rewrite app_nil_r, Z.add_0_r, u64_small.
    + match goal with |- context [deliver ?m ?v] =>
        destruct (deliver_counts m v) as (Hd & Hr & _); exists [m] end.
      cbn zeta in Hd, Hr. rewrite Hd, Hr.
      cbn [message_callback_ updateCompressionStats set_stats effects
           messages_received_].
      by rewrite Hcb.
    + exists []. cbn [count_decompression_failure set_stats effects messages_received_].
      rewrite handleError_delivered, handleError_received, app_nil_r.
      cbn. by rewrite Z.add_0_r, u64_small.
  - destruct (deliver_counts (mkMessage hdr bytes) w) as (Hd & Hr & _).
    exists [mkMessage hdr bytes]. cbn zeta in Hd, Hr. by rewrite Hd, Hr, Hcb.
Qed.

Lemma worker_turn_counts env w :
  message_callback_ w = true -> 0 <= messages_received_ w < 2 ^ 64 ->
  let w' := wrapper_of (worker_turn lib env w) in
  exists ms,
    delivered (effects w') = delivered (effects w) ++ ms /\
    messages_received_ w' = u64 (messages_received_ w + Z.of_nat (length ms)).
Proof.
  intros Hcb Hrange.
  pose proof (heartbeat_if_due_frame lib env w) as (Hs & _ & He & Hr).
  cbn zeta in Hs, He, Hr.
  unfold worker_turn, receive, worker_error. rewrite <- He, <- Hr. rewrite <- Hr in Hrange.
  set (w1 := heartbeat_if_due lib env w) in *.
  assert (Hcb1 : message_callback_ w1 = true).
  { unfold settings in Hs. congruence. }
  assert (Hzero : messages_received_ w1 = u64 (messages_received_ w1 + Z.of_nat 0)).
  { cbn. by rewrite Z.add_0_r, u64_small. }
  destruct (recv_header env) as [| hdr | what]; cbn [wrapper_of].
  - exists []. cbn [messages_received_ emit length].
    by rewrite emit_sleep_delivered, emit_recv_delivered, app_nil_r.
  - destruct (recv_payload env) as [| bytes | what]; cbn [wrapper_of].
    + exists []. rewrite handleError_delivered, handleError_received.
      cbn [messages_received_ emit length]. by rewrite !emit_recv_delivered, app_nil_r.
    + destruct (process_counts env hdr bytes
                  (emit (SocketRecv false) (emit (SocketRecv true) w1)) Hcb1 Hrange)
        as (ms & Hd & Hm).
      exists ms. cbn zeta in Hd, Hm. rewrite Hd, Hm. cbn [messages_received_ emit].
      by rewrite !emit_recv_delivered.
    + exists []. cbn [messages_received_ emit length].
      rewrite emit_sleep_delivered, handleError_delivered, handleError_received.
      cbn [messages_received_ emit]. by rewrite !emit_recv_delivered, app_nil_r.
  - exists []. cbn [messages_received_ emit length].
    rewrite emit_sleep_delivered, handleError_delivered, handleError_received.
    cbn [messages_received_ emit]. by rewrite !emit_recv_delivered, app_nil_r.
Qed.

(** With a message callback registered, [messages_received_] goes up
    over a run of the worker thread by the number of messages the
    callback was handed, modulo 2^64; what was handed over before stays
    in front. *)
Theorem received_counts_deliveries envs w :
  message_callback_ w = true -> 0 <= messages_received_ w < 2 ^ 64 ->
  let w' := wrapper_of (workerThread lib envs w) in
  exists ms,
    delivered (effects w') = delivered (effects w) ++ ms /\
    messages_received_ w' = u64 (messages_received_ w + Z.of_nat (length ms)).
Proof.
  revert w. induction envs as [| env envs IH]; intros w Hcb Hrange; cbn [workerThread].
  { exists []. cbn. rewrite app_nil_r, Z.add_0_r, u64_small; done. }
  destruct (should_stop env).
  { exists []. cbn. rewrite app_nil_r, Z.add_0_r, u64_small; done. }
  destruct (worker_turn_counts env w Hcb Hrange) as (ms & Hd & Hm).
  pose proof (worker_turn_settings lib env w) as Hs.
  cbn zeta in Hd, Hm.
  destruct (worker_turn lib env w) as [w1 | w1]; cbn [wrapper_of] in *.
  2:{ by exists ms. }
  destruct (IH w1) as (ms' & Hd' & Hm').
  { unfold settings in Hs. congruence. }
  { rewrite Hm. apply u64_range. }
  exists (ms ++ ms'). cbn zeta in Hd', Hm'.
  rewrite Hd', Hd, Hm', Hm, u64_add_l, length_app, <- app_assoc.
  split; [done |]. f_equal. lia.
Qed.

(** *** A transport without callbacks *)

Lemma heartbeat_if_due_reported env w :
  error_callback_ w = false ->
  reported (effects (heartbeat_if_due lib env w)) = reported (effects w).
Proof.
  intros Hcb. unfold heartbeat_if_due. destruct (_ <=? _); [| done].
  match goal with |- context [sendMessage lib ?e ?m w] =>
    destruct (sendMessage_reports lib e m w) as (text & Hr);
    destruct (sendMessage lib e m w) as [ok w1] end.
  cbn [fst snd] in *. rewrite Hcb in Hr.
  destruct ok; cbn [effects set_last_heartbeat]; by rewrite Hr, app_nil_r.
Qed.

Lemma process_reported env hdr bytes w :
  error_callback_ w = false ->
  reported (effects (wrapper_of (process lib env hdr bytes w))) = reported (effects w).
Proof.
  intros Hcb. unfold process, deliver.
  destruct (decide (compression hdr <> NONE)); cbn [wrapper_of].
  - destruct (decompressData _ _ _ _ _ w) as [dsize buffer].
    destruct (0 <? dsize); [destruct (resize_throws dsize) |]; cbn [wrapper_of].
    + done.
    + cbn [effects set_messages_received]. by rewrite handleMessage_reported.
    + cbn [effects count_decompression_failure set_stats].
      by rewrite handleError_reported, Hcb, app_nil_r.
  - cbn [effects set_messages_received]. by rewrite handleMessage_reported.
Qed.

Lemma process_delivered env hdr bytes w :
  message_callback_ w = false ->
  delivered (effects (wrapper_of (process lib env hdr bytes w))) = delivered (effects w).
Proof.
  intros Hcb. unfold process.
  destruct (decide (compression hdr <> NONE)).
  - destruct (decompressData _ _ _ _ _ w) as [dsize buffer].
    destruct (0 <? dsize); [destruct (resize_throws dsize) |]; cbn [wrapper_of].
    + done.
    + match goal with |- context [deliver ?m ?v] =>
        destruct (deliver_counts m v) as (Hd & _) end.
      cbn zeta in Hd. rewrite Hd.
      cbn [message_callback_ updateCompressionStats set_stats effects].
      by rewrite Hcb, app_nil_r.
    + cbn [effects count_decompression_failure set_stats].
      by rewrite handleError_delivered.
  - destruct (deliver_counts (mkMessage hdr bytes) w) as (Hd & _).
    cbn zeta in Hd. by rewrite Hd, Hcb, app_nil_r.
Qed.

Lemma worker_turn_silent env w :
  message_callback_ w = false -> error_callback_ w = false ->
  let w' := wrapper_of (worker_turn lib env w) in
  delivered (effects w') = delivered (effects w) /\
  reported (effects w') = reported (effects w).
Proof.
  intros Hm Hcb.
  pose proof (heartbeat_if_due_frame lib env w) as (Hs & _ & He & _).
  pose proof (heartbeat_if_due_reported env w Hcb) as Hr.
  cbn zeta in Hs, He. unfold worker_turn, receive, worker_error. rewrite <- Hr, <- He.
  set (w1 := heartbeat_if_due lib env w) in *.
  assert (Hcb1 : error_callback_ w1 = false).
  { unfold settings in Hs. congruence. }
  assert (Hm1 : message_callback_ w1 = false).
  { unfold settings in Hs. congruence. }
  destruct (recv_header env) as [| hdr | what]; cbn [wrapper_of].
  - by rewrite emit_sleep_reported, emit_recv_reported, emit_sleep_delivered,
               emit_recv_delivered.
  - destruct (recv_payload env) as [| bytes | what]; cbn [wrapper_of].
    + rewrite handleError_reported, handleError_delivered. cbn [error_callback_ emit].
      by rewrite Hcb1, app_nil_r, !emit_recv_reported, !emit_recv_delivered.
    + rewrite process_reported, process_delivered by done.
      by rewrite !emit_recv_reported, !emit_recv_delivered.
    + rewrite emit_sleep_reported, emit_sleep_delivered, handleError_reported,
              handleError_delivered.
      cbn [error_callback_ emit].
      by rewrite Hcb1, app_nil_r, !emit_recv_reported, !emit_recv_delivered.
  - rewrite emit_sleep_reported, emit_sleep_delivered, handleError_reported,
            handleError_delivered.
    cbn [error_callback_ emit].
    by rewrite Hcb1, app_nil_r, !emit_recv_reported, !emit_recv_delivered.
Qed.

(** With no callback registered nothing reaches the application. *)
Lemma silent_without_callbacks envs w :
  message_callback_ w = false -> error_callback_ w = false ->
  let w' := wrapper_of (workerThread lib envs w) in
  delivered (effects w') = delivered (effects w) /\
  reported (effects w') = reported (effects w).
Proof.
  revert w. induction envs as [| env envs IH]; intros w Hm He; cbn [workerThread].
  { done. }
  destruct (should_stop env); [done |].
  destruct (worker_turn_silent env w Hm He) as (Hd & Hr).
  pose proof (worker_turn_settings lib env w) as Hs.
  cbn zeta in Hd, Hr.
  destruct (worker_turn lib env w) as [w1 | w1]; cbn [wrapper_of] in *; [| done].
  destruct (IH w1) as (Hd' & Hr').
  { unfold settings in Hs. congruence. }
  { unfold settings in Hs. congruence. }
  cbn zeta in Hd', Hr'. by rewrite Hd', Hr', Hd, Hr.
Qed.

Lemma invoke_keeps_transport methods s :
  Server.zmq_ (foldl Server.invoke s methods) = Server.zmq_ s.
Proof.
  revert s. induction methods as [| m methods IH]; intros s; [done |].
  cbn [foldl]. rewrite IH. by destruct m.
Qed.

(** The server constructs its transport, starts the worker, and
    registers no callback, then or in [start()] or [stop()]: whatever
    arrives at the transport (when there is a socket for the worker to
    read), no message and no error text is handed on. *)
Theorem server_handles_nothing now o methods envs :
  let s := foldl Server.invoke (Server.construct now o) methods in
  let w := Lifecycle.transport (Server.zmq_ s) in
  let w' := wrapper_of (workerThread lib envs w) in
  Lifecycle.worker_thread_joinable (Server.zmq_ s) = true /\
  message_callback_ w = false /\ error_callback_ w = false /\
  (Lifecycle.socket_ (Server.zmq_ s) = true ->
   delivered (effects w') = [] /\ reported (effects w') = []).
Proof.
  intros s w w'. unfold w', w, s. rewrite invoke_keeps_transport.
  split; [by destruct o |]. split; [by destruct o |]. split; [by destruct o |].
  intros _.
  set (w0 := Lifecycle.transport (Server.zmq_ (Server.construct now o))).
  destruct (silent_without_callbacks envs w0) as (Hd & Hr); [by destruct o.. |].
  cbn zeta in Hd, Hr. rewrite Hd, Hr. by destruct o.
Qed.

End Receives.
End ReceiveFacts.

(** ** From one endpoint to the other *)

Module RoundTripFacts.
Import Int Protocol Zmq Spec IntFacts ZmqFacts WorkerFacts SendFacts ReceiveFacts.

Section RoundTrip.
Context (lib : Codecs).

(** What the zlib branches return when the library finishes the stream
    within the buffer. *)
Lemma compressData_deflated (p out : list byte) w :
  let n := Z.of_nat (length p) in
  compression_type_ w <> LZ4 -> n < 2 ^ 32 -> Z.of_nat (length out) < 2 ^ 64 ->
  deflate lib (zlib_level (compression_level_ w)) p n = Ran true out ->
  compressData lib p n (vector_of_size n) n w
  = (Z.of_nat (length out), written_into (vector_of_size n) out).
Proof.
  intros n Ht Hn Ho Hd. unfold compressData.
  destruct (decide (compression_type_ w = LZ4)); [done |].
  rewrite u32_small by lia.
  replace (take (Z.to_nat n) p) with p
    by (unfold n; rewrite Nat2Z.id; symmetry; apply firstn_all).
  rewrite Hd. cbn [negb]. f_equal.
  replace (n - (n - Z.of_nat (length out))) with (Z.of_nat (length out)) by lia.
  apply u64_small. lia.
Qed.

Lemma decompressData_inflated (bytes p : list byte) capacity w :
  compression_type_ w <> LZ4 ->
  Z.of_nat (length bytes) < 2 ^ 32 -> 0 <= capacity < 2 ^ 32 ->
  Z.of_nat (length p) < 2 ^ 64 ->
  inflate lib bytes capacity = Ran true p ->
  decompressData lib bytes (Z.of_nat (length bytes)) (vector_of_size capacity) capacity w
  = (Z.of_nat (length p), written_into (vector_of_size capacity) p).
Proof.
  intros Ht Hb Hc Hp Hi. unfold decompressData.
  destruct (decide (compression_type_ w = LZ4)); [done |].
  rewrite !u32_small by lia.
  replace (take (Z.to_nat (Z.of_nat (length bytes))) bytes) with bytes
    by (rewrite Nat2Z.id; symmetry; apply firstn_all).
  rewrite Hi. cbn [negb]. f_equal.
  replace (capacity - (capacity - Z.of_nat (length p))) with (Z.of_nat (length p)) by lia.
  apply u64_small. lia.
Qed.

(** The label in the header and the codec that ran.  When a codec is
    pinned, or none is and the payload is below a mebibyte, the label
    [selectCompressionType] gives is the codec [compressData] runs: it is
    not [NONE], it is [LZ4] exactly when [compressData] takes its LZ4
    branch, [compressData] returns what it returns with the label
    pinned, and a receiver whose [compression_type_] is the label runs
    the decoder that goes with it. *)
Theorem label_names_the_codec_run input input_size output output_size n w :
  compression_type_ w <> NONE \/ n < 1024 * 1024 ->
  let label := selectCompressionType n w in
  label <> NONE /\
  (label = LZ4 <-> compression_type_ w = LZ4) /\
  compressData lib input input_size output output_size w
  = compressData lib input input_size output output_size (setCompressionType label w) /\
  forall bytes bytes_size buffer capacity r,
    compression_type_ r = label ->
    decompressData lib bytes bytes_size buffer capacity r
    = decompressData lib bytes bytes_size buffer capacity (setCompressionType label w).
Proof.
  intros Hpinned label.
  assert (Hlabel : label = match compression_type_ w with NONE => ZLIB | c => c end).
  { unfold label, selectCompressionType.
    destruct (compression_type_ w) eqn:Ht.
    - rewrite decide_False by (intros H; by apply H).
      destruct Hpinned as [Hp | Hn]; [done |].
      destruct (Z.ltb_spec n (1024 * 1024)); [done | lia].
    - by rewrite decide_True.
    - by rewrite decide_True. }
  rewrite Hlabel. unfold compressData, decompressData.
  cbn [compression_type_ compression_level_ setCompressionType].
  destruct (compression_type_ w) eqn:Ht.
  - split; [done |]. split; [done |]. split; [done |].
    intros bytes bytes_size buffer capacity r ->. done.
  - split; [done |]. split; [done |]. split; [done |].
    intros bytes bytes_size buffer capacity r ->. done.
  - split; [done |]. split; [done |]. split; [done |].
    intros bytes bytes_size buffer capacity r ->. done.
Qed.

Lemma message_restored (m : Message) c :
  compression (header m) = NONE ->
  mkMessage (set_compression NONE (set_compression c (header m))) (payload m) = m.
Proof. destruct m as [[t s q ts c'] p]. cbn. by intros ->. Qed.

(** Neither end set to LZ4, adaptive compression off at the sender: a
    message of more than 1024 bytes that [deflate] shrinks and that
    [inflate] restores within [header.size] bytes goes out compressed,
    under a header that does not say [NONE], and the message callback
    of the receiver is handed the message as it was passed to
    [sendMessage]. *)
Theorem zlib_round_trip senv renv m sender receiver out :
  let n := Z.of_nat (length (payload m)) in
  connected_ sender = true -> size (header m) <= max_message_size_ sender ->
  header_result senv = Sent -> payload_result senv = Sent ->
  compression_type_ sender <> LZ4 -> adaptive_compression_ sender = false ->
  compression (header m) = NONE -> 0 <= size (header m) < 2 ^ 32 ->
  1024 < n < 2 ^ 32 ->
  deflate lib (zlib_level (compression_level_ sender)) (payload m) n = Ran true out ->
  0 < Z.of_nat (length out) < n ->
  inflate lib out (size (header m)) = Ran true (payload m) ->
  compression_type_ receiver <> LZ4 -> message_callback_ receiver = true ->
  exists hdr,
    effects (sendMessage lib senv m sender).2
    = effects sender ++ [SocketSend (HeaderSegment hdr) true Sent;
                         SocketSend (PayloadSegment out) false Sent] /\
    compression hdr <> NONE /\
    (recv_header renv = Got hdr -> recv_payload renv = Got out ->
     exists r',
       worker_turn lib renv receiver = Continues r' /\
       delivered (effects r') = delivered (effects receiver) ++ [m]).
Proof.
  intros n Hconn Hsize Hh Hp Hst Hadapt Hnone Hrange Hn Hdeflate Hout Hinflate Hrt Hcb.
  subst n. set (n := Z.of_nat (length (payload m))) in Hn, Hout.
  pose proof (sendMessage_sends lib senv m sender Hconn Hsize Hh Hp) as Hok.
  destruct (sendMessage_accepted lib senv m sender Hok) as (_ & _ & Heff).
  cbn zeta in Heff.
  set (label := selectCompressionType (Z.of_nat (length (payload m))) sender).
  assert (Hprep : (prepare lib senv m sender).1
                  = mkMessage (set_compression label (header m)) out).
  { unfold prepare, shouldCompressMessage. rewrite Hadapt. cbn [negb].
    destruct (Z.ltb_spec 1024 (Z.of_nat (length (payload m)))); [| lia].
    rewrite (compressData_deflated (payload m) out sender) by (done || lia).
    destruct (Z.ltb_spec 0 (Z.of_nat (length out))); [| lia].
    destruct (Z.ltb_spec (Z.of_nat (length out)) (Z.of_nat (length (payload m))));
      [| lia].
    cbn [andb fst]. f_equal. apply vector_resize_written. }
  rewrite Hprep in Heff. cbn [header payload] in Heff.
  exists (set_compression label (header m)).
  split; [exact Heff |].
  assert (Hsel : label <> NONE).
  { unfold label, selectCompressionType.
    destruct (decide (compression_type_ sender <> NONE)); [done |].
    by destruct (_ <? 1024 * 1024). }
  split; [exact Hsel |].
  intros Hrh Hrp.
  destruct (decompressed_turn_delivers lib renv _ out receiver
              (Z.of_nat (length (payload m)))
              (written_into (vector_of_size (size (header m))) (payload m)) Hrh Hrp)
    as (r' & Hturn & Hdel).
  - exact Hsel.
  - cbn [size set_compression].
    apply (decompressData_inflated out (payload m) (size (header m)) receiver);
      (done || lia).
  - unfold vector_max_size. lia.
  - done.
  - exists r'. split; [exact Hturn |]. rewrite Hdel. do 2 f_equal.
    rewrite vector_resize_written. by apply message_restored.
Qed.

(** The same with both ends set to LZ4, for sizes an [int] holds: the
    header says [LZ4], the payload is what [LZ4_compress_fast] wrote,
    and the receiver's callback is handed the original message. *)
Theorem lz4_round_trip senv renv m sender receiver out :
  let n := Z.of_nat (length (payload m)) in
  connected_ sender = true -> size (header m) <= max_message_size_ sender ->
  header_result senv = Sent -> payload_result senv = Sent ->
  compression_type_ sender = LZ4 -> adaptive_compression_ sender = false ->
  compression (header m) = NONE -> 0 <= size (header m) < 2 ^ 31 ->
  1024 < n < 2 ^ 31 ->
  LZ4_compress_fast lib (payload m) n n (lz4_acceleration (compression_level_ sender))
  = (Z.of_nat (length out), out) ->
  0 < Z.of_nat (length out) < n ->
  LZ4_decompress_safe lib out (Z.of_nat (length out)) (size (header m))
  = (n, payload m) ->
  compression_type_ receiver = LZ4 -> message_callback_ receiver = true ->
  effects (sendMessage lib senv m sender).2
  = effects sender ++ [SocketSend (HeaderSegment (set_compression LZ4 (header m)))
                                  true Sent;
                       SocketSend (PayloadSegment out) false Sent] /\
  (recv_header renv = Got (set_compression LZ4 (header m)) ->
   recv_payload renv = Got out ->
   exists r',
     worker_turn lib renv receiver = Continues r' /\
     delivered (effects r') = delivered (effects receiver) ++ [m]).
Proof.
  intros n Hconn Hsize Hh Hp Hst Hadapt Hnone Hrange Hn Hc Hout Hd Hrt Hcb.
  subst n. set (n := Z.of_nat (length (payload m))) in Hn, Hout.
  pose proof (sendMessage_sends lib senv m sender Hconn Hsize Hh Hp) as Hok.
  destruct (sendMessage_accepted lib senv m sender Hok) as (_ & _ & Heff).
  cbn zeta in Heff.
  assert (Hprep : (prepare lib senv m sender).1
                  = mkMessage (set_compression LZ4 (header m)) out).
  { unfold prepare, shouldCompressMessage. rewrite Hadapt. cbn [negb].
    destruct (Z.ltb_spec 1024 (Z.of_nat (length (payload m)))); [| lia].
    unfold compressData. rewrite Hst. destruct (decide (LZ4 = LZ4)); [| done].
    rewrite s32_small by lia. rewrite Hc, u64_small by lia.
    destruct (Z.ltb_spec 0 (Z.of_nat (length out))); [| lia].
    destruct (Z.ltb_spec (Z.of_nat (length out)) (Z.of_nat (length (payload m))));
      [| lia].
    cbn [andb fst]. f_equal.
    - unfold selectCompressionType. rewrite Hst. by rewrite decide_True.
    - apply vector_resize_written. }
  rewrite Hprep in Heff. cbn [header payload] in Heff.
  split; [exact Heff |].
  intros Hrh Hrp.
  destruct (decompressed_turn_delivers lib renv _ out receiver
              (Z.of_nat (length (payload m)))
              (written_into (vector_of_size (size (header m))) (payload m)) Hrh Hrp)
    as (r' & Hturn & Hdel).
  - done.
  - cbn [size set_compression]. unfold decompressData. rewrite Hrt.
    destruct (decide (LZ4 = LZ4)); [| done].
    rewrite !s32_small by lia. rewrite Hd, u64_small by lia. done.
  - unfold vector_max_size. lia.
  - done.
  - exists r'. split; [exact Hturn |]. rewrite Hdel. do 2 f_equal.
    rewrite vector_resize_written. by apply message_restored.
Qed.

(** A payload of at most 1024 bytes is never compressed: header and
    payload go out as they were passed, and the receiver hands them to
    its message callback as they arrive, its statistics untouched. *)
Theorem small_message_round_trip senv renv m sender receiver :
  connected_ sender = true -> size (header m) <= max_message_size_ sender ->
  header_result senv = Sent -> payload_result senv = Sent ->
  Z.of_nat (length (payload m)) <= 1024 ->
  compression (header m) = NONE -> message_callback_ receiver = true ->
  effects (sendMessage lib senv m sender).2
  = effects sender ++ [SocketSend (HeaderSegment (header m)) true Sent;
                       SocketSend (PayloadSegment (payload m)) false Sent] /\
  compression_stats_ (sendMessage lib senv m sender).2 = compression_stats_ sender /\
  (recv_header renv = Got (header m) -> recv_payload renv = Got (payload m) ->
   exists r',
     worker_turn lib renv receiver = Continues r' /\
     delivered (effects r') = delivered (effects receiver) ++ [m] /\
     compression_stats_ r' = compression_stats_ receiver).
Proof.
  intros Hconn Hsize Hh Hp Hn Hnone Hcb.
  pose proof (sendMessage_sends lib senv m sender Hconn Hsize Hh Hp) as Hok.
  destruct (sendMessage_accepted lib senv m sender Hok) as (_ & _ & Heff).
  cbn zeta in Heff.
  assert (Hprep : prepare lib senv m sender
                  = (m, (shouldCompressMessage (speed_now senv)
                           (Z.of_nat (length (payload m))) sender).2)).
  { unfold prepare, shouldCompressMessage.
    destruct (Z.ltb_spec 1024 (Z.of_nat (length (payload m)))); [lia |].
    destruct (adaptive_compression_ sender); cbn [negb]; [| done].
    by destruct (getCurrentNetworkSpeed _ _). }
  rewrite Hprep in Heff. split; [exact Heff |]. split.
  { pose proof (shouldCompressMessage_frame (speed_now senv)
                  (Z.of_nat (length (payload m))) sender) as (_ & _ & Hstats & _).
    cbn zeta in Hstats. rewrite <- Hstats.
    unfold sendMessage. rewrite Hconn. cbn [negb].
    destruct (Z.ltb_spec (max_message_size_ sender) (size (header m))); [lia |].
    by rewrite Hprep, Hh, Hp. }
  intros Hrh Hrp.
  pose proof (heartbeat_if_due_frame lib renv receiver) as (Hs & _ & He & _).
  cbn zeta in Hs, He.
  unfold worker_turn, receive. rewrite Hrh, Hrp. unfold process.
  destruct (decide (compression (header m) <> NONE)); [done |].
  match goal with |- context [deliver ?msg ?v] =>
    destruct (deliver_counts msg v) as (Hdel & _ & Hstats);
    exists (wrapper_of (deliver msg v)) end.
  cbn zeta in Hdel, Hstats. split; [done |].
  rewrite Hdel, Hstats. cbn [message_callback_ emit compression_stats_].
  replace (message_callback_ (heartbeat_if_due lib renv receiver)) with true
    by (unfold settings in Hs; congruence).
  rewrite !emit_recv_delivered, He, (heartbeat_if_due_stats lib).
  split; [| done]. by destruct m.
Qed.

End RoundTrip.
End RoundTripFacts.

(** ** Statistics and history *)

Module StatsFacts.
Import Int Protocol Zmq Spec IntFacts ZmqFacts.

(** The running mean of [updateCompressionStats]: as long as the
    total stays within 63 bits, the new average is the old total plus
    the new time, divided by the new count and rounded down; it lies
    between the old average and the new time, and it is the new time for
    the first message. *)
Theorem average_time_stays_between before_size after_size compression_time w :
  let s := compression_stats_ w in
  let s' := compression_stats_
              (updateCompressionStats before_size after_size compression_time w) in
  0 <= messages_compressed s -> 0 <= average_compression_time s ->
  0 <= compression_time ->
  average_compression_time s * messages_compressed s + compression_time < 2 ^ 63 ->
  messages_compressed s + 1 < 2 ^ 64 ->
  average_compression_time s'
  = (average_compression_time s * messages_compressed s + compression_time)
    / (messages_compressed s + 1) /\
  Z.min (average_compression_time s) compression_time <= average_compression_time s' /\
  average_compression_time s' <= Z.max (average_compression_time s) compression_time /\
  (messages_compressed s = 0 -> average_compression_time s' = compression_time).
Proof.
  intros s s' Hc Ha Ht Hsum Hcount. subst s'.
  cbn [updateCompressionStats compression_stats_ set_stats average_compression_time].
  fold s.
  set (a := average_compression_time s) in *. set (c := messages_compressed s) in *.
  rewrite (u64_small (c + 1)) by lia.
  replace (c + 1 - 1) with c by lia.
  rewrite (u64_small (a * c)) by nia.
  rewrite (u64_small (a * c + compression_time)) by nia.
  split; [done |].
  assert (Hlo : Z.min a compression_time * (c + 1) <= a * c + compression_time) by nia.
  assert (Hhi : a * c + compression_time <= Z.max a compression_time * (c + 1)) by nia.
  split; [| split].
  - apply Z.div_le_lower_bound; lia.
  - apply Z.div_le_upper_bound; lia.
  - intros ->. rewrite Z.mul_0_r. cbn. apply Z.div_1_r.
Qed.

(** Reading the estimate erases the samples older than a second from the
    history, and a later reading is none the worse for it: cleaning at
    an earlier time and then at a later one leaves what cleaning at the
    later one leaves, and the later reading returns the same value and
    the same history. *)
Theorem earlier_reading_is_harmless now1 now2 w :
  now1 <= now2 ->
  cleanupOldSpeedHistory now2 (cleanupOldSpeedHistory now1 w)
  = cleanupOldSpeedHistory now2 w /\
  getCurrentNetworkSpeed now2 (getCurrentNetworkSpeed now1 w).2
  = getCurrentNetworkSpeed now2 w.
Proof.
  intros Hle.
  assert (Hh : remove_if (fun m : Z * Z => m.1 <? now2 - seconds 1)
                 (remove_if (fun m : Z * Z => m.1 <? now1 - seconds 1)
                            (network_speed_history_ w))
               = remove_if (fun m : Z * Z => m.1 <? now2 - seconds 1)
                           (network_speed_history_ w)).
  { induction (network_speed_history_ w) as [| [t b] h IH]; [done |].
    cbn [remove_if fst].
    destruct (Z.ltb_spec t (now1 - seconds 1)); destruct (Z.ltb_spec t (now2 - seconds 1)).
    - done.
    - unfold seconds in *. lia.
    - cbn [remove_if fst]. destruct (Z.ltb_spec t (now2 - seconds 1)); [done | lia].
    - cbn [remove_if fst]. destruct (Z.ltb_spec t (now2 - seconds 1)); [lia |].
      by rewrite IH. }
  assert (Hc : cleanupOldSpeedHistory now2 (cleanupOldSpeedHistory now1 w)
               = cleanupOldSpeedHistory now2 w).
  { unfold cleanupOldSpeedHistory. cbn [network_speed_history_ set_history].
    rewrite Hh. done. }
  split; [exact Hc |].
  unfold getCurrentNetworkSpeed. cbn [snd]. cbn zeta. by rewrite Hc.
Qed.

End StatsFacts.

(** ** Starting and stopping *)

Module LifecycleFacts.
Import Int Protocol Zmq Spec IntFacts ZmqFacts.

(** [stop()] leaves the transport disconnected, with no worker and no
    socket, and a second [stop()], or the destructor after it, changes
    nothing: the socket is cleaned up once, and an error of that cleanup
    is reported once. *)
Theorem stop_is_final cleanup_error cleanup_error' e :
  let stopped := Lifecycle.stop cleanup_error e in
  Lifecycle.stop cleanup_error' stopped = stopped /\
  Lifecycle.destructor cleanup_error' stopped = stopped /\
  isConnected (Lifecycle.transport stopped) = false /\
  connection_state_ (Lifecycle.transport stopped) = DISCONNECTED /\
  reported (effects (Lifecycle.transport stopped))
  = reported (effects (Lifecycle.transport e))
    ++ match cleanup_error with
       | Some what =>
           if Lifecycle.socket_ e && error_callback_ (Lifecycle.transport e)
           then ["Error during socket cleanup: " +:+ what] else []
       | None => []
       end /\
  Lifecycle.worker_thread_joinable stopped = false /\
  Lifecycle.socket_ stopped = false /\
  Lifecycle.should_stop_ stopped = true.
Proof.
  intros stopped. unfold stopped, Lifecycle.destructor, Lifecycle.stop, isConnected.
  cbn [Lifecycle.socket_ Lifecycle.transport Lifecycle.worker_thread_joinable
       Lifecycle.should_stop_].
  split; [| split; [| split; [| split; [| split; [| done]]]]].
  - f_equal. destruct (Lifecycle.socket_ e); by destruct cleanup_error.
  - f_equal. destruct (Lifecycle.socket_ e); by destruct cleanup_error.
  - destruct (Lifecycle.socket_ e); by destruct cleanup_error.
  - destruct (Lifecycle.socket_ e); by destruct cleanup_error.
  - destruct (Lifecycle.socket_ e), cleanup_error as [what |];
      cbn [Zmq.stop effects set_connection andb]; rewrite ?app_nil_r; try done.
    rewrite handleError_effects, reported_app.
    by destruct (error_callback_ (Lifecycle.transport e)).
Qed.

(** [start()] launches a worker unless one is there, and is refused
    while one is; it leaves the transport's state as it is.  After
    [stop()] it launches a worker again, on a transport that is
    disconnected and whose socket has been released. *)
Theorem one_worker_at_a_time cleanup_error e :
  let started := Lifecycle.start e in
  let restarted := Lifecycle.start (Lifecycle.stop cleanup_error started.2) in
  Lifecycle.worker_thread_joinable started.2 = true /\
  started.1 = negb (Lifecycle.worker_thread_joinable e) /\
  Lifecycle.start started.2 = (false, started.2) /\
  Lifecycle.transport started.2 = Lifecycle.transport e /\
  restarted.1 = true /\
  Lifecycle.worker_thread_joinable restarted.2 = true /\
  Lifecycle.socket_ restarted.2 = false /\
  isConnected (Lifecycle.transport restarted.2) = false.
Proof.
  intros started restarted.
  unfold restarted, started, Lifecycle.start, Lifecycle.stop, isConnected.
  destruct (Lifecycle.worker_thread_joinable e) eqn:Hj; cbn.
  - rewrite Hj. repeat split.
    destruct (Lifecycle.socket_ e); by destruct cleanup_error.
  - repeat split. destruct (Lifecycle.socket_ e); by destruct cleanup_error.
Qed.

End LifecycleFacts.

(** ** Call proxy: payload bytes and the other registries *)

Module RegistryFacts.
Import Int Protocol Vulkan.
Import Zmq(ZMQWrapper).

Lemma byte_of_Z_value z : Z.of_N (Byte.to_N (byte_of_Z z)) = z mod 256.
Proof.
  unfold byte_of_Z.
  pose proof (Z.mod_pos_bound z 256 ltac:(lia)) as Hr.
  destruct (Byte.of_N (Z.to_N (z mod 256))) as [b |] eqn:Hb.
  - apply Byte.to_of_N in Hb. simpl. rewrite Hb. lia.
  - apply Byte.of_N_None_iff in Hb. lia.
Qed.

Lemma le_value_le_bytes n v : le_value (le_bytes n v) = v mod 256 ^ Z.of_nat n.
Proof.
  revert v. induction n as [| n IH]; intros v.
  - cbn. by rewrite Z.mod_1_r.
  - cbn [le_bytes le_value]. rewrite byte_of_Z_value, IH.
    rewrite Nat2Z.inj_succ, Z.pow_succ_r by lia.
    rewrite Z.rem_mul_r by lia. lia.
Qed.

Lemma take_le_bytes k n v : (k <= n)%nat -> take k (le_bytes n v) = le_bytes k v.
Proof.
  revert n v. induction k as [| k IH]; intros n v Hk; [done |].
  destruct n as [| n]; [lia |]. cbn. f_equal. apply IH. lia.
Qed.

Lemma length_le_bytes n v : length (le_bytes n v) = n.
Proof. revert v. induction n as [| n IH]; intros v; cbn; [done | by rewrite IH]. Qed.

(** When the exchange reports success, the image index stored through
    [pImageIndex] is the first four bytes of the request's own payload:
    the low 32 bits of the device handle.  Otherwise the index is left
    as it was. *)
Theorem acquired_index_is_the_device_handle (send : CallProxy)
    device swapchain timeout semaphore fence pImageIndex icd :
  let acquired :=
    vkAcquireNextImageKHR send device swapchain timeout semaphore fence pImageIndex icd in
  (acquired.1.1 = VK_SUCCESS -> acquired.1.2 = u32 device) /\
  (acquired.1.1 <> VK_SUCCESS -> acquired.1.2 = pImageIndex).
Proof.
  intros acquired. unfold acquired, vkAcquireNextImageKHR.
  destruct (send _ _) as [result net]. cbn [fst snd].
  destruct (decide (result = VK_SUCCESS)) as [Hok | Hno]; split; try done.
  intros _. cbn [payload command]. unfold AcquireParams.
  rewrite take_app_le by (rewrite length_le_bytes; lia).
  rewrite take_le_bytes by lia. by rewrite le_value_le_bytes.
Qed.

(** *** Instances *)

Lemma bare_insert k icd m :
  bare icd -> instances_ m = <[k := mkInstanceInfo k []]> (instances_ icd) -> bare m.
Proof.
  intros Hb Hm k' info. rewrite Hm. destruct (decide (k = k')) as [-> | Hne].
  - rewrite lookup_insert_eq. by intros [= <-].
  - rewrite lookup_insert_ne by done. apply Hb.
Qed.

Lemma bare_delete k icd m :
  bare icd -> instances_ m = delete k (instances_ icd) -> bare m.
Proof.
  intros Hb Hm k' info. rewrite Hm. intros Hl.
  apply lookup_delete_Some in Hl as [_ Hl]. by apply (Hb k').
Qed.

Lemma bare_same icd m : bare icd -> instances_ m = instances_ icd -> bare m.
Proof. intros Hb Hm k info. rewrite Hm. apply Hb. Qed.

Lemma call_bare names c icd : bare icd -> bare (call names icd c).
Proof.
  intros Hb.
  destruct c as [send info p | send h | send pd info p | send h | send d info p
                 | send d h | send d info p | send d h | send d info a
                 | send d pool n a params |]; cbn [call].
  - unfold vkCreateInstance. destruct (send _ _) as [result net].
    destruct (decide (result = VK_SUCCESS)); cbn [snd].
    + by apply (bare_insert (pointee p) icd).
    + by apply (bare_same icd).
  - unfold vkDestroyInstance. destruct (send _ _) as [result net].
    by apply (bare_delete h icd).
  - unfold vkCreateDevice. destruct (send _ _) as [result net].
    destruct (decide (result = VK_SUCCESS)); by apply (bare_same icd).
  - unfold vkDestroyDevice. destruct (send _ _) as [result net]. by apply (bare_same icd).
  - unfold vkCreateSwapchainKHR. destruct (send _ _) as [result net].
    destruct (decide (result = VK_SUCCESS)); by apply (bare_same icd).
  - unfold vkDestroySwapchainKHR. destruct (send _ _) as [result net].
    by apply (bare_same icd).
  - unfold vkCreateCommandPool. destruct (send _ _) as [result net].
    destruct (decide (result = VK_SUCCESS)); by apply (bare_same icd).
  - unfold vkDestroyCommandPool. destruct (send _ _) as [result net].
    by apply (bare_same icd).
  - unfold vkAllocateCommandBuffers. destruct (send _ _) as [result net].
    destruct (decide (result = VK_SUCCESS)); by apply (bare_same icd).
  - unfold vkFreeCommandBuffers. destruct (send _ _) as [result net].
    by apply (bare_same icd).
  - intros k info. cbn. by rewrite lookup_empty.
Qed.

Lemma calls_bare names cs icd : bare icd -> bare (calls names cs icd).
Proof.
  revert icd. induction cs as [| c cs IH]; intros icd Hb; [done |].
  cbn [calls foldl]. apply IH. by apply call_bare.
Qed.

(** Whatever calls were made since construction, and whatever the
    exchanges reported, no entry of the instance map lists a physical
    device.  So [vkEnumeratePhysicalDevices] never hands one out: asked
    for the count it stores 0 or nothing, and asked for devices it
    stores nothing, none, or reads past the end of an empty vector. *)
Theorem no_physical_device_is_enumerated names (send : CallProxy) cs net
    instance count array_given :
  let icd := calls names cs (construct net) in
  let enumerated :=
    vkEnumeratePhysicalDevices names send instance count array_given icd in
  bare icd /\
  (array_given = false ->
   enumerated.1.2 = NothingWritten \/ enumerated.1.2 = CountWritten 0) /\
  (array_given = true -> 0 < count ->
   enumerated.1.2 = NothingWritten \/ enumerated.1.2 = ReadsPastTheEnd) /\
  (array_given = true -> count <= 0 ->
   enumerated.1.2 = NothingWritten \/ enumerated.1.2 = DevicesWritten []).
Proof.
  intros icd enumerated.
  assert (Hb : bare icd).
  { apply calls_bare. intros k info. cbn. by rewrite lookup_empty. }
  split; [exact Hb |].
  unfold enumerated, vkEnumeratePhysicalDevices.
  destruct (send _ _) as [result net1]. cbn [fst snd instances_ set_network].
  destruct (decide (result = VK_SUCCESS)); [| by repeat split; left].
  destruct (instances_ icd !! instance) as [info |] eqn:Hl; [| by repeat split; left].
  rewrite (Hb _ _ Hl). cbn [length].
  repeat split.
  - intros ->. by right.
  - intros -> Hc. right. destruct (decide (count <= Z.of_nat 0)); [lia | done].
  - intros -> Hc. right. destruct (decide (count <= Z.of_nat 0)); [| lia].
    by rewrite take_nil.
Qed.

(** *** Command buffers *)

Lemma enter_command_buffers_lookup device pool (a : Array) count m h :
  enter_command_buffers device pool a count m !! h
  = if decide (h ∈ element a <$> seq 0 (Z.to_nat count))
    then Some (mkCommandBufferInfo h pool device) else m !! h.
Proof.
  unfold enter_command_buffers. generalize (Z.to_nat count) as n. intros n.
  induction n as [| n IH].
  - cbn [seq foldl fmap list_fmap].
    destruct (decide (h ∈ [])) as [Hin | _]; [by apply elem_of_nil in Hin | done].
  - rewrite seq_S, foldl_app, fmap_app. cbn [foldl Nat.add fmap list_fmap].
    destruct (decide (element a n = h)) as [Hn | Hn].
    + rewrite Hn, lookup_insert_eq.
      destruct (decide (h ∈ (element a <$> seq 0 n) ++ [h])) as [_ | Hno]; [done |].
      exfalso. apply Hno. apply elem_of_app. right. apply list_elem_of_here.
    + rewrite lookup_insert_ne by done. rewrite IH.
      destruct (decide (h ∈ element a <$> seq 0 n)) as [Hin | Hno];
        destruct (decide (h ∈ (element a <$> seq 0 n) ++ [element a n]))
          as [Hin' | Hno']; try done.
      * exfalso. apply Hno'. apply elem_of_app. by left.
      * exfalso. apply elem_of_app in Hin' as [? | Hin']; [done |].
        apply list_elem_of_singleton in Hin'. done.
Qed.

Lemma erase_command_buffers_lookup (a : Array) count m h :
  erase_command_buffers a count m !! h
  = if decide (h ∈ element a <$> seq 0 (Z.to_nat count)) then None else m !! h.
Proof.
  unfold erase_command_buffers. generalize (Z.to_nat count) as n. intros n.
  induction n as [| n IH].
  - cbn [seq foldl fmap list_fmap].
    destruct (decide (h ∈ [])) as [Hin | _]; [by apply elem_of_nil in Hin | done].
  - rewrite seq_S, foldl_app, fmap_app. cbn [foldl Nat.add fmap list_fmap].
    destruct (decide (element a n = h)) as [Hn | Hn].
    + rewrite Hn, lookup_delete_eq.
      destruct (decide (h ∈ (element a <$> seq 0 n) ++ [h])) as [_ | Hno]; [done |].
      exfalso. apply Hno. apply elem_of_app. right. apply list_elem_of_here.
    + rewrite lookup_delete_ne by done. rewrite IH.
      destruct (decide (h ∈ element a <$> seq 0 n)) as [Hin | Hno];
        destruct (decide (h ∈ (element a <$> seq 0 n) ++ [element a n]))
          as [Hin' | Hno']; try done.
      * exfalso. apply Hno'. apply elem_of_app. by left.
      * exfalso. apply elem_of_app in Hin' as [? | Hin']; [done |].
        apply list_elem_of_singleton in Hin'. done.
Qed.

(** [vkAllocateCommandBuffers], when the exchange reports success,
    enters each of the first [commandBufferCount] handles of the array
    with the pool and the device, and enters nothing otherwise;
    [vkFreeCommandBuffers] of the same array and count erases each of
    them, whatever its exchange reports, and leaves every other entry
    of the map as it was before the allocation. *)
Theorem allocated_buffers_are_freed names (send1 send2 : CallProxy)
    device pAllocateInfo pCommandBuffers params icd :
  let commandPool := commandPool_of pAllocateInfo in
  let count := commandBufferCount_of pAllocateInfo in
  let handles := element pCommandBuffers <$> seq 0 (Z.to_nat count) in
  let allocated :=
    vkAllocateCommandBuffers names send1 device pAllocateInfo pCommandBuffers icd in
  let freed :=
    vkFreeCommandBuffers names send2 device commandPool count pCommandBuffers params
                         allocated.2 in
  (allocated.1 = VK_SUCCESS ->
   forall h, h ∈ handles ->
     command_buffers_ allocated.2 !! h
     = Some (mkCommandBufferInfo h commandPool device)) /\
  (allocated.1 <> VK_SUCCESS -> command_buffers_ allocated.2 = command_buffers_ icd) /\
  (forall h, h ∈ handles -> command_buffers_ freed !! h = None) /\
  (forall h, h ∉ handles -> command_buffers_ freed !! h = command_buffers_ icd !! h).
Proof.
  intros commandPool count handles allocated freed.
  assert (Hfreed : command_buffers_ freed
                   = erase_command_buffers pCommandBuffers count
                       (command_buffers_ allocated.2)).
  { unfold freed, vkFreeCommandBuffers. by destruct (send2 _ _). }
  assert (Hallocated :
            command_buffers_ allocated.2
            = if decide (allocated.1 = VK_SUCCESS)
              then enter_command_buffers device commandPool pCommandBuffers count
                     (command_buffers_ icd)
              else command_buffers_ icd).
  { unfold allocated, vkAllocateCommandBuffers. destruct (send1 _ _) as [result net].
    destruct (decide (result = VK_SUCCESS)) as [-> | Hne]; cbn [fst snd].
    - by rewrite decide_True.
    - by rewrite decide_False. }
  split; [| split; [| split]].
  - intros Hok h Hh. rewrite Hallocated, decide_True by done.
    rewrite enter_command_buffers_lookup. by rewrite decide_True.
  - intros Hno. by rewrite Hallocated, decide_False.
  - intros h Hh. rewrite Hfreed, erase_command_buffers_lookup. by rewrite decide_True.
  - intros h Hh. rewrite Hfreed, erase_command_buffers_lookup, decide_False by done.
    rewrite Hallocated. destruct (decide (allocated.1 = VK_SUCCESS)); [| done].
    rewrite enter_command_buffers_lookup. by rewrite decide_False.
Qed.

(** *** What a device leaves behind *)

(** The entries a swapchain and a command pool were given when they
    were created on a device are there after [vkDestroyDevice] has
    erased the device, and still name it; [cleanupResources] empties
    the maps. *)
Theorem device_dependents_outlive_it (send1 send2 send3 : CallProxy)
    device pSwapchainInfo pSwapchain pPoolInfo pCommandPool icd :
  let with_swapchain :=
    vkCreateSwapchainKHR send1 device pSwapchainInfo pSwapchain icd in
  let with_pool :=
    vkCreateCommandPool send2 device pPoolInfo pCommandPool with_swapchain.2 in
  let destroyed := vkDestroyDevice send3 device with_pool.2 in
  devices_ destroyed !! device = None /\
  (with_swapchain.1 = VK_SUCCESS ->
   swapchains_ destroyed !! pointee pSwapchain
   = Some (mkSwapchainInfo (pointee pSwapchain) device [])) /\
  (with_pool.1 = VK_SUCCESS ->
   command_pools_ destroyed !! pointee pCommandPool
   = Some (mkCommandPoolInfo (pointee pCommandPool) device)) /\
  swapchains_ (cleanupResources destroyed) = ∅ /\
  command_pools_ (cleanupResources destroyed) = ∅.
Proof.
  intros with_swapchain with_pool destroyed.
  assert (Hd : devices_ destroyed !! device = None
               /\ swapchains_ destroyed = swapchains_ with_pool.2
               /\ command_pools_ destroyed = command_pools_ with_pool.2).
  { unfold destroyed, vkDestroyDevice. destruct (send3 _ _). cbn.
    split; [apply lookup_delete_eq | done]. }
  destruct Hd as (Hgone & Hs & Hp).
  assert (Hpool : swapchains_ with_pool.2 = swapchains_ with_swapchain.2).
  { unfold with_pool, vkCreateCommandPool. destruct (send2 _ _) as [result net].
    by destruct (decide (result = VK_SUCCESS)). }
  split; [exact Hgone |]. split; [| split; [| done]].
  - rewrite Hs, Hpool. unfold with_swapchain, vkCreateSwapchainKHR.
    destruct (send1 _ _) as [result net]. cbn [fst snd].
    destruct (decide (result = VK_SUCCESS)); [| done].
    intros _. cbn. apply lookup_insert_eq.
  - rewrite Hp. unfold with_pool, vkCreateCommandPool.
    destruct (send2 _ _) as [result net]. cbn [fst snd].
    destruct (decide (result = VK_SUCCESS)); [| done].
    intros _. cbn. apply lookup_insert_eq.
Qed.

End RegistryFacts.

(** ** The statements at concrete inputs *)

Module Scenarios.
Import Int Protocol Zmq Spec Sample.
Import ZmqFacts WorkerFacts VulkanFacts.

(** At 1.7 s only the third of the three sends is within the window. *)
Lemma network_speed_at_1_7_s :
  getCurrentNetworkSpeed 1700000000 (set_history three_sends client)
  = (300, set_history [(1600000000, 300)] client).
Proof.
  apply (network_speed_is_windowed_total 1700000000 (set_history three_sends client)).
  change (0 <= 300 < 2 ^ 53). lia.
Defined.

(** A frame one byte over the limit, on a connected client. *)
Lemma oversized_frame_on_connected_client :
  sendMessage lib (sends_ok 0) (frame (MAX_MESSAGE_SIZE + 1)) client
  = (false, handleError "Message size exceeds limit" client) /\
  socket_calls (effects (sendMessage lib (sends_ok 0) (frame (MAX_MESSAGE_SIZE + 1)) client).2)
  = socket_calls (effects client) /\
  reported (effects (sendMessage lib (sends_ok 0) (frame (MAX_MESSAGE_SIZE + 1)) client).2)
  = reported (effects client) ++ ["Message size exceeds limit"] /\
  contains "exceeds limit" "Message size exceeds limit" = true.
Proof.
  apply (oversized_message_rejected lib (sends_ok 0) (frame (MAX_MESSAGE_SIZE + 1)) client).
  reflexivity.
Defined.

(** C3 fails on a transport that has been stopped: the oversized frame
    is refused with the text of the connection guard, which does not
    contain "exceeds limit". *)
Lemma oversized_frame_on_stopped_client :
  let w := stop None client in
  let m := frame (MAX_MESSAGE_SIZE + 1) in
  max_message_size_ w < size (header m) /\
  (sendMessage lib (sends_ok 0) m w).1 = false /\
  reported (effects (sendMessage lib (sends_ok 0) m w).2)
  = ["Cannot send message: not connected"] /\
  contains "exceeds limit" "Cannot send message: not connected" = false.
Proof. split; [reflexivity |]. repeat split; reflexivity. Qed.

(** A frame of 2000 zero bytes is sent compressed. *)
Lemma compressible_frame_sent_compressed :
  let m := frame 2000 in
  let w1 := (shouldCompressMessage 0 2000 client).2 in
  exists msg,
    effects (sendMessage lib (sends_ok 0) m client).2
    = effects client ++ [SocketSend (HeaderSegment (header msg)) true Sent;
                         SocketSend (PayloadSegment (payload msg)) false Sent] /\
    (msg = m \/
     exists compressed_size buffer,
       compressData lib (payload m) 2000 (vector_of_size 2000) 2000 w1
       = (compressed_size, buffer) /\
       0 < compressed_size < 2000 /\
       payload msg = vector_resize compressed_size buffer /\
       Z.of_nat (length (payload msg)) = compressed_size /\
       header msg = set_compression (selectCompressionType 2000 w1) (header m)).
Proof.
  apply (compressed_form_kept_only_if_smaller lib (sends_ok 0) (frame 2000) client).
  vm_compute. reflexivity.
Defined.

(** C4 fails for a header whose [compression] the caller has set: the
    five bytes go out untouched, under a header that says [ZLIB]. *)
Lemma preset_compression_field_is_sent :
  let m := hello_marked_zlib in
  (shouldCompressMessage 0 (Z.of_nat (length (payload m))) client).1 = false /\
  effects (sendMessage lib (sends_ok 0) m client).2
  = [SocketSend (HeaderSegment (header m)) true Sent;
     SocketSend (PayloadSegment (payload m)) false Sent] /\
  compression (header m) <> NONE.
Proof. split; [reflexivity |]. split; [reflexivity | discriminate]. Qed.

(** A mebibyte of zero bytes, the codec left unpinned: the header says
    [LZ4], the six bytes of payload are the zlib stand-in's. *)
Lemma mebibyte_frame_labelled_lz4 :
  effects (sendMessage lib (sends_ok 0) (frame (1024 * 1024))
                       (with_compression NONE false client)).2
  = effects (with_compression NONE false client)
    ++ [SocketSend (HeaderSegment (set_compression LZ4 (header (frame (1024 * 1024)))))
                   true Sent;
        SocketSend (PayloadSegment [zlib_mark; x00; x00; x00; x10; x00]) false Sent].
Proof.
  apply (unpinned_codec_label_disagrees lib (sends_ok 0) (frame (1024 * 1024))
           (with_compression NONE false client) [zlib_mark; x00; x00; x00; x10; x00]).
  - reflexivity.
  - vm_compute. discriminate.
  - reflexivity.
  - reflexivity.
  - reflexivity.
  - reflexivity.
  - vm_compute. split; [discriminate | reflexivity].
  - vm_compute. reflexivity.
  - vm_compute. split; reflexivity.
Defined.

(** C5 fails: the socket raises an error in six turns in a row, one more
    than the bound on reconnection attempts, and the transport is still
    [CONNECTED], with no attempt counted and six errors reported. *)
Lemma connection_lost_stays_connected :
  let w := wrapper_of (workerThread lib six_failing_turns client) in
  connection_state_ client = CONNECTED /\
  connection_state_ w = CONNECTED /\
  connection_state_ w <> RECONNECTING /\
  connection_state_ w <> DISCONNECTED /\
  reconnect_attempts_ w = 0 /\
  reported (effects w)
  = replicate 6 "Error in worker thread: Connection reset by peer".
Proof. repeat split; done. Qed.

(** A corrupt LZ4 message at a receiver set to LZ4 ends the worker. *)
Lemma corrupt_lz4_arrival_escapes :
  exists w',
    worker_turn lib (corrupt_arrival LZ4) (with_compression LZ4 false client) = Escapes w' /\
    decompression_failures (compression_stats_ w')
    = decompression_failures (compression_stats_ (with_compression LZ4 false client)) /\
    delivered (effects w') = delivered (effects (with_compression LZ4 false client)) /\
    forall envs,
      workerThread lib (corrupt_arrival LZ4 :: envs) (with_compression LZ4 false client)
      = Escapes w'.
Proof.
  apply (lz4_decompression_failure_escapes lib (corrupt_arrival LZ4)
           (mkHeader FRAME_DATA 2000 7 0 LZ4) [x00; x01; x02]
           (with_compression LZ4 false client) (-1) []).
  - reflexivity.
  - reflexivity.
  - reflexivity.
  - discriminate.
  - reflexivity.
  - reflexivity.
  - lia.
Defined.

(** A corrupt zlib message at a receiver set to zlib is counted and
    dropped. *)
Lemma corrupt_zlib_arrival_dropped :
  exists w',
    worker_turn lib (corrupt_arrival ZLIB) client = Continues w' /\
    decompression_failures (compression_stats_ w')
    = u64 (decompression_failures (compression_stats_ client) + 1) /\
    delivered (effects w') = delivered (effects client) /\
    messages_received_ w' = messages_received_ client /\
    reported (effects w')
    = reported (effects (heartbeat_if_due lib (corrupt_arrival ZLIB) client))
      ++ (if error_callback_ client then ["Failed to decompress message"] else []) /\
    forall envs, workerThread lib (corrupt_arrival ZLIB :: envs) client
                 = workerThread lib envs w'.
Proof.
  apply (failed_decompression_counted_and_dropped lib (corrupt_arrival ZLIB)
           (mkHeader FRAME_DATA 2000 7 0 ZLIB) [x00; x01; x02] client
           (vector_of_size 2000)).
  - reflexivity.
  - reflexivity.
  - reflexivity.
  - discriminate.
  - reflexivity.
Defined.

(** The reply with the request's sequence id is delivered in the first
    millisecond; the call still returns [VK_TIMEOUT], five seconds later. *)
Lemma reply_delivered_yet_timeout :
  let net1 := (sendMessage lib (sends_ok 0) request client).2 in
  let waited := Vulkan.waitForResponse (Vulkan.wait_env reply_in_first_sleep)
                  (sequence (header request)) net1 in
  sequence (header reply) = sequence (header request) /\
  (Vulkan.sendCommand lib reply_in_first_sleep request client).1 = Vulkan.VK_TIMEOUT /\
  waited.1.1 = Vulkan.VK_TIMEOUT /\
  Vulkan.timeout <= waited.1.2 - 1000 /\
  reply ∈ delivered (effects waited.2).
Proof.
  destruct (sendCommand_ignores_the_response lib reply_in_first_sleep request client)
    as (Hr & Hw & Ht & Hd).
  { reflexivity. }
  split; [reflexivity |]. split; [exact Hr |]. split; [exact Hw |]. split; [exact Ht |].
  apply Hd; [reflexivity |]. apply list_elem_of_here.
Defined.

(** The scenario with exchanges that report success. *)
Lemma device_entry_outlives_instance :
  let pInstance := Vulkan.mkPointer 4096 48879 in
  let pDevice := Vulkan.mkPointer 4104 51966 in
  let created := Vulkan.vkCreateInstance reports_success [] pInstance icd in
  let with_device := Vulkan.vkCreateDevice reports_success 7 [] pDevice created.2 in
  let destroyed := Vulkan.vkDestroyInstance reports_success 48879 with_device.2 in
  Vulkan.instances_ with_device.2 !! 48879 = Some (Vulkan.mkInstanceInfo 48879 []) /\
  Vulkan.instances_ destroyed !! 48879 = None /\
  Vulkan.devices_ destroyed !! 51966 = Some (Vulkan.mkDeviceInfo 51966 7 []) /\
  Vulkan.devices_ (Vulkan.vkDestroyDevice reports_success 51966 destroyed) !! 51966 = None.
Proof.
  intros pInstance pDevice created with_device destroyed.
  destruct (destroy_instance_keeps_device reports_success reports_success reports_success
              reports_success [] pInstance 7 [] pDevice icd)
    as (_ & _ & _ & _ & Hi & Hd & Hgone).
  fold created with_device destroyed in Hi, Hd, Hgone.
  split; [reflexivity |]. split; [| split; [| exact Hgone]].
  - etrans; [exact (f_equal (fun m => m !! 48879) Hi) | apply lookup_delete_eq].
  - apply Hd. reflexivity.
Defined.

(** With an exchange that reports success, the caller of [vkMapMemory]
    is left with the address of a buffer that is gone. *)
Lemma mapped_pointer_dangles :
  let call := Vulkan.vkMapMemory reports_success 51966 700 0 1024 0 0 ∅ icd in
  call.1.1.1 = Vulkan.VK_SUCCESS /\
  (∅ : gmap Z (list byte)) !! call.1.1.2 = None /\
  (Vulkan.allocate (Vulkan.MemoryMapParams 51966 700 0 1024 0) ∅).2 !! call.1.1.2
  = Some (Vulkan.MemoryMapParams 51966 700 0 1024 0) /\
  call.1.2 !! call.1.1.2 = None /\
  call.1.2 = ∅.
Proof.
  intros call. split; [reflexivity |].
  apply (vkMapMemory_hands_out_released_buffer reports_success 51966 700 0 1024 0 0 ∅ icd).
  reflexivity.
Defined.

End Scenarios.

(** ** Further statements at concrete inputs *)

Module MoreScenarios.
Import Int Protocol Zmq Spec Sample.
Import ZmqFacts WorkerFacts SendFacts ReceiveFacts RoundTripFacts StatsFacts RegistryFacts.

(** Half a second after the five bytes went out, the estimate is the 37
    bytes of that send. *)
Lemma speed_after_a_send :
  (getCurrentNetworkSpeed 500000000 (sendMessage lib (sends_ok 0) hello client).2).1 = 37 /\
  32 <= (getCurrentNetworkSpeed 500000000 (sendMessage lib (sends_ok 0) hello client).2).1.
Proof.
  apply (speed_counts_the_last_send lib (sends_ok 0) hello client 500000000).
  - reflexivity.
  - vm_compute. discriminate.
  - constructor.
  - reflexivity.
Defined.

(** The corrupt arrival is treated alike under either label. *)
Lemma corrupt_arrival_under_either_label :
  process lib (corrupt_arrival ZLIB) (set_compression ZLIB (header (frame 2000)))
          [x00; x01; x02] client
  = process lib (corrupt_arrival ZLIB) (set_compression LZ4 (header (frame 2000)))
            [x00; x01; x02] client.
Proof.
  apply (receiver_ignores_codec_label lib (corrupt_arrival ZLIB) (header (frame 2000))
           ZLIB LZ4 [x00; x01; x02] client); discriminate.
Defined.

(** The compressed frame arrives at a client set to zlib: the callback
    gets the 2000 bytes, and the statistics count a compression. *)
Lemma compressed_frame_arrives :
  let env := arrival (set_compression ZLIB (header (frame 2000))) frame_deflated in
  exists w',
    worker_turn lib env client = Continues w' /\
    delivered (effects w') = delivered (effects client) ++ [frame 2000] /\
    messages_received_ w' = 1 /\
    messages_compressed (compression_stats_ w') = 1 /\
    messages_decompressed (compression_stats_ w') = 0 /\
    total_bytes_before (compression_stats_ w') = 2000 /\
    total_bytes_after (compression_stats_ w') = 6.
Proof.
  intros env.
  apply (decompressed_message_delivered lib env
           (set_compression ZLIB (header (frame 2000))) frame_deflated client
           2000 (payload (frame 2000))).
  - reflexivity.
  - reflexivity.
  - discriminate.
  - vm_compute. reflexivity.
  - vm_compute. split; [reflexivity | discriminate].
Defined.

(** The frame of 2000 zero bytes, from a client on zlib to a client on
    zlib. *)
Lemma frame_round_trip_zlib :
  let renv := arrival (set_compression ZLIB (header (frame 2000))) frame_deflated in
  exists hdr,
    effects (sendMessage lib (sends_ok 0) (frame 2000) client).2
    = effects client ++ [SocketSend (HeaderSegment hdr) true Sent;
                         SocketSend (PayloadSegment frame_deflated) false Sent] /\
    compression hdr <> NONE /\
    (recv_header renv = Got hdr -> recv_payload renv = Got frame_deflated ->
     exists r',
       worker_turn lib renv client = Continues r' /\
       delivered (effects r') = delivered (effects client) ++ [frame 2000]).
Proof.
  intros renv.
  apply (zlib_round_trip lib (sends_ok 0) renv (frame 2000) client client frame_deflated).
  - reflexivity.
  - vm_compute. discriminate.
  - reflexivity.
  - reflexivity.
  - discriminate.
  - reflexivity.
  - reflexivity.
  - vm_compute. split; [discriminate | reflexivity].
  - vm_compute. split; reflexivity.
  - vm_compute. reflexivity.
  - vm_compute. split; reflexivity.
  - vm_compute. reflexivity.
  - discriminate.
  - reflexivity.
Defined.

(** The same frame between two clients set to LZ4. *)
Lemma frame_round_trip_lz4 :
  let sender := with_compression LZ4 false client in
  let renv := arrival (set_compression LZ4 (header (frame 2000))) frame_lz4 in
  effects (sendMessage lib (sends_ok 0) (frame 2000) sender).2
  = effects sender
    ++ [SocketSend (HeaderSegment (set_compression LZ4 (header (frame 2000)))) true Sent;
        SocketSend (PayloadSegment frame_lz4) false Sent] /\
  (recv_header renv = Got (set_compression LZ4 (header (frame 2000))) ->
   recv_payload renv = Got frame_lz4 ->
   exists r',
     worker_turn lib renv sender = Continues r' /\
     delivered (effects r') = delivered (effects sender) ++ [frame 2000]).
Proof.
  intros sender renv.
  apply (lz4_round_trip lib (sends_ok 0) renv (frame 2000) sender sender frame_lz4).
  - reflexivity.
  - vm_compute. discriminate.
  - reflexivity.
  - reflexivity.
  - reflexivity.
  - reflexivity.
  - reflexivity.
  - vm_compute. split; [discriminate | reflexivity].
  - vm_compute. split; reflexivity.
  - vm_compute. reflexivity.
  - vm_compute. split; reflexivity.
  - vm_compute. reflexivity.
  - reflexivity.
  - reflexivity.
Defined.

(** The five bytes of the exchange test, from client to client. *)
Lemma hello_round_trip :
  let renv := arrival (header hello) (payload hello) in
  effects (sendMessage lib (sends_ok 0) hello client).2
  = effects client ++ [SocketSend (HeaderSegment (header hello)) true Sent;
                       SocketSend (PayloadSegment (payload hello)) false Sent] /\
  compression_stats_ (sendMessage lib (sends_ok 0) hello client).2
  = compression_stats_ client /\
  (recv_header renv = Got (header hello) -> recv_payload renv = Got (payload hello) ->
   exists r',
     worker_turn lib renv client = Continues r' /\
     delivered (effects r') = delivered (effects client) ++ [hello] /\
     compression_stats_ r' = compression_stats_ client).
Proof.
  intros renv.
  apply (small_message_round_trip lib (sends_ok 0) renv hello client client).
  - reflexivity.
  - vm_compute. discriminate.
  - reflexivity.
  - reflexivity.
  - vm_compute. discriminate.
  - reflexivity.
  - reflexivity.
Defined.

(** Over the three turns two messages are handed over and counted. *)
Lemma two_of_three_turns_deliver :
  let w' := wrapper_of (workerThread lib three_turns client) in
  exists ms,
    delivered (effects w') = delivered (effects client) ++ ms /\
    messages_received_ w' = u64 (messages_received_ client + Z.of_nat (length ms)).
Proof.
  apply (received_counts_deliveries lib three_turns client).
  - reflexivity.
  - vm_compute. split; [discriminate | reflexivity].
Defined.

(** The first compression, of 1500 microseconds, on a new client. *)
Lemma first_compression_time :
  let s' := compression_stats_ (updateCompressionStats 2000 6 1500 client) in
  average_compression_time s' = (0 * 0 + 1500) / (0 + 1) /\
  Z.min 0 1500 <= average_compression_time s' /\
  average_compression_time s' <= Z.max 0 1500 /\
  (0 = 0 -> average_compression_time s' = 1500).
Proof.
  apply (average_time_stays_between 2000 6 1500 client).
  - reflexivity.
  - reflexivity.
  - discriminate.
  - reflexivity.
  - reflexivity.
Defined.

(** A reading at 1.5 s does not change the one at 1.7 s. *)
Lemma readings_at_1_5_and_1_7_s :
  let w := set_history three_sends client in
  cleanupOldSpeedHistory 1700000000 (cleanupOldSpeedHistory 1500000000 w)
  = cleanupOldSpeedHistory 1700000000 w /\
  getCurrentNetworkSpeed 1700000000 (getCurrentNetworkSpeed 1500000000 w).2
  = getCurrentNetworkSpeed 1700000000 w.
Proof.
  apply (earlier_reading_is_harmless 1500000000 1700000000
           (set_history three_sends client)).
  discriminate.
Defined.

(** On the client, which has zlib pinned, the label for 2000 bytes is
    [ZLIB] and zlib is what runs. *)
Lemma label_on_the_client :
  let label := selectCompressionType 2000 client in
  let p := payload (frame 2000) in
  label <> NONE /\
  (label = LZ4 <-> compression_type_ client = LZ4) /\
  compressData lib p 2000 (vector_of_size 2000) 2000 client
  = compressData lib p 2000 (vector_of_size 2000) 2000
                 (setCompressionType label client) /\
  forall bytes bytes_size buffer capacity r,
    compression_type_ r = label ->
    decompressData lib bytes bytes_size buffer capacity r
    = decompressData lib bytes bytes_size buffer capacity
                     (setCompressionType label client).
Proof.
  intros label p.
  apply (label_names_the_codec_run lib p 2000 (vector_of_size 2000) 2000 2000 client).
  left. discriminate.
Defined.

(** With an exchange that reports success, the index handed back for a
    device whose handle is 2^32 + 7 is 7. *)
Lemma acquired_index_at_success :
  (Vulkan.vkAcquireNextImageKHR reports_success 4294967303 700 0 0 0 9 icd).1.2 = 7.
Proof.
  destruct (acquired_index_is_the_device_handle reports_success 4294967303 700 0 0 0 9 icd)
    as [Hok _].
  apply Hok. reflexivity.
Defined.

(** A swapchain and a command pool made on a device, then the device
    destroyed, under exchanges that report success. *)
Lemma swapchain_and_pool_outlive_device :
  let with_swapchain :=
    Vulkan.vkCreateSwapchainKHR reports_success 51966 [] (Vulkan.mkPointer 4112 700) icd in
  let with_pool :=
    Vulkan.vkCreateCommandPool reports_success 51966 [] (Vulkan.mkPointer 4120 800)
                               with_swapchain.2 in
  let destroyed := Vulkan.vkDestroyDevice reports_success 51966 with_pool.2 in
  Vulkan.devices_ destroyed !! 51966 = None /\
  Vulkan.swapchains_ destroyed !! 700 = Some (Vulkan.mkSwapchainInfo 700 51966 []) /\
  Vulkan.command_pools_ destroyed !! 800 = Some (Vulkan.mkCommandPoolInfo 800 51966).
Proof.
  intros with_swapchain with_pool destroyed.
  destruct (device_dependents_outlive_it reports_success reports_success reports_success
              51966 [] (Vulkan.mkPointer 4112 700) [] (Vulkan.mkPointer 4120 800) icd)
    as (Hgone & Hswapchain & Hpool & _).
  split; [exact Hgone |]. split; [apply Hswapchain | apply Hpool]; reflexivity.
Defined.

End MoreScenarios.
